(** * tg-alert-price-bot: the alert evaluation engine

    A shallow embedding of [src/services/database.ts] (the statements the
    evaluator runs), [src/services/alert.ts] ([checkPriceChanges],
    [shouldTriggerAlert], [triggerAlert]) and the last step of the alert
    creation dialogue of [src/services/telegram.ts], followed by the
    properties of the evaluation tick.

    - JavaScript [number]s are IEEE binary64 values: the kernel's primitive
      floats, with the very operations the source applies to them.
    - SQLite keeps a DATETIME column as text and compares it as text; the
      two layouts that reach the store are modelled in [SqlTime].
    - Every call that leaves the process (a statement on the store, an HTTP
      request, a Telegram send) may throw; which ones do is decided by the
      environment, and the world keeps a trace of the calls and of the
      logger lines, in program order. *)

From Stdlib Require Import Ascii DecimalString ZArith List String Bool Lia Floats Sorted.
Import ListNotations.

Set Implicit Arguments.

(* ------------------------------------------------------------------ *)
(** ** JavaScript numbers *)

Module JsNumber.

Local Open Scope float_scope.

(** [!x] on a number: true for [0], [-0] and [NaN]. *)
Definition falsy (x : float) : bool := PrimFloat.is_zero x || PrimFloat.is_nan x.

(** [((currentPrice - oldPrice) / oldPrice) * 100], as written in
    [shouldTriggerAlert] and again in [checkPriceChanges]. *)
Definition pctChange (currentPrice oldPrice : float) : float :=
  ((currentPrice - oldPrice) / oldPrice) * 100.

(** [priceChangePercent <= -alertConfig.thresholdPercentage]. *)
Definition dropReached (priceChangePercent thresholdPercentage : float) : bool :=
  priceChangePercent <=? - thresholdPercentage.

End JsNumber.

(* ------------------------------------------------------------------ *)
(** ** Timestamps as SQLite stores and compares them *)

Module SqlTime.

Local Open Scope Z_scope.

(** The text of a DATETIME cell. Two layouts are ever written:
    - [CURRENT_TIMESTAMP] and [datetime(...)] give
      ["YYYY-MM-DD HH:MM:SS"] (UTC, whole seconds);
    - [Date.prototype.toISOString] gives ["YYYY-MM-DDTHH:MM:SS.sssZ"].
    The argument is the instant the text denotes, in Unix seconds for the
    first layout and Unix milliseconds for the second. Years are taken to
    have four digits, so that every field has a fixed width. *)
Inductive TimeText : Type :=
| SqlText (seconds : Z)
| IsoText (millis : Z).

(** The calendar day of the ten leading characters. *)
Definition day_of (t : TimeText) : Z :=
  match t with
  | SqlText s => s / 86400
  | IsoText ms => ms / 86400000
  end.

(** Byte-wise comparison of two such texts (the BINARY collation). Texts
    of one layout have equal width and zero-padded fields, so they compare
    as their instants do. Texts of different layouts first differ, at the
    latest, at the eleventh character: a space (0x20) in the SQL layout
    and ['T'] (0x54) in the ISO layout. *)
Definition text_compare (a b : TimeText) : comparison :=
  match a, b with
  | SqlText x, SqlText y => x ?= y
  | IsoText x, IsoText y => x ?= y
  | SqlText _, IsoText _ =>
      match day_of a ?= day_of b with Gt => Gt | _ => Lt end
  | IsoText _, SqlText _ =>
      match day_of a ?= day_of b with Lt => Lt | _ => Gt end
  end.

(** [a >= b] in a WHERE clause. *)
Definition text_geb (a b : TimeText) : bool :=
  match text_compare a b with Lt => false | _ => true end.

(** [a <= b]. *)
Definition text_leb (a b : TimeText) : bool :=
  match text_compare a b with Gt => false | _ => true end.

(** The Unix second of [CURRENT_TIMESTAMP], the clock being at [now]
    milliseconds; the cell then holds [SqlText] of it. *)
Definition CURRENT_TIMESTAMP (now : Z) : Z := now / 1000.

(** [datetime('now', '-N minutes')]. *)
Definition datetime_now_minus (now minutes : Z) : TimeText :=
  SqlText (CURRENT_TIMESTAMP now - 60 * minutes).

(** [date.toISOString()], [date] being [ms] milliseconds after the epoch. *)
Definition toISOString (ms : Z) : TimeText := IsoText ms.

(** ORDER BY key DESC: insertion into a list already in descending
    order. *)
Fixpoint insert_desc (A : Type) (key : A -> TimeText) (x : A) (l : list A) : list A :=
  match l with
  | [] => [x]
  | y :: l' =>
      if text_leb (key y) (key x) then x :: y :: l'
      else y :: insert_desc key x l'
  end.

(** Rows with equal keys come out latest-inserted first, which is the
    order of a backward scan of an index on the key (the index ends with
    the rowid). SQL leaves the order of ties open; no property below
    depends on it. *)
Definition order_by_desc (A : Type) (key : A -> TimeText) (rows : list A) : list A :=
  fold_right (insert_desc key) [] (rev rows).

End SqlTime.

(* ------------------------------------------------------------------ *)
(** ** The tables ([initializeTables]) and the typed rows *)

Import SqlTime.

(** [users]. *)
Record User : Type := {
  user_id : Z;                  (* id INTEGER PRIMARY KEY AUTOINCREMENT *)
  telegramId : Z;               (* telegram_id INTEGER UNIQUE NOT NULL *)
  username : option string;
  user_isActive : bool
}.

(** [alert_configs]; [userId] REFERENCES [users (id)]. The two DATETIME
    columns of the row are never read by the evaluator. *)
Record AlertConfig : Type := {
  alert_id : Z;
  userId : Z;
  cryptoId : string;
  thresholdPercentage : float;
  timeframeMinutes : Z;
  isActive : bool
}.

(** [price_history]. The only INSERT into the table leaves [timestamp] to
    its DEFAULT, so a cell always holds the SQL layout: the field is the
    Unix second of that text. *)
Record PriceHistory : Type := {
  ph_id : Z;
  ph_cryptoId : string;
  price : float;
  timestamp : Z
}.

(** [alert_logs]. The only INSERT into the table binds [triggered_at] to
    [toISOString()], so a cell always holds the ISO layout: the field is
    the Unix millisecond of that text. *)
Record AlertLog : Type := {
  log_id : Z;
  alertConfigId : Z;
  triggeredAt : Z;
  priceChange : float;
  oldPrice : float;
  newPrice : float;
  sent : bool
}.

(** [CoinGeckoCoin], as far as [getCoinInfo]'s caller reads it. *)
Record CoinGeckoCoin : Type := {
  coin_id : string;
  coin_symbol : string;
  coin_name : string
}.

(** The store. The counters are the [sqlite_sequence] entries of the
    tables that are inserted into below. *)
Record DB : Type := {
  users : list User;
  alert_configs : list AlertConfig;
  price_history : list PriceHistory;
  alert_logs : list AlertLog;
  seq_alert_configs : Z;
  seq_price_history : Z;
  seq_alert_logs : Z
}.

(** The arguments [triggerAlert] hands to [formatAlertMessage]; the
    rendering itself (currency and date formatting) is left abstract. *)
Record AlertMessage : Type := {
  msg_coinName : string;
  msg_priceChange : float;
  msg_oldPrice : float;
  msg_newPrice : float;
  msg_timeframeMinutes : Z
}.

(* ------------------------------------------------------------------ *)
(** ** A JavaScript [Map] with string keys, in insertion order *)

Module JsMap.

Section WithValue.
Variable V : Type.

Definition t : Type := list (string * V).

Fixpoint get (m : t) (k : string) : option V :=
  match m with
  | [] => None
  | (k', v) :: m' => if String.eqb k' k then Some v else get m' k
  end.

Definition has (m : t) (k : string) : bool :=
  match get m k with Some _ => true | None => false end.

(** [set] keeps the position of a key already present. *)
Fixpoint set (m : t) (k : string) (v : V) : t :=
  match m with
  | [] => [(k, v)]
  | (k', v') :: m' =>
      if String.eqb k' k then (k', v) :: m' else (k', v') :: set m' k v
  end.

Definition keys (m : t) : list string := map fst m.

Definition entries (m : t) : list (string * V) := m.

End WithValue.

End JsMap.

(* ------------------------------------------------------------------ *)
(** ** The world outside the evaluator *)

(** The calls that leave the process, with their arguments. *)
Inductive Op : Type :=
| OpGetAllActiveAlerts
| OpGetCurrentPrices (coinIds : list string)
| OpSavePriceHistory (cryptoId : string) (price : float)
| OpGetPriceHistory (cryptoId : string) (timeframeMinutes : Z)
| OpGetRecentAlertLogs (alertConfigId : Z) (minutes : Z)
| OpCreateAlertLog (alertConfigId : Z) (triggeredAt : Z)
    (priceChange oldPrice newPrice : float) (sent : bool)
| OpGetCoinInfo (coinId : string)
| OpGetUserByTelegramId (telegramId : Z)
| OpSendMessage (chatId : Z) (message : AlertMessage)
| OpCreateAlert (userId : Z) (cryptoId : string) (thresholdPercentage : float)
    (timeframeMinutes : Z) (isActive : bool)
| OpReply (chatId : Z) (created : option Z).

Inductive Level : Type := Debug | Info | Warn | Error.

(** The logger lines of [alert.ts], one constructor per call site, and the
    one of [createAlert] in [telegram.ts]. *)
Inductive LogLine : Type :=
| StartingCheck
| NoActiveAlerts
| CheckingPrices (n : nat)
| NoCurrentPrice (cryptoId : string)
| ErrorCheckingAlert (alertId : Z)
| CheckCompleted
| ErrorDuringCheck
| InCooldown (alertId : Z)
| NoPriceHistory (cryptoId : string)
| ShouldTrigger (alertId : Z) (priceChangePercent : float)
| ErrorShouldTrigger
| Triggering (alertId : Z) (userId : Z)
| UserNotFound (alertId : Z)
| AlertSent (telegramId : Z)
| FailedToSend
| ErrorTriggering
| ErrorCreatingAlert.

Inductive Event : Type :=
| EvCall (op : Op) (ok : bool)
| EvLog (lvl : Level) (line : LogLine).

(** What the evaluator cannot control. Calls are numbered in program order;
    the clock and the failures are functions of that number. *)
Record Env : Type := {
  clock : nat -> Z;                         (* Unix milliseconds at a call *)
  faults : nat -> Op -> bool;               (* the call throws *)
  simple_price : nat -> list string -> list (string * float);
                                            (* body of /simple/price *)
  coins_list : string -> option CoinGeckoCoin;
  ALERT_COOLDOWN_MINUTES : Z                (* config.ALERT_COOLDOWN_MINUTES *)
}.

Record World : Type := {
  db : DB;
  calls : nat;
  trace : list Event
}.

(** What a thrown value carries is never inspected by the evaluator. *)
Inductive Exn : Type :=
| CallFailed (op : Op)
| TypeError.

Inductive Result (A : Type) : Type :=
| Ok (a : A)
| Throw (e : Exn).

Arguments Ok {A} a.
Arguments Throw {A} e.

(** An async computation: it may change the world and then either returns
    or throws; the world survives a throw. *)
Definition M (A : Type) : Type := World -> Result A * World.

Definition ret (A : Type) (a : A) : M A := fun w => (Ok a, w).

Definition bind (A B : Type) (m : M A) (f : A -> M B) : M B :=
  fun w =>
    match m w with
    | (Ok a, w') => f a w'
    | (Throw e, w') => (Throw e, w')
    end.

Definition throw (A : Type) (e : Exn) : M A := fun w => (Throw e, w).

Arguments throw {A} e.

(** [try { body } catch (error) { handler }]. *)
Definition try_catch (A : Type) (body : M A) (handler : Exn -> M A) : M A :=
  fun w =>
    match body w with
    | (Ok a, w') => (Ok a, w')
    | (Throw e, w') => handler e w'
    end.

Declare Scope js_scope.
Delimit Scope js_scope with js.
Notation "x <- m ;; k" := (bind m (fun x => k))
  (at level 61, m at next level, right associativity) : js_scope.
Notation "m ;;; k" := (bind m (fun _ => k))
  (at level 61, right associativity) : js_scope.
Open Scope js_scope.

(** [for (const x of xs) { body }]. *)
Fixpoint for_of (A : Type) (xs : list A) (body : A -> M unit) : M unit :=
  match xs with
  | [] => ret tt
  | x :: xs' => body x ;;; for_of xs' body
  end.

Definition record (ev : Event) (w : World) : World :=
  {| db := db w; calls := calls w; trace := trace w ++ [ev] |}.

Definition logger (lvl : Level) (line : LogLine) : M unit :=
  fun w => (Ok tt, record (EvLog lvl line) w).

(** [new Date()]: the clock as the next call will see it. *)
Definition new_Date (env : Env) : M Z :=
  fun w => (Ok (clock env (calls w)), w).

(** One call leaving the process. A call that throws leaves the store as it
    was (statements are atomic); one that returns has run [action] on the
    store at the clock's time. *)
Definition call (env : Env) (A : Type) (op : Op) (action : nat -> DB -> A * DB) : M A :=
  fun w =>
    let k := calls w in
    if faults env k op then
      (Throw (CallFailed op),
       {| db := db w; calls := S k; trace := trace w ++ [EvCall op false] |})
    else
      let (a, d) := action k (db w) in
      (Ok a, {| db := d; calls := S k; trace := trace w ++ [EvCall op true] |}).

(* ------------------------------------------------------------------ *)
(** ** [DatabaseService]: the statements the evaluator runs *)

Module DatabaseService.

(** The SELECT of [getAllActiveAlerts]. *)
Definition select_active_alerts (d : DB) : list AlertConfig :=
  filter isActive (alert_configs d).

(** The INSERT of [savePriceHistory]: [timestamp] takes its DEFAULT. *)
Definition insert_price_history (now : Z) (cryptoId : string) (price : float) (d : DB) : DB :=
  let id := (seq_price_history d + 1)%Z in
  {| users := users d;
     alert_configs := alert_configs d;
     price_history :=
       price_history d ++
       [{| ph_id := id; ph_cryptoId := cryptoId; price := price;
           timestamp := CURRENT_TIMESTAMP now |}];
     alert_logs := alert_logs d;
     seq_alert_configs := seq_alert_configs d;
     seq_price_history := id;
     seq_alert_logs := seq_alert_logs d |}.

(** The WHERE clause of [getPriceHistory]. *)
Definition in_timeframe (now : Z) (cryptoId : string) (timeframeMinutes : Z)
    (r : PriceHistory) : bool :=
  String.eqb (ph_cryptoId r) cryptoId
  && text_geb (SqlText (timestamp r)) (datetime_now_minus now timeframeMinutes).

(** The SELECT of [getPriceHistory], newest first. *)
Definition select_price_history (now : Z) (cryptoId : string) (timeframeMinutes : Z)
    (d : DB) : list PriceHistory :=
  order_by_desc (fun r => SqlText (timestamp r))
    (filter (in_timeframe now cryptoId timeframeMinutes) (price_history d)).

(** The INSERT of [createAlertLog]: [triggered_at] is bound to
    [log.triggeredAt.toISOString()]. *)
Definition insert_alert_log (alertConfigId triggeredAt : Z)
    (priceChange oldPrice newPrice : float) (sent : bool) (d : DB) : AlertLog * DB :=
  let id := (seq_alert_logs d + 1)%Z in
  let row :=
    {| log_id := id; alertConfigId := alertConfigId;
       triggeredAt := triggeredAt;
       priceChange := priceChange; oldPrice := oldPrice; newPrice := newPrice;
       sent := sent |} in
  (row,
   {| users := users d;
      alert_configs := alert_configs d;
      price_history := price_history d;
      alert_logs := alert_logs d ++ [row];
      seq_alert_configs := seq_alert_configs d;
      seq_price_history := seq_price_history d;
      seq_alert_logs := id |}).

(** The WHERE clause of [getRecentAlertLogs]. *)
Definition is_recent (now : Z) (configId minutes : Z) (r : AlertLog) : bool :=
  Z.eqb (alertConfigId r) configId
  && text_geb (toISOString (triggeredAt r)) (datetime_now_minus now minutes).

(** The SELECT of [getRecentAlertLogs], newest first. *)
Definition select_recent_alert_logs (now : Z) (alertConfigId minutes : Z)
    (d : DB) : list AlertLog :=
  order_by_desc (fun r => toISOString (triggeredAt r))
    (filter (is_recent now alertConfigId minutes) (alert_logs d)).

(** The INSERT of [createAlert] into [alert_configs], RETURNING the row. *)
Definition insert_alert_config (ownerId : Z) (crypto : string) (threshold : float)
    (timeframe : Z) (active : bool) (d : DB) : AlertConfig * DB :=
  let id := (seq_alert_configs d + 1)%Z in
  let row :=
    {| alert_id := id; userId := ownerId; cryptoId := crypto;
       thresholdPercentage := threshold; timeframeMinutes := timeframe;
       isActive := active |} in
  (row,
   {| users := users d;
      alert_configs := alert_configs d ++ [row];
      price_history := price_history d;
      alert_logs := alert_logs d;
      seq_alert_configs := id;
      seq_price_history := seq_price_history d;
      seq_alert_logs := seq_alert_logs d |}).

(** The SELECT of [getUserByTelegramId]. *)
Definition select_user_by_telegram_id (tgId : Z) (d : DB) : option User :=
  find (fun u => Z.eqb (telegramId u) tgId) (users d).

Section Calls.
Variable env : Env.

Definition getAllActiveAlerts : M (list AlertConfig) :=
  call env OpGetAllActiveAlerts (fun _ d => (select_active_alerts d, d)).

Definition savePriceHistory (cryptoId : string) (price : float) : M unit :=
  call env (OpSavePriceHistory cryptoId price)
    (fun k d => (tt, insert_price_history (clock env k) cryptoId price d)).

Definition getPriceHistory (cryptoId : string) (timeframeMinutes : Z)
    : M (list PriceHistory) :=
  call env (OpGetPriceHistory cryptoId timeframeMinutes)
    (fun k d => (select_price_history (clock env k) cryptoId timeframeMinutes d, d)).

Definition createAlertLog (alertConfigId triggeredAt : Z)
    (priceChange oldPrice newPrice : float) (sent : bool) : M AlertLog :=
  call env (OpCreateAlertLog alertConfigId triggeredAt priceChange oldPrice newPrice sent)
    (fun _ d => insert_alert_log alertConfigId triggeredAt priceChange oldPrice newPrice sent d).

Definition getRecentAlertLogs (alertConfigId minutes : Z) : M (list AlertLog) :=
  call env (OpGetRecentAlertLogs alertConfigId minutes)
    (fun k d => (select_recent_alert_logs (clock env k) alertConfigId minutes d, d)).

Definition getUserByTelegramId (telegramId : Z) : M (option User) :=
  call env (OpGetUserByTelegramId telegramId)
    (fun _ d => (select_user_by_telegram_id telegramId d, d)).

Definition createAlert (ownerId : Z) (crypto : string) (threshold : float)
    (timeframe : Z) (active : bool) : M AlertConfig :=
  call env (OpCreateAlert ownerId crypto threshold timeframe active)
    (fun _ d => insert_alert_config ownerId crypto threshold timeframe active d).

End Calls.

End DatabaseService.

(* ------------------------------------------------------------------ *)
(** ** [CryptoService] and the bot, as the evaluator calls them *)

Module CryptoService.

(** [priceMap.set(coinId, data.usd)] over the entries of the response. *)
Definition price_map (body : list (string * float)) : JsMap.t float :=
  fold_left (fun m kv => JsMap.set m (fst kv) (snd kv)) body [].

Section Calls.
Variable env : Env.

Definition getCurrentPrices (coinIds : list string) : M (JsMap.t float) :=
  match coinIds with
  | [] => ret []
  | _ =>
      call env (OpGetCurrentPrices coinIds)
        (fun k d => (price_map (simple_price env k coinIds), d))
  end.

Definition getCoinInfo (coinId : string) : M (option CoinGeckoCoin) :=
  call env (OpGetCoinInfo coinId) (fun _ d => (coins_list env coinId, d)).

End Calls.

End CryptoService.

Module Bot.

Definition sendMessage (env : Env) (chatId : Z) (message : AlertMessage) : M unit :=
  call env (OpSendMessage chatId message) (fun _ d => (tt, d)).

(** [ctx.reply] to the chat of the sender: the confirmation carrying the
    new alert's id, or the apology. *)
Definition reply (env : Env) (chatId : Z) (created : option Z) : M unit :=
  call env (OpReply chatId created) (fun _ d => (tt, d)).

End Bot.

(* ------------------------------------------------------------------ *)
(** ** [TelegramBotService.createAlert]: how an alert gets its owner *)

Module TelegramBotService.

(** The last step of the creation dialogue; [from] is [ctx.from!.id], the
    Telegram id of the sender. *)
Definition createAlert (env : Env) (from : Z) (cryptoId : string) (threshold : float)
    (timeframe : Z) : M unit :=
  try_catch
    (user <- DatabaseService.getUserByTelegramId env from ;;
     match user with
     | None => ret tt
     | Some user =>
         alert <- DatabaseService.createAlert env (user_id user) cryptoId threshold
                    timeframe true ;;
         _ <- CryptoService.getCoinInfo env cryptoId ;;
         Bot.reply env from (Some (alert_id alert))
     end)
    (fun _ => logger Error ErrorCreatingAlert ;;; Bot.reply env from None).

End TelegramBotService.

(* ------------------------------------------------------------------ *)
(** ** [AlertService] *)

Module AlertService.

Import DatabaseService CryptoService.

(** [priceHistory[priceHistory.length - 1]!.price]: reading [price] off
    [undefined] would be a TypeError. *)
Definition last_price (priceHistory : list PriceHistory) : M float :=
  match nth_error priceHistory (List.length priceHistory - 1) with
  | Some r => ret (price r)
  | None => throw TypeError
  end.

(** The grouping loop of [checkPriceChanges]: [has], [set] of a fresh
    array, then [push] onto the array the map holds. *)
Definition group_step (alertsByCrypto : JsMap.t (list AlertConfig)) (alert : AlertConfig)
    : JsMap.t (list AlertConfig) :=
  let m :=
    if JsMap.has alertsByCrypto (cryptoId alert) then alertsByCrypto
    else JsMap.set alertsByCrypto (cryptoId alert) [] in
  match JsMap.get m (cryptoId alert) with
  | Some alerts => JsMap.set m (cryptoId alert) (alerts ++ [alert])
  | None => m
  end.

Definition group_by_crypto (activeAlerts : list AlertConfig) : JsMap.t (list AlertConfig) :=
  fold_left group_step activeAlerts [].

(** [coinInfo ? `${name} (${symbol.toUpperCase()})` : cryptoId]; the
    letter case of the symbol is immaterial here. *)
Definition coin_display (coinInfo : option CoinGeckoCoin) (cryptoId : string) : string :=
  match coinInfo with
  | Some c => (coin_name c ++ " (" ++ coin_symbol c ++ ")")%string
  | None => cryptoId
  end.

(** [formatAlertMessage], kept as the tuple of its arguments. *)
Definition formatAlertMessage (coinName : string) (priceChange oldPrice newPrice : float)
    (timeframeMinutes : Z) : AlertMessage :=
  {| msg_coinName := coinName; msg_priceChange := priceChange;
     msg_oldPrice := oldPrice; msg_newPrice := newPrice;
     msg_timeframeMinutes := timeframeMinutes |}.

Section Service.
Variable env : Env.

(** [AlertService.shouldTriggerAlert]: cooldown first, then the baseline
    from the history of the timeframe, then the comparison. Whatever is
    thrown inside is caught and answered with [false]. *)
Definition shouldTriggerAlert (alertConfig : AlertConfig) (currentPrice : float) : M bool :=
  try_catch
    (recentLogs <- getRecentAlertLogs env (alert_id alertConfig)
                     (ALERT_COOLDOWN_MINUTES env) ;;
     if (0 <? List.length recentLogs)%nat then
       logger Debug (InCooldown (alert_id alertConfig)) ;;;
       ret false
     else
       priceHistory <- getPriceHistory env (cryptoId alertConfig)
                         (timeframeMinutes alertConfig) ;;
       if (List.length priceHistory =? 0)%nat then
         logger Debug (NoPriceHistory (cryptoId alertConfig)) ;;;
         ret false
       else
         oldestPrice <- last_price priceHistory ;;
         let priceChangePercent := JsNumber.pctChange currentPrice oldestPrice in
         let shouldTrigger :=
           JsNumber.dropReached priceChangePercent (thresholdPercentage alertConfig) in
         (if shouldTrigger
          then logger Info (ShouldTrigger (alert_id alertConfig) priceChangePercent)
          else ret tt) ;;;
         ret shouldTrigger)
    (fun _ => logger Error ErrorShouldTrigger ;;; ret false).

(** [AlertService.triggerAlert]: the log entry, the coin's name, the user,
    the message; the send has a try/catch of its own. *)
Definition triggerAlert (alertConfig : AlertConfig)
    (priceChange oldPrice newPrice : float) : M unit :=
  try_catch
    (logger Info (Triggering (alert_id alertConfig) (userId alertConfig)) ;;;
     now <- new_Date env ;;
     _ <- createAlertLog env (alert_id alertConfig) now priceChange oldPrice newPrice false ;;
     coinInfo <- getCoinInfo env (cryptoId alertConfig) ;;
     let coinName := coin_display coinInfo (cryptoId alertConfig) in
     user <- getUserByTelegramId env (userId alertConfig) ;;
     match user with
     | None => logger Error (UserNotFound (alert_id alertConfig))
     | Some user =>
         let message :=
           formatAlertMessage coinName priceChange oldPrice newPrice
             (timeframeMinutes alertConfig) in
         try_catch
           (Bot.sendMessage env (telegramId user) message ;;;
            alertLogs <- getRecentAlertLogs env (alert_id alertConfig) 5 ;;
            if (0 <? List.length alertLogs)%nat
            then logger Info (AlertSent (telegramId user))
            else ret tt)
           (fun _ => logger Error FailedToSend)
     end)
    (fun _ => logger Error ErrorTriggering).

(** The body of [for (const alert of alerts)], with its try/catch. *)
Definition check_alert (currentPrice : float) (alert : AlertConfig) : M unit :=
  try_catch
    (fire <- shouldTriggerAlert alert currentPrice ;;
     if fire then
       priceHistory <- getPriceHistory env (cryptoId alert) (timeframeMinutes alert) ;;
       if (0 <? List.length priceHistory)%nat then
         oldPrice <- last_price priceHistory ;;
         let priceChange := JsNumber.pctChange currentPrice oldPrice in
         triggerAlert alert priceChange oldPrice currentPrice
       else ret tt
     else ret tt)
    (fun _ => logger Error (ErrorCheckingAlert (alert_id alert))).

(** The body of [for (const [cryptoId, alerts] of alertsByCrypto.entries())]. *)
Definition check_crypto (currentPrices : JsMap.t float)
    (entry : string * list AlertConfig) : M unit :=
  let (cryptoId, alerts) := entry in
  match JsMap.get currentPrices cryptoId with
  | Some currentPrice =>
      if JsNumber.falsy currentPrice
      then logger Warn (NoCurrentPrice cryptoId)
      else for_of alerts (check_alert currentPrice)
  | None => logger Warn (NoCurrentPrice cryptoId)
  end.

(** "Save price history for all monitored cryptos". *)
Definition save_prices (currentPrices : JsMap.t float) : M unit :=
  for_of (JsMap.entries currentPrices)
    (fun entry => savePriceHistory env (fst entry) (snd entry)).

(** "Check each alert". *)
Definition check_alerts (alertsByCrypto : JsMap.t (list AlertConfig))
    (currentPrices : JsMap.t float) : M unit :=
  for_of (JsMap.entries alertsByCrypto) (check_crypto currentPrices).

(** The head of [checkPriceChanges], up to and including the price fetch.
    [None] is the early [return] on an empty alert list. *)
Definition load_and_fetch : M (option (JsMap.t (list AlertConfig) * JsMap.t float)) :=
  activeAlerts <- getAllActiveAlerts env ;;
  if (List.length activeAlerts =? 0)%nat then
    logger Debug NoActiveAlerts ;;;
    ret None
  else
    let alertsByCrypto := group_by_crypto activeAlerts in
    let cryptoIds := JsMap.keys alertsByCrypto in
    logger Debug (CheckingPrices (List.length cryptoIds)) ;;;
    currentPrices <- getCurrentPrices env cryptoIds ;;
    ret (Some (alertsByCrypto, currentPrices)).

(** [AlertService.checkPriceChanges], one tick. *)
Definition checkPriceChanges : M unit :=
  logger Info StartingCheck ;;;
  try_catch
    (loaded <- load_and_fetch ;;
     match loaded with
     | None => ret tt
     | Some (alertsByCrypto, currentPrices) =>
         save_prices currentPrices ;;;
         check_alerts alertsByCrypto currentPrices ;;;
         logger Info CheckCompleted
     end)
    (fun _ => logger Error ErrorDuringCheck).

End Service.

End AlertService.

(* ------------------------------------------------------------------ *)
(** ** Concrete runs *)

Module Scenarios.

Local Open Scope string_scope.
Local Open Scope Z_scope.

(** A clock that advances by one millisecond per call, from
    2001-09-09T01:46:40Z. *)
Definition ticking (k : nat) : Z := 1000000000000 + Z.of_nat k.

(** Nothing fails, CoinGecko answers [body], cooldown of 30 minutes. *)
Definition calm (body : list (string * float)) : Env :=
  {| clock := ticking;
     faults := fun _ _ => false;
     simple_price := fun _ _ => body;
     coins_list := fun _ => None;
     ALERT_COOLDOWN_MINUTES := 30 |}.

Definition alice : User :=
  {| user_id := 1; telegramId := 123456; username := Some "alice";
     user_isActive := true |}.

(** Alice's alert: bitcoin, 5% within 60 minutes. [userId] is her [id]. *)
Definition btc5 : AlertConfig :=
  {| alert_id := 1; userId := 1; cryptoId := "bitcoin";
     thresholdPercentage := 5; timeframeMinutes := 60; isActive := true |}.

(** Bitcoin at 100, ten minutes before the clock starts. *)
Definition btc100 : PriceHistory :=
  {| ph_id := 1; ph_cryptoId := "bitcoin"; price := 100;
     timestamp := 999999400 |}.

Definition store (us : list User) (alerts : list AlertConfig)
    (samples : list PriceHistory) (logs : list AlertLog) : DB :=
  {| users := us; alert_configs := alerts; price_history := samples;
     alert_logs := logs;
     seq_alert_configs := Z.of_nat (List.length alerts);
     seq_price_history := Z.of_nat (List.length samples);
     seq_alert_logs := Z.of_nat (List.length logs) |}.

Definition fresh (d : DB) : World := {| db := d; calls := 0; trace := [] |}.

(** Scenario A of the specification: 100 an hour ago at most, 94 now. *)
Definition worldA : World := fresh (store [alice] [btc5] [btc100] []).

(** Scenario C of the specification: the alert fired ten minutes before
    the clock starts. *)
Definition firedTenMinutesAgo : AlertLog :=
  {| log_id := 1; alertConfigId := 1; triggeredAt := 999999400000;
     priceChange := -6; oldPrice := 100; newPrice := 94; sent := false |}.

Definition worldC : World :=
  fresh (store [alice] [btc5] [btc100] [firedTenMinutesAgo]).

(** Scenario D of the specification: the only sample is two hours old,
    outside the alert's window of 60 minutes. *)
Definition btc100_stale : PriceHistory :=
  {| ph_id := 1; ph_cryptoId := "bitcoin"; price := 100;
     timestamp := 999992800 |}.

Definition worldD : World := fresh (store [alice] [btc5] [btc100_stale] []).

(** The same alert with a threshold of 29%. *)
Definition btc29 : AlertConfig :=
  {| alert_id := 1; userId := 1; cryptoId := "bitcoin";
     thresholdPercentage := 29; timeframeMinutes := 60; isActive := true |}.

(** Alice has registered with the bot and nothing else has happened. *)
Definition registered : World := fresh (store [alice] [] [btc100] []).

(** A second user whose Telegram id happens to be the number of Alice's
    row in [users]. *)
Definition bob : User :=
  {| user_id := 2; telegramId := 1; username := Some "bob";
     user_isActive := true |}.

Definition worldB : World := fresh (store [alice; bob] [btc5] [btc100] []).

(** Two assets are watched and both get a price, but the INSERT of a
    bitcoin sample fails. *)
Definition eth3 : AlertConfig :=
  {| alert_id := 2; userId := 1; cryptoId := "ethereum";
     thresholdPercentage := 3; timeframeMinutes := 60; isActive := true |}.

Definition bothPriced : list (string * float) :=
  [("bitcoin", 94%float); ("ethereum", 1900%float)].

Definition bitcoinSaveFails : Env :=
  {| clock := ticking;
     faults := fun _ op =>
       match op with
       | OpSavePriceHistory c _ => String.eqb c "bitcoin"
       | _ => false
       end;
     simple_price := fun _ _ => bothPriced;
     coins_list := fun _ => None;
     ALERT_COOLDOWN_MINUTES := 30 |}.

Definition worldE : World := fresh (store [alice] [btc5; eth3] [btc100] []).

(** Both assets are priced and recorded, and every call made for the
    bitcoin alert (id 1) throws. *)
Definition bitcoinAlertFails : Env :=
  {| clock := ticking;
     faults := fun _ op =>
       match op with
       | OpGetRecentAlertLogs id _ => Z.eqb id 1
       | OpCreateAlertLog id _ _ _ _ _ => Z.eqb id 1
       | _ => false
       end;
     simple_price := fun _ _ => bothPriced;
     coins_list := fun _ => None;
     ALERT_COOLDOWN_MINUTES := 30 |}.

(** CoinGecko answers with a price of 0 for bitcoin. *)
Definition bitcoinAtZero : Env := calm [("bitcoin", 0%float)].

(** A clock that advances by one millisecond per call and stops after a
    thousand calls. *)
Definition settling (k : nat) : Z := 1000000000000 + Z.of_nat (Nat.min k 1000).

(** Scenario D with a price for bitcoin: the stale sample at 100, then 94
    fetched now. *)
Definition bitcoinAt94 : Env :=
  {| clock := settling;
     faults := fun _ _ => false;
     simple_price := fun _ _ => [("bitcoin", 94%float)];
     coins_list := fun _ => None;
     ALERT_COOLDOWN_MINUTES := 30 |}.

(** Two alerts with the shortest window, five minutes, both owned by row 1
    of [users]; bitcoin was at 100 two minutes before the clock starts. *)
Definition btcFast : AlertConfig :=
  {| alert_id := 1; userId := 1; cryptoId := "bitcoin";
     thresholdPercentage := 5; timeframeMinutes := 5; isActive := true |}.

Definition ethFast : AlertConfig :=
  {| alert_id := 2; userId := 1; cryptoId := "ethereum";
     thresholdPercentage := 3; timeframeMinutes := 5; isActive := true |}.

Definition btc100_recent : PriceHistory :=
  {| ph_id := 1; ph_cryptoId := "bitcoin"; price := 100;
     timestamp := 999999880 |}.

(** The eleventh call of the tick, the Telegram send for the bitcoin
    alert, takes six minutes to return. *)
Definition slowDelivery : Env :=
  {| clock := fun k =>
       if (k <=? 10)%nat then 1000000000000 + Z.of_nat k
       else 1000000360000 + Z.of_nat k;
     faults := fun _ _ => false;
     simple_price := fun _ _ => bothPriced;
     coins_list := fun _ => None;
     ALERT_COOLDOWN_MINUTES := 30 |}.

Definition worldS : World :=
  fresh (store [alice; bob] [btcFast; ethFast] [btc100_recent] []).

(** The alert fired 31 minutes before the clock starts, on the same UTC
    day. *)
Definition fired31MinutesAgo : AlertLog :=
  {| log_id := 1; alertConfigId := 1; triggeredAt := 999998140000;
     priceChange := -6; oldPrice := 100; newPrice := 94; sent := false |}.

Definition worldC31 : World :=
  fresh (store [alice] [btc5] [btc100] [fired31MinutesAgo]).

End Scenarios.

(* ------------------------------------------------------------------ *)
(** ** The rest of the process

    The evaluator needs the store, the call counter and the trace of
    [alert.ts]. The other methods of the four services also keep fields of
    their own (the coin list of [CryptoService] and its expiry, the command
    counts of [TelegramBotService], the session of the conversation), run
    statements and requests of their own and write log lines of their own.
    They are embedded over a state that extends the evaluator's world. *)

(** A JavaScript [Map] with number keys; only [get] and [set] are used. *)
Module NumberMap.

Section WithValue.
Variable V : Type.

Definition t : Type := list (Z * V).

Fixpoint get (m : t) (k : Z) : option V :=
  match m with
  | [] => None
  | (k', v) :: m' => if Z.eqb k' k then Some v else get m' k
  end.

Fixpoint set (m : t) (k : Z) (v : V) : t :=
  match m with
  | [] => [(k, v)]
  | (k', v') :: m' =>
      if Z.eqb k' k then (k', v) :: m' else (k', v') :: set m' k v
  end.

End WithValue.

End NumberMap.

(** The values of [userCommandCounts]. *)
Record CommandCount : Type := {
  count : Z;
  resetTime : Z                 (* Unix milliseconds *)
}.

(** [SessionData]. *)
Inductive AlertConfigStep : Type := StepCrypto | StepThreshold | StepTimeframe.

Record AwaitingAlertConfig : Type := {
  cfg_step : AlertConfigStep;
  cfg_crypto : option string;
  cfg_threshold : option float
}.

Inductive UpdateConfigStep : Type := UpdateThreshold | UpdateTimeframe | UpdateStatus.

Record AwaitingUpdateConfig : Type := {
  upd_alertId : Z;
  upd_step : UpdateConfigStep
}.

Record SessionData : Type := {
  awaitingAlertConfig : option AwaitingAlertConfig;
  awaitingUpdateConfig : option AwaitingUpdateConfig
}.

(** [Partial<AlertConfig>], once [updateAlert] has dropped the keys [id],
    [createdAt] and [updatedAt]. *)
Record AlertUpdates : Type := {
  new_userId : option Z;
  new_cryptoId : option string;
  new_thresholdPercentage : option float;
  new_timeframeMinutes : option Z;
  new_isActive : option bool
}.

(** The texts the handlers below send, one constructor per call site, with
    the values they interpolate. *)
Inductive Reply : Type :=
| TooQuickly
| MiddlewareApology
| CreatePrompt
| OperationCancelled
| NotUnderstood
| ComingSoon
| CoinNotFound (text : string)
| CoinSelected (coin : CoinGeckoCoin)
| InvalidThreshold
| ThresholdSet (threshold : float)
| InvalidTimeframe
| FlowApology
| AlertDeleted
| ErrorDeleting
| AlertToggled (wasActive : bool)
| ErrorUpdating.

(** The calls that leave the process and that the evaluator does not
    make. *)
Inductive BotOp : Type :=
| OpCreateUser (telegramId : Z) (username : option string)
| OpUpdateAlert (id : Z) (updates : AlertUpdates)
| OpDeleteAlert (id : Z)
| OpCoinsList
| OpReplyText (chatId : Z) (text : Reply)
| OpEditMessageText (text : Reply).

(** The logger lines of these methods, one constructor per call site. *)
Inductive BotLine : Type :=
| NewUserRegistered (telegramId : Z)
| MiddlewareError
| FetchingSupportedCoins
| FetchedSupportedCoins (n : nat)
| FailedToFetchSupportedCoins
| AlertNotFoundOrNotActive (alertId : Z)
| ErrorCheckingSpecificAlert (alertId : Z)
| ErrorInAlertConfigFlow
| ErrorDeletingAlert
| ErrorTogglingAlert.

Inductive BotEvent : Type :=
| BotCall (op : BotOp) (ok : bool)
| BotLog (lvl : Level) (line : BotLine).

(** What these methods cannot control, beyond the evaluator's [Env]. The
    three library functions are those of ECMAScript; their tables are not
    reproduced here. [parseInt] gives [None] for [NaN] and the integer it
    read otherwise. *)
Record Host : Type := {
  evaluator : Env;
  bot_faults : nat -> BotOp -> bool;            (* the call throws *)
  coins_response : nat -> list CoinGeckoCoin;   (* body of /coins/list *)
  MAX_COMMANDS_PER_MINUTE : Z;                  (* config.MAX_COMMANDS_PER_MINUTE *)
  foreign_keys : bool;                          (* PRAGMA foreign_keys of the connection *)
  toLowerCase : string -> string;
  parseFloat : string -> float;
  parseInt : string -> option Z
}.

(** The state of the process. [journal] keeps the events of these methods,
    each with the length of the evaluator's trace when it happened, so that
    the order of all events is kept. *)
Record Process : Type := {
  world : World;
  seq_users : Z;                                (* sqlite_sequence of users *)
  coinsCache : list CoinGeckoCoin;
  cacheExpiry : Z;                              (* Unix milliseconds *)
  userCommandCounts : NumberMap.t CommandCount;
  session : SessionData;                        (* ctx.session *)
  journal : list (nat * BotEvent)
}.

Definition with_world (w : World) (s : Process) : Process :=
  {| world := w; seq_users := seq_users s; coinsCache := coinsCache s;
     cacheExpiry := cacheExpiry s; userCommandCounts := userCommandCounts s;
     session := session s; journal := journal s |}.

Definition with_db (d : DB) (s : Process) : Process :=
  with_world {| db := d; calls := calls (world s); trace := trace (world s) |} s.

Definition with_seq_users (n : Z) (s : Process) : Process :=
  {| world := world s; seq_users := n; coinsCache := coinsCache s;
     cacheExpiry := cacheExpiry s; userCommandCounts := userCommandCounts s;
     session := session s; journal := journal s |}.

Definition with_coins (coins : list CoinGeckoCoin) (expiry : Z) (s : Process) : Process :=
  {| world := world s; seq_users := seq_users s; coinsCache := coins;
     cacheExpiry := expiry; userCommandCounts := userCommandCounts s;
     session := session s; journal := journal s |}.

Definition with_counts (m : NumberMap.t CommandCount) (s : Process) : Process :=
  {| world := world s; seq_users := seq_users s; coinsCache := coinsCache s;
     cacheExpiry := cacheExpiry s; userCommandCounts := m;
     session := session s; journal := journal s |}.

Definition with_session (x : SessionData) (s : Process) : Process :=
  {| world := world s; seq_users := seq_users s; coinsCache := coinsCache s;
     cacheExpiry := cacheExpiry s; userCommandCounts := userCommandCounts s;
     session := x; journal := journal s |}.

Definition note (ev : BotEvent) (s : Process) : Process :=
  {| world := world s; seq_users := seq_users s; coinsCache := coinsCache s;
     cacheExpiry := cacheExpiry s; userCommandCounts := userCommandCounts s;
     session := session s;
     journal := journal s ++ [(List.length (trace (world s)), ev)] |}.

(** What is thrown: by the evaluator's side, by a call of this side, or a
    [new Error(message)]. *)
Inductive Raised : Type :=
| FromEvaluator (e : Exn)
| CallRaised (op : BotOp)
| NewError (message : string).

Inductive Outcome (A : Type) : Type :=
| Returned (a : A)
| Raise (r : Raised).

Arguments Returned {A} a.
Arguments Raise {A} r.

(** An async computation over the state of the process. *)
Definition P (A : Type) : Type := Process -> Outcome A * Process.

Module Proc.

Definition ret (A : Type) (a : A) : P A := fun s => (Returned a, s).

Definition bind (A B : Type) (m : P A) (f : A -> P B) : P B :=
  fun s =>
    match m s with
    | (Returned a, s') => f a s'
    | (Raise r, s') => (Raise r, s')
    end.

Definition raise (A : Type) (r : Raised) : P A := fun s => (Raise r, s).

Arguments raise {A} r.

Definition try_catch (A : Type) (body : P A) (handler : Raised -> P A) : P A :=
  fun s =>
    match body s with
    | (Returned a, s') => (Returned a, s')
    | (Raise r, s') => handler r s'
    end.

(** A computation of the evaluator's side, run on the world of the
    process. *)
Definition lift (A : Type) (m : M A) : P A :=
  fun s =>
    match m (world s) with
    | (Ok a, w) => (Returned a, with_world w s)
    | (Throw e, w) => (Raise (FromEvaluator e), with_world w s)
    end.

(** Reading and assigning the fields of the objects. *)
Definition read (A : Type) (field : Process -> A) : P A := fun s => (Returned (field s), s).

Definition assign (change : Process -> Process) : P unit := fun s => (Returned tt, change s).

Definition log (lvl : Level) (line : BotLine) : P unit :=
  fun s => (Returned tt, note (BotLog lvl line) s).

Section WithHost.
Variable host : Host.

(** [new Date()] and [Date.now()]: the clock as the next call will see
    it. *)
Definition new_Date : P Z :=
  fun s => (Returned (clock (evaluator host) (calls (world s))), s).

(** One call leaving the process. [action] gives [None] when the statement
    itself is refused (a constraint of the schema); a call that throws
    leaves the state as it was. *)
Definition invoke (A : Type) (op : BotOp) (action : nat -> Process -> option (A * Process))
    : P A :=
  fun s =>
    let k := calls (world s) in
    let counted (s' : Process) :=
      with_world {| db := db (world s'); calls := S k; trace := trace (world s') |} s' in
    if bot_faults host k op then (Raise (CallRaised op), note (BotCall op false) (counted s))
    else
      match action k s with
      | Some (a, s') => (Returned a, note (BotCall op true) (counted s'))
      | None => (Raise (CallRaised op), note (BotCall op false) (counted s))
      end.

End WithHost.

End Proc.

Declare Scope proc_scope.
Delimit Scope proc_scope with proc.
Notation "x <- m ;; k" := (Proc.bind m (fun x => k))
  (at level 61, m at next level, right associativity) : proc_scope.
Notation "m ;;; k" := (Proc.bind m (fun _ => k))
  (at level 61, right associativity) : proc_scope.

(* ------------------------------------------------------------------ *)
(** ** [DatabaseService]: the statements of the bot's handlers *)

Module Store.

Import Proc.
Local Open Scope proc_scope.

(** [str.replace(/[A-Z]/g, letter => `_${letter.toLowerCase()}`)]. *)
Definition is_upper (c : ascii) : bool :=
  (Ascii.leb "A" c && Ascii.leb c "Z")%char.

Definition lower (c : ascii) : ascii :=
  ascii_of_nat (nat_of_ascii c + 32).

Fixpoint camelToSnake (str : string) : string :=
  match str with
  | EmptyString => EmptyString
  | String c rest =>
      if is_upper c then String "_" (String (lower c) (camelToSnake rest))
      else String c (camelToSnake rest)
  end.

(** The INSERT of [createUser], RETURNING the row. [telegram_id] is
    UNIQUE: the statement is refused when the id is there already. *)
Definition insert_user (seq : Z) (tgId : Z) (name : option string) (d : DB)
    : option (User * DB) :=
  match DatabaseService.select_user_by_telegram_id tgId d with
  | Some _ => None
  | None =>
      let row :=
        {| user_id := (seq + 1)%Z; telegramId := tgId; username := name;
           user_isActive := true |} in
      Some (row,
            {| users := users d ++ [row];
               alert_configs := alert_configs d;
               price_history := price_history d;
               alert_logs := alert_logs d;
               seq_alert_configs := seq_alert_configs d;
               seq_price_history := seq_price_history d;
               seq_alert_logs := seq_alert_logs d |})
  end.

(** [fields.length === 0]. *)
Definition no_fields (u : AlertUpdates) : bool :=
  match new_userId u, new_cryptoId u, new_thresholdPercentage u,
        new_timeframeMinutes u, new_isActive u with
  | None, None, None, None, None => true
  | _, _, _, _, _ => false
  end.

Definition or_else (A : Type) (new : option A) (old : A) : A :=
  match new with Some x => x | None => old end.

(** The SET clause of [updateAlert] on one row. *)
Definition apply_updates (u : AlertUpdates) (a : AlertConfig) : AlertConfig :=
  {| alert_id := alert_id a;
     userId := or_else (new_userId u) (userId a);
     cryptoId := or_else (new_cryptoId u) (cryptoId a);
     thresholdPercentage := or_else (new_thresholdPercentage u) (thresholdPercentage a);
     timeframeMinutes := or_else (new_timeframeMinutes u) (timeframeMinutes a);
     isActive := or_else (new_isActive u) (isActive a) |}.

(** The UPDATE of [updateAlert]: [WHERE id = ?]. *)
Definition update_alert (id : Z) (u : AlertUpdates) (d : DB) : DB :=
  {| users := users d;
     alert_configs :=
       map (fun a => if Z.eqb (alert_id a) id then apply_updates u a else a)
         (alert_configs d);
     price_history := price_history d;
     alert_logs := alert_logs d;
     seq_alert_configs := seq_alert_configs d;
     seq_price_history := seq_price_history d;
     seq_alert_logs := seq_alert_logs d |}.

(** The DELETE of [deleteAlert]. [alert_logs] is declared ON DELETE
    CASCADE, which SQLite applies when the connection enforces foreign
    keys. *)
Definition delete_alert (cascade : bool) (id : Z) (d : DB) : DB :=
  {| users := users d;
     alert_configs := filter (fun a => negb (Z.eqb (alert_id a) id)) (alert_configs d);
     price_history := price_history d;
     alert_logs :=
       if cascade
       then filter (fun e => negb (Z.eqb (alertConfigId e) id)) (alert_logs d)
       else alert_logs d;
     seq_alert_configs := seq_alert_configs d;
     seq_price_history := seq_price_history d;
     seq_alert_logs := seq_alert_logs d |}.

Section Calls.
Variable host : Host.

Definition createUser (telegramId : Z) (username : option string) : P User :=
  invoke host (OpCreateUser telegramId username)
    (fun _ s =>
       match insert_user (seq_users s) telegramId username (db (world s)) with
       | Some (row, d) => Some (row, with_seq_users (seq_users s + 1)%Z (with_db d s))
       | None => None
       end).

Definition updateAlert (id : Z) (updates : AlertUpdates) : P unit :=
  if no_fields updates then ret tt
  else
    invoke host (OpUpdateAlert id updates)
      (fun _ s => Some (tt, with_db (update_alert id updates (db (world s))) s)).

Definition deleteAlert (id : Z) : P unit :=
  invoke host (OpDeleteAlert id)
    (fun _ s => Some (tt, with_db (delete_alert (foreign_keys host) id (db (world s))) s)).

End Calls.

End Store.

(* ------------------------------------------------------------------ *)
(** ** [CryptoService]: the list of coins and the price of one coin *)

Module Catalogue.

Import Proc.
Local Open Scope proc_scope.
Local Open Scope string_scope.

(** [s.includes(sub)]. *)
Fixpoint includes (s sub : string) : bool :=
  String.prefix sub s
  || match s with
     | EmptyString => false
     | String _ s' => includes s' sub
     end.

Definition popularIds : list string :=
  ["bitcoin"; "ethereum"; "binancecoin"; "cardano"; "solana"; "polkadot";
   "avalanche-2"; "chainlink"; "polygon"; "litecoin"].

(** [this.coinsCache.filter(coin => popularIds.includes(coin.id))]. *)
Definition getPopularCoins (s : Process) : list CoinGeckoCoin :=
  filter (fun coin => existsb (String.eqb (coin_id coin)) popularIds) (coinsCache s).

Section Calls.
Variable host : Host.

(** The two searches of [findCoinBySymbol] in the list of coins. *)
Definition match_coin (coins : list CoinGeckoCoin) (symbol : string)
    : option CoinGeckoCoin :=
  let normalizedSymbol := toLowerCase host symbol in
  match find (fun c => String.eqb (toLowerCase host (coin_symbol c)) normalizedSymbol)
          coins with
  | Some coin => Some coin
  | None =>
      find (fun c => includes (toLowerCase host (coin_name c)) normalizedSymbol
                     || includes (toLowerCase host (coin_id c)) normalizedSymbol)
        coins
  end.

Definition getSupportedCoins : P (list CoinGeckoCoin) :=
  now <- new_Date host ;;
  cached <- read coinsCache ;;
  expiry <- read cacheExpiry ;;
  if (0 <? List.length cached)%nat && (now <? expiry)%Z then ret cached
  else
    try_catch
      (log Info FetchingSupportedCoins ;;;
       data <- invoke host OpCoinsList (fun k s => Some (coins_response host k, s)) ;;
       now <- new_Date host ;;
       assign (with_coins data (now + 60 * 60 * 1000)%Z) ;;;
       log Info (FetchedSupportedCoins (List.length data)) ;;;
       read coinsCache)
      (fun _ =>
         log Error FailedToFetchSupportedCoins ;;;
         raise (NewError "Failed to fetch supported cryptocurrencies")).

Definition findCoinBySymbol (symbol : string) : P (option CoinGeckoCoin) :=
  coins <- getSupportedCoins ;;
  ret (match_coin coins symbol).

Definition getCoinInfo (coinId : string) : P (option CoinGeckoCoin) :=
  coins <- getSupportedCoins ;;
  ret (find (fun c => String.eqb (coin_id c) coinId) coins).

(** [priceMap.get(coinId) || null]. *)
Definition getPrice (coinId : string) : P (option float) :=
  priceMap <- lift (CryptoService.getCurrentPrices (evaluator host) [coinId]) ;;
  ret (match JsMap.get priceMap coinId with
       | Some price => if JsNumber.falsy price then None else Some price
       | None => None
       end).

End Calls.

End Catalogue.

(* ------------------------------------------------------------------ *)
(** ** [AlertService]: the check of one alert and the wording of a
    timeframe *)

Module AlertInspection.

Import Proc.
Local Open Scope proc_scope.
Local Open Scope string_scope.

(** [`${n}`] for an integer [n] (below 10^21 in size, where JavaScript
    turns to the exponent notation). *)
Definition Number_toString (n : Z) : string := NilZero.string_of_int (Z.to_int n).

(** [`${n} unit${n !== 1 ? 's' : ''}`]. *)
Definition counted (n : Z) (unit : string) : string :=
  Number_toString n ++ " " ++ unit ++ (if Z.eqb n 1 then "" else "s").

(** [formatTimeframe], of [alert.ts] and, word for word, of
    [telegram.ts]; [minutes] is an integer. *)
Definition formatTimeframe (minutes : Z) : string :=
  if (minutes <? 60)%Z then counted minutes "minute"
  else if (minutes <? 1440)%Z then
    let hours := (minutes / 60)%Z in
    counted hours "hour"
  else
    let days := (minutes / 1440)%Z in
    counted days "day".

Section Calls.
Variable host : Host.

Definition checkSpecificAlert (alertId : Z) : P bool :=
  try_catch
    (alerts <- lift (DatabaseService.getAllActiveAlerts (evaluator host)) ;;
     match find (fun a => Z.eqb (alert_id a) alertId) alerts with
     | None =>
         log Warn (AlertNotFoundOrNotActive alertId) ;;;
         ret false
     | Some alert =>
         currentPrice <- Catalogue.getPrice host (cryptoId alert) ;;
         match currentPrice with
         | None =>
             lift (logger Warn (NoCurrentPrice (cryptoId alert))) ;;;
             ret false
         | Some price =>
             if JsNumber.falsy price then
               lift (logger Warn (NoCurrentPrice (cryptoId alert))) ;;;
               ret false
             else
               lift (AlertService.shouldTriggerAlert (evaluator host) alert price)
         end
     end)
    (fun _ =>
       log Error (ErrorCheckingSpecificAlert alertId) ;;;
       ret false).

End Calls.

End AlertInspection.

(* ------------------------------------------------------------------ *)
(** ** [TelegramBotService]: the middleware and the handlers *)

Module Handlers.

(** The body of [checkRateLimit] on the map, [now] being [new Date()]. *)
Definition rate_limit (max now userId : Z) (counts : NumberMap.t CommandCount)
    : bool * NumberMap.t CommandCount :=
  let fresh := {| count := 1; resetTime := (now + 60000)%Z |} in
  match NumberMap.get counts userId with
  | None => (true, NumberMap.set counts userId fresh)
  | Some userLimits =>
      if (resetTime userLimits <=? now)%Z then (true, NumberMap.set counts userId fresh)
      else if (max <=? count userLimits)%Z then (false, counts)
      else
        (true,
         NumberMap.set counts userId
           {| count := (count userLimits + 1)%Z; resetTime := resetTime userLimits |})
  end.

(** [0.1], the binary64 number of that literal. *)
Definition one_tenth : float := 0x1.999999999999ap-4%float.

(** [isNaN(threshold) || threshold < 0.1 || threshold > 100]. *)
Definition invalid_threshold (threshold : float) : bool :=
  PrimFloat.is_nan threshold || (threshold <? one_tenth)%float || (100 <? threshold)%float.

(** [timeframe < 5 || timeframe > 1440], for a [timeframe] that is not
    [NaN]. *)
Definition invalid_timeframe (timeframe : Z) : bool :=
  (timeframe <? 5)%Z || (1440 <? timeframe)%Z.

(** [dbService.createAlert] handed [undefined] for a column: the INSERT
    throws inside the try of [createAlert], once the user is found. *)
Definition createAlert_undefined (env : Env) (from : Z) : M unit :=
  try_catch
    (user <- DatabaseService.getUserByTelegramId env from ;;
     match user with
     | None => ret tt
     | Some _ => throw TypeError
     end)
    (fun _ => logger Error ErrorCreatingAlert ;;; Bot.reply env from None).

Import Proc.
Local Open Scope proc_scope.

Section Service.
Variable host : Host.

Definition reply (chatId : Z) (text : Reply) : P unit :=
  invoke host (OpReplyText chatId text) (fun _ s => Some (tt, s)).

Definition editMessageText (text : Reply) : P unit :=
  invoke host (OpEditMessageText text) (fun _ s => Some (tt, s)).

Definition checkRateLimit (userId : Z) : P bool :=
  now <- new_Date host ;;
  counts <- read userCommandCounts ;;
  let (allowed, counts') := rate_limit (MAX_COMMANDS_PER_MINUTE host) now userId counts in
  assign (with_counts counts') ;;;
  ret allowed.

(** The second middleware of [setupMiddleware]; [from] is [ctx.from], its
    id and its username. *)
Definition middleware (from : option (Z * option string)) (next : P unit) : P unit :=
  match from with
  | None => ret tt
  | Some (id, username) =>
      try_catch
        (user <- lift (DatabaseService.getUserByTelegramId (evaluator host) id) ;;
         match user with
         | Some _ => ret tt
         | None =>
             _ <- Store.createUser host id username ;;
             log Info (NewUserRegistered id)
         end ;;;
         allowed <- checkRateLimit id ;;
         if negb allowed then reply id TooQuickly
         else next)
        (fun _ =>
           log Error MiddlewareError ;;;
           reply id MiddlewareApology)
  end.

Definition set_awaitingAlertConfig (x : option AwaitingAlertConfig) : P unit :=
  assign (fun s =>
            with_session {| awaitingAlertConfig := x;
                            awaitingUpdateConfig := awaitingUpdateConfig (session s) |} s).

Definition set_awaitingUpdateConfig (x : option AwaitingUpdateConfig) : P unit :=
  assign (fun s =>
            with_session {| awaitingAlertConfig := awaitingAlertConfig (session s);
                            awaitingUpdateConfig := x |} s).

Definition handleCreateAlertCommand (from : Z) : P unit :=
  set_awaitingAlertConfig
    (Some {| cfg_step := StepCrypto; cfg_crypto := None; cfg_threshold := None |}) ;;;
  reply from CreatePrompt.

(** The handler of [/cancel]. *)
Definition cancel (from : Z) : P unit :=
  set_awaitingAlertConfig None ;;;
  set_awaitingUpdateConfig None ;;;
  reply from OperationCancelled.

Definition handleUpdateConfigFlow (from : Z) (text : string) : P unit :=
  reply from ComingSoon.

(** [this.createAlert(ctx, config.crypto!, config.threshold!, timeframe)]. *)
Definition createAlert (from : Z) (crypto : option string) (threshold : option float)
    (timeframe : Z) : P unit :=
  match crypto, threshold with
  | Some cryptoId, Some thresholdPercentage =>
      lift (TelegramBotService.createAlert (evaluator host) from cryptoId
              thresholdPercentage timeframe)
  | _, _ => lift (createAlert_undefined (evaluator host) from)
  end.

(** [handleAlertConfigFlow]; [config] is the object the session holds, so
    that what is assigned to its fields is assigned in the session. *)
Definition handleAlertConfigFlow (from : Z) (text : string) : P unit :=
  try_catch
    (awaiting <- read (fun s => awaitingAlertConfig (session s)) ;;
     match awaiting with
     | None => raise (FromEvaluator TypeError)
     | Some config =>
         match cfg_step config with
         | StepCrypto =>
             coin <- Catalogue.findCoinBySymbol host text ;;
             match coin with
             | None => reply from (CoinNotFound text)
             | Some coin =>
                 set_awaitingAlertConfig
                   (Some {| cfg_step := StepThreshold;
                            cfg_crypto := Some (coin_id coin);
                            cfg_threshold := cfg_threshold config |}) ;;;
                 reply from (CoinSelected coin)
             end
         | StepThreshold =>
             let threshold := parseFloat host text in
             if invalid_threshold threshold then reply from InvalidThreshold
             else
               set_awaitingAlertConfig
                 (Some {| cfg_step := StepTimeframe;
                          cfg_crypto := cfg_crypto config;
                          cfg_threshold := Some threshold |}) ;;;
               reply from (ThresholdSet threshold)
         | StepTimeframe =>
             match parseInt host text with
             | None => reply from InvalidTimeframe
             | Some timeframe =>
                 if invalid_timeframe timeframe then reply from InvalidTimeframe
                 else
                   createAlert from (cfg_crypto config) (cfg_threshold config) timeframe ;;;
                   set_awaitingAlertConfig None
             end
         end
     end)
    (fun _ =>
       log Error ErrorInAlertConfigFlow ;;;
       reply from FlowApology ;;;
       set_awaitingAlertConfig None).

(** [handleTextMessage]; [text] is [ctx.message?.text]. *)
Definition handleTextMessage (from : Z) (text : option string) : P unit :=
  match text with
  | None => ret tt
  | Some EmptyString => ret tt
  | Some text =>
      awaitingAlert <- read (fun s => awaitingAlertConfig (session s)) ;;
      match awaitingAlert with
      | Some _ => handleAlertConfigFlow from text
      | None =>
          awaitingUpdate <- read (fun s => awaitingUpdateConfig (session s)) ;;
          match awaitingUpdate with
          | Some _ => handleUpdateConfigFlow from text
          | None => reply from NotUnderstood
          end
      end
  end.

Definition handleDeleteAlert (alertId : Z) : P unit :=
  try_catch
    (Store.deleteAlert host alertId ;;;
     editMessageText AlertDeleted)
    (fun _ =>
       log Error ErrorDeletingAlert ;;;
       editMessageText ErrorDeleting).

Definition handleToggleAlert (alertId : Z) : P unit :=
  try_catch
    (alerts <- lift (DatabaseService.getAllActiveAlerts (evaluator host)) ;;
     match find (fun a => Z.eqb (alert_id a) alertId) alerts with
     | Some alert =>
         Store.updateAlert host alertId
           {| new_userId := None; new_cryptoId := None; new_thresholdPercentage := None;
              new_timeframeMinutes := None; new_isActive := Some (negb (isActive alert)) |} ;;;
         editMessageText (AlertToggled (isActive alert))
     | None => ret tt
     end)
    (fun _ =>
       log Error ErrorTogglingAlert ;;;
       editMessageText ErrorUpdating).

Definition handleUpdateAlert (alertId : Z) : P unit :=
  editMessageText ComingSoon.

End Service.

End Handlers.

(* ------------------------------------------------------------------ *)
(** ** Concrete conversations *)

Module Dialogues.

Local Open Scope string_scope.
Local Open Scope Z_scope.

(** [toLowerCase] on texts in ASCII. *)
Fixpoint lowercase (s : string) : string :=
  match s with
  | EmptyString => EmptyString
  | String c rest =>
      String (if Store.is_upper c then Store.lower c else c) (lowercase rest)
  end.

(** [parseInt] on texts that are a decimal numeral, with or without a
    sign; any other text is taken for one [parseInt] reads nothing
    from. *)
Definition numeral (s : string) : option Z :=
  option_map Z.of_int (NilZero.int_of_string s).

(** [parseFloat] on the same texts, for numerals below 2^63. *)
Definition numeral_float (s : string) : float :=
  match numeral s with
  | Some n => PrimFloat.of_uint63 (Uint63.of_Z n)
  | None => nan
  end.

Definition bitcoin : CoinGeckoCoin :=
  {| coin_id := "bitcoin"; coin_symbol := "btc"; coin_name := "Bitcoin" |}.

Definition ethereum : CoinGeckoCoin :=
  {| coin_id := "ethereum"; coin_symbol := "eth"; coin_name := "Ethereum" |}.

(** Nothing fails on either side, CoinGecko lists two coins, two commands
    a minute are allowed. *)
Definition quiet : Host :=
  {| evaluator := Scenarios.calm [];
     bot_faults := fun _ _ => false;
     coins_response := fun _ => [bitcoin; ethereum];
     MAX_COMMANDS_PER_MINUTE := 2;
     foreign_keys := true;
     toLowerCase := lowercase;
     parseFloat := numeral_float;
     parseInt := numeral |}.

(** The same, CoinGecko being out of reach. *)
Definition offline : Host :=
  {| evaluator := Scenarios.calm [];
     bot_faults := fun _ op => match op with OpCoinsList => true | _ => false end;
     coins_response := fun _ => [bitcoin; ethereum];
     MAX_COMMANDS_PER_MINUTE := 2;
     foreign_keys := true;
     toLowerCase := lowercase;
     parseFloat := numeral_float;
     parseInt := numeral |}.

Definition idle : SessionData :=
  {| awaitingAlertConfig := None; awaitingUpdateConfig := None |}.

(** A process that has just started on the store [d]: no coin list yet, no
    command counted, no conversation under way. *)
Definition started (d : DB) : Process :=
  {| world := Scenarios.fresh d;
     seq_users := Z.of_nat (List.length (users d));
     coinsCache := [];
     cacheExpiry := 0;
     userCommandCounts := [];
     session := idle;
     journal := [] |}.

(** Nobody has registered yet. *)
Definition empty : Process := started (Scenarios.store [] [] [] []).

(** Alice has registered and the coin list was fetched a moment ago. *)
Definition warm : Process :=
  {| world := Scenarios.fresh (Scenarios.store [Scenarios.alice] [] [] []);
     seq_users := 1;
     coinsCache := [bitcoin; ethereum];
     cacheExpiry := 1000003600000;
     userCommandCounts := [];
     session := idle;
     journal := [] |}.

(** Alice has named bitcoin and is asked for the threshold. *)
Definition asked_threshold : Process :=
  with_session
    {| awaitingAlertConfig :=
         Some {| cfg_step := StepThreshold; cfg_crypto := Some "bitcoin";
                 cfg_threshold := None |};
       awaitingUpdateConfig := None |} warm.

(** She has answered 5 and is asked for the timeframe. *)
Definition asked_timeframe : Process :=
  with_session
    {| awaitingAlertConfig :=
         Some {| cfg_step := StepTimeframe; cfg_crypto := Some "bitcoin";
                 cfg_threshold := Some 5%float |};
       awaitingUpdateConfig := None |} warm.

(** Alice has one alert, on bitcoin. *)
Definition watching : Process :=
  started (Scenarios.store [Scenarios.alice] [Scenarios.btc5] [Scenarios.btc100] []).

End Dialogues.

(* ================================================================== *)
(** * Properties *)

Unset Implicit Arguments.

(* ------------------------------------------------------------------ *)
(** ** Vocabulary *)

Import DatabaseService AlertService.

(** [x] is not before [y] in the order of the keys. *)
Definition after (A : Type) (key : A -> TimeText) (x y : A) : Prop :=
  text_leb (key y) (key x) = true.

(** The samples of [cryptoId] stamped at or after the cut-off second of
    [datetime('now', '-timeframeMinutes minutes')]. *)
Definition in_window (now : Z) (cryptoId : string) (timeframeMinutes : Z)
    (r : PriceHistory) : Prop :=
  ph_cryptoId r = cryptoId
  /\ (CURRENT_TIMESTAMP now - 60 * timeframeMinutes <= timestamp r)%Z.

(** The row [triggerAlert] inserts into [alert_logs]. *)
Definition written_entry (env : Env) (w : World) (alertConfig : AlertConfig)
    (priceChange oldPrice newPrice : float) : AlertLog :=
  {| log_id := seq_alert_logs (db w) + 1;
     alertConfigId := alert_id alertConfig;
     triggeredAt := clock env (calls w);
     priceChange := priceChange; oldPrice := oldPrice; newPrice := newPrice;
     sent := false |}.

(** The INSERT call [triggerAlert] makes. *)
Definition write_call (env : Env) (w : World) (alertConfig : AlertConfig)
    (priceChange oldPrice newPrice : float) : Op :=
  OpCreateAlertLog (alert_id alertConfig) (clock env (calls w))
    priceChange oldPrice newPrice false.

(** The Telegram sends. *)
Definition is_send (ev : Event) : Prop :=
  match ev with
  | EvCall (OpSendMessage _ _) _ => True
  | _ => False
  end.

(** [sound Inv P m Q]: started in a world whose store and call counter
    satisfy [Inv], the computation [m] ends in such a world, every event it
    appends to the trace satisfies [P], and a returned value satisfies
    [Q]. *)
Definition sound (Inv : DB -> nat -> Prop) (P : Event -> Prop) (A : Type)
    (m : M A) (Q : A -> Prop) : Prop :=
  forall w, Inv (db w) (calls w) ->
    Inv (db (snd (m w))) (calls (snd (m w)))
    /\ (exists evs, trace (snd (m w)) = trace w ++ evs /\ Forall P evs)
    /\ (forall a, fst (m w) = Ok a -> Q a).

Arguments sound Inv P {A} m Q.

(** The postcondition that asks nothing. *)
Definition anything (A : Type) (_ : A) : Prop := True.

Arguments anything {A} _.

(** What the grouping loop maintains: a group holds alerts of its own
    asset that have been seen, and every alert seen is in the group its
    asset maps to. *)
Definition grouped (seen : list AlertConfig) (m : JsMap.t (list AlertConfig)) : Prop :=
  (forall c alerts a, In (c, alerts) m -> In a alerts -> In a seen /\ cryptoId a = c)
  /\ (forall a, In a seen ->
        exists alerts, JsMap.get m (cryptoId a) = Some alerts /\ In a alerts).

(** The events of [load_and_fetch]. *)
Definition prologue_event (ev : Event) : Prop :=
  match ev with
  | EvCall OpGetAllActiveAlerts _ => True
  | EvCall (OpGetCurrentPrices _) _ => True
  | EvLog Debug (CheckingPrices _) => True
  | _ => False
  end.

(** The events of the save loop. *)
Definition save_event (ev : Event) : Prop :=
  match ev with
  | EvCall (OpSavePriceHistory _ _) _ => True
  | _ => False
  end.

(** The (asset, price) pairs of the samples in the store. *)
Definition recorded (d : DB) : list (string * float) :=
  map (fun r => (ph_cryptoId r, price r)) (price_history d).

(** The event of a sample recorded for an entry of the price map. *)
Definition saved (entry : string * float) : Event :=
  EvCall (OpSavePriceHistory (fst entry) (snd entry)) true.

(** The events [shouldTriggerAlert] may append for an alert whatever it
    decides; the debug line of the empty history and the info line of a
    positive decision are kept apart. *)
Definition decision_event (env : Env) (a : AlertConfig) (ev : Event) : Prop :=
  match ev with
  | EvCall (OpGetRecentAlertLogs id minutes) _ =>
      id = alert_id a /\ minutes = ALERT_COOLDOWN_MINUTES env
  | EvCall (OpGetPriceHistory c n) _ => c = cryptoId a /\ n = timeframeMinutes a
  | EvLog Debug (InCooldown id) => id = alert_id a
  | EvLog Error ErrorShouldTrigger => True
  | _ => False
  end.

(** The events [triggerAlert] may append for an alert. *)
Definition trigger_event (a : AlertConfig) (ev : Event) : Prop :=
  match ev with
  | EvLog Info (Triggering id _) => id = alert_id a
  | EvCall (OpCreateAlertLog id _ _ _ _ _) _ => id = alert_id a
  | EvCall (OpGetCoinInfo c) _ => c = cryptoId a
  | EvCall (OpGetUserByTelegramId t) _ => t = userId a
  | EvLog Error (UserNotFound id) => id = alert_id a
  | EvCall (OpSendMessage _ _) _ => True
  | EvCall (OpGetRecentAlertLogs id minutes) _ => id = alert_id a /\ minutes = 5%Z
  | EvLog Info (AlertSent _) => True
  | EvLog Error FailedToSend => True
  | EvLog Error ErrorTriggering => True
  | _ => False
  end.

(** Nothing to maintain, nothing to exclude. *)
Definition no_invariant (_ : DB) (_ : nat) : Prop := True.

Definition any_event (_ : Event) : Prop := True.

(** [m] only ever appends to the trace. *)
Definition extends (A : Type) (m : M A) : Prop :=
  forall w, exists evs, trace (snd (m w)) = trace w ++ evs.

(** [m] appends, first of all, an event satisfying [E]. *)
Definition starts (A : Type) (m : M A) (E : Event -> Prop) : Prop :=
  forall w, exists ev evs, E ev /\ trace (snd (m w)) = trace w ++ ev :: evs.

(** [m] appends an event satisfying [E]. *)
Definition eventually (A : Type) (m : M A) (E : Event -> Prop) : Prop :=
  forall w, exists evs, trace (snd (m w)) = trace w ++ evs /\ Exists E evs.

(** [m] never throws. *)
Definition returns (m : M unit) : Prop := forall w, fst (m w) = Ok tt.

Arguments extends {A} m.

Arguments starts {A} m E.

Arguments eventually {A} m E.

(** The evaluation of an alert begins with the cooldown query. *)
Definition cooldown_query (env : Env) (a : AlertConfig) (ev : Event) : Prop :=
  exists ok,
    ev = EvCall (OpGetRecentAlertLogs (alert_id a) (ALERT_COOLDOWN_MINUTES env)) ok.

(** The events that evaluate or trigger the alert with a given id. *)
Definition concerns (a : AlertConfig) (ev : Event) : Prop :=
  match ev with
  | EvCall (OpGetRecentAlertLogs id _) _ => id = alert_id a
  | EvCall (OpCreateAlertLog id _ _ _ _ _) _ => id = alert_id a
  | EvLog _ (InCooldown id) => id = alert_id a
  | EvLog _ (ShouldTrigger id _) => id = alert_id a
  | EvLog _ (Triggering id _) => id = alert_id a
  | EvLog _ (UserNotFound id) => id = alert_id a
  | EvLog _ (ErrorCheckingAlert id) => id = alert_id a
  | _ => False
  end.

(** The events other than the debug line of an empty history. *)
Definition history_found (ev : Event) : Prop :=
  match ev with
  | EvLog _ (NoPriceHistory _) => False
  | _ => True
  end.

(** The events by which an alert fires: the positive decision and the
    first two steps of [triggerAlert]. *)
Definition fires (a : AlertConfig) (ev : Event) : Prop :=
  match ev with
  | EvLog _ (ShouldTrigger id _) => id = alert_id a
  | EvLog _ (Triggering id _) => id = alert_id a
  | EvCall (OpCreateAlertLog id _ _ _ _ _) _ => id = alert_id a
  | _ => False
  end.

(** Every entry of the price map has a sample stamped during the tick. *)
Definition all_recorded (env : Env) (w : World) (currentPrices : JsMap.t float)
    (d : DB) (k : nat) : Prop :=
  (calls w <= k)%nat
  /\ forall c p, In (c, p) currentPrices ->
       exists r j, In r (price_history d) /\ ph_cryptoId r = c
                   /\ (calls w <= j)%nat /\ timestamp r = CURRENT_TIMESTAMP (clock env j).

(** A sample of the asset is at the current price, or outside the window
    of the alert for as long as the tick lasts. *)
Definition only_current (env : Env) (w : World) (a : AlertConfig) (p : float)
    (d : DB) (k : nat) : Prop :=
  (calls w <= k)%nat
  /\ forall r, In r (price_history d) -> ph_cryptoId r = cryptoId a ->
       price r = p
       \/ forall j, (calls w <= j)%nat ->
            ~ in_window (clock env j) (cryptoId a) (timeframeMinutes a) r.

(** Vocabulary of whole ticks and of the handlers. *)

(** The assets of a list of alerts, each once, in the order in which they
    first appear after those already [known]. *)
Fixpoint assets_in_order (known : list string) (alerts : list AlertConfig) : list string :=
  match alerts with
  | [] => known
  | a :: rest =>
      if existsb (fun k => String.eqb k (cryptoId a)) known
      then assets_in_order known rest
      else assets_in_order (known ++ [cryptoId a]) rest
  end.

(** The alerts of one asset, in the order of the list. *)
Definition alerts_of (c : string) (alerts : list AlertConfig) : list AlertConfig :=
  filter (fun a => String.eqb (cryptoId a) c) alerts.

(** The batch price request. *)
Definition is_price_request (ev : Event) : bool :=
  match ev with
  | EvCall (OpGetCurrentPrices _) _ => true
  | _ => false
  end.

(** A call of the head of the tick or of the save loop that threw. *)
Definition tick_call_failed (ev : Event) : Prop :=
  match ev with
  | EvCall OpGetAllActiveAlerts false => True
  | EvCall (OpGetCurrentPrices _) false => True
  | EvCall (OpSavePriceHistory _ _) false => True
  | _ => False
  end.

(** The events of the evaluation loop. *)
Definition evaluation_event (ev : Event) : Prop :=
  match ev with
  | EvCall (OpGetRecentAlertLogs _ _) _ => True
  | EvCall (OpGetPriceHistory _ _) _ => True
  | EvCall (OpCreateAlertLog _ _ _ _ _ _) _ => True
  | EvCall (OpGetCoinInfo _) _ => True
  | EvCall (OpGetUserByTelegramId _) _ => True
  | EvCall (OpSendMessage _ _) _ => True
  | EvLog Warn (NoCurrentPrice _) => True
  | EvLog Error (ErrorCheckingAlert _) => True
  | EvLog Debug (InCooldown _) => True
  | EvLog Debug (NoPriceHistory _) => True
  | EvLog Info (ShouldTrigger _ _) => True
  | EvLog Error ErrorShouldTrigger => True
  | EvLog Info (Triggering _ _) => True
  | EvLog Error (UserNotFound _) => True
  | EvLog Info (AlertSent _) => True
  | EvLog Error FailedToSend => True
  | EvLog Error ErrorTriggering => True
  | _ => False
  end.

(** The rows a save loop inserts for [entries], the sequence of the table
    being at [seq] and the next call being call [k]. *)
Fixpoint samples_of (env : Env) (seq : Z) (k : nat) (entries : list (string * float))
    : list PriceHistory :=
  match entries with
  | [] => []
  | entry :: rest =>
      {| ph_id := seq + 1; ph_cryptoId := fst entry; price := snd entry;
         timestamp := CURRENT_TIMESTAMP (clock env k) |}
      :: samples_of env (seq + 1) (S k) rest
  end.

(** The store differs from [d0] by rows appended to [price_history] and to
    [alert_logs]. *)
Definition grown_from (d0 d : DB) : Prop :=
  users d = users d0
  /\ alert_configs d = alert_configs d0
  /\ (exists samples, price_history d = price_history d0 ++ samples)
  /\ (exists entries, alert_logs d = alert_logs d0 ++ entries).

(** The answers of [checkRateLimit] to the calls of one user at the given
    times, in turn. *)
Fixpoint answers (max userId : Z) (times : list Z) (counts : NumberMap.t CommandCount)
    : list bool :=
  match times with
  | [] => []
  | now :: rest =>
      let (allowed, counts') := Handlers.rate_limit max now userId counts in
      allowed :: answers max userId rest counts'
  end.

(** A window of the user is open at [now]. *)
Definition in_window_of (counts : NumberMap.t CommandCount) (userId now : Z) : Prop :=
  exists userLimits,
    NumberMap.get counts userId = Some userLimits /\ (now < resetTime userLimits)%Z.

(** [coin] is the first element of [coins] that satisfies [test]. *)
Definition first_match (test : CoinGeckoCoin -> bool) (coins : list CoinGeckoCoin)
    (coin : CoinGeckoCoin) : Prop :=
  exists before after,
    coins = before ++ coin :: after
    /\ test coin = true
    /\ forall c, In c before -> test c = false.

(** The columns of [alert_configs] and [users] that [updateAlert] and
    [updateUser] may name in a SET clause, against the keys of
    [AlertConfig] and [User] they are written for. *)
Definition updatable_fields : list (string * string) :=
  [("userId", "user_id"); ("cryptoId", "crypto_id");
   ("thresholdPercentage", "threshold_percentage");
   ("timeframeMinutes", "timeframe_minutes"); ("isActive", "is_active");
   ("telegramId", "telegram_id"); ("username", "username")]%string.

(** The calls of the evaluator's side that change nothing outside the
    process and nothing in the store. *)
Definition reads_only (ev : Event) : Prop :=
  match ev with
  | EvCall OpGetAllActiveAlerts _ => True
  | EvCall (OpGetCurrentPrices _) _ => True
  | EvCall (OpGetPriceHistory _ _) _ => True
  | EvCall (OpGetRecentAlertLogs _ _) _ => True
  | EvCall _ _ => False
  | EvLog _ _ => True
  end.

(** The sender is in [users]. *)
Definition is_registered (id : Z) (s : Process) : Prop :=
  exists user, select_user_by_telegram_id id (db (world s)) = Some user.

(** The [catch] of the middleware. *)
Definition middleware_catch (host : Host) (id : Z) (_ : Raised) : P unit :=
  Proc.bind (Proc.log Error MiddlewareError)
    (fun _ => Handlers.reply host id MiddlewareApology).

(** The journal entries [s'] has beyond those of [s]. *)
Definition noted_since (s s' : Process) (entries : list BotEvent) : Prop :=
  map snd (journal s') = map snd (journal s) ++ entries.

(** The update [handleToggleAlert] asks for. *)
Definition toggled (alert : AlertConfig) : AlertUpdates :=
  {| new_userId := None; new_cryptoId := None; new_thresholdPercentage := None;
     new_timeframeMinutes := None; new_isActive := Some (negb (isActive alert)) |}.

(** What the dialogue has gathered is what its step needs: the coin from
    the second step on, and a threshold that passed the check at the
    third. *)
Definition awaits_valid (x : SessionData) : Prop :=
  match awaitingAlertConfig x with
  | None => True
  | Some config =>
      match cfg_step config with
      | StepCrypto => True
      | StepThreshold => exists cryptoId, cfg_crypto config = Some cryptoId
      | StepTimeframe =>
          (exists cryptoId, cfg_crypto config = Some cryptoId)
          /\ exists threshold,
               cfg_threshold config = Some threshold
               /\ Handlers.invalid_threshold threshold = false
      end
  end.

(** The bounds of [AlertConfigSchema], and the owner. *)
Definition within_limits (d : DB) (from : Z) (a : AlertConfig) : Prop :=
  Handlers.invalid_threshold (thresholdPercentage a) = false
  /\ (5 <= timeframeMinutes a <= 1440)%Z
  /\ isActive a = true
  /\ exists user, select_user_by_telegram_id from d = Some user /\ userId a = user_id user.

(** [m] leaves the session and the store as they are. *)
Definition unchanged (A : Type) (m : P A) : Prop :=
  forall s, session (snd (m s)) = session s /\ db (world (snd (m s))) = db (world s).

Arguments unchanged {A} m.

(** [/create] and three answers, one after the other. *)
Definition create_dialogue (host : Host) (from : Z) (t1 t2 t3 : string) : P unit :=
  Proc.bind (Handlers.handleCreateAlertCommand host from) (fun _ =>
  Proc.bind (Handlers.handleTextMessage host from (Some t1)) (fun _ =>
  Proc.bind (Handlers.handleTextMessage host from (Some t2)) (fun _ =>
  Handlers.handleTextMessage host from (Some t3)))).

(** The Telegram sends, as a test. *)
Definition sends (ev : Event) : bool :=
  match ev with
  | EvCall (OpSendMessage _ _) _ => true
  | _ => false
  end.

(** The answer to an input the step at hand refuses. *)
Definition refusal (step : AlertConfigStep) : Reply :=
  match step with
  | StepCrypto => FlowApology
  | StepThreshold => InvalidThreshold
  | StepTimeframe => InvalidTimeframe
  end.

(** The step at hand refuses [text]; the first step refuses nothing by a
    check of its own. *)
Definition refused (host : Host) (step : AlertConfigStep) (text : string) : Prop :=
  match step with
  | StepCrypto => False
  | StepThreshold => Handlers.invalid_threshold (parseFloat host text) = true
  | StepTimeframe =>
      match parseInt host text with
      | Some timeframe => Handlers.invalid_timeframe timeframe = true
      | None => True
      end
  end.

(** The alerts are those of [d0] or were created within the limits for a
    sender who is in [d0]; the users are those of [d0]. *)
Definition dialogue_inv (from : Z) (d0 : DB) (s : Process) : Prop :=
  awaits_valid (session s)
  /\ users (db (world s)) = users d0
  /\ forall a, In a (alert_configs (db (world s))) ->
       In a (alert_configs d0) \/ within_limits d0 from a.

(* ------------------------------------------------------------------ *)
(** ** Text comparison and ORDER BY *)

Module SqlTimeFacts.

Local Open Scope Z_scope.

Lemma text_geb_sql (a b : Z) : text_geb (SqlText a) (SqlText b) = (b <=? a).
Proof.
  unfold text_geb; simpl.
  destruct (Z.compare_spec a b), (Z.leb_spec b a); try reflexivity; lia.
Qed.

Lemma text_leb_sql (a b : Z) : text_leb (SqlText a) (SqlText b) = (a <=? b).
Proof.
  unfold text_leb; simpl.
  destruct (Z.compare_spec a b), (Z.leb_spec a b); try reflexivity; lia.
Qed.

(** A sample stamped at [t] is inside a window of [n] minutes seen from
    [now] exactly when its second is not before the cut-off second. *)
Lemma sample_in_window (now n t : Z) :
  text_geb (SqlText t) (datetime_now_minus now n) = true <->
  CURRENT_TIMESTAMP now - 60 * n <= t.
Proof.
  unfold datetime_now_minus. rewrite text_geb_sql. apply Z.leb_le.
Qed.

(** An ISO text is never before an SQL text of the same or an earlier
    day: the comparison is settled by ['T'] against the space. *)
Lemma iso_geb_sql (ms s : Z) :
  s / 86400 <= ms / 86400000 ->
  text_geb (toISOString ms) (SqlText s) = true.
Proof.
  intro H. unfold text_geb, toISOString; simpl.
  destruct (Z.compare_spec (ms / 86400000) (s / 86400)); try reflexivity; lia.
Qed.

Lemma iso_ltb_sql (ms s : Z) :
  ms / 86400000 < s / 86400 ->
  text_geb (toISOString ms) (SqlText s) = false.
Proof.
  intro H. unfold text_geb, toISOString; simpl.
  destruct (Z.compare_spec (ms / 86400000) (s / 86400)); try reflexivity; lia.
Qed.

Lemma cutoff_day (now n : Z) :
  (CURRENT_TIMESTAMP now - 60 * n) / 86400 = (now - 60000 * n) / 86400000.
Proof.
  unfold CURRENT_TIMESTAMP.
  replace (now / 1000 - 60 * n) with ((now - 60000 * n) / 1000).
  - rewrite Z.div_div by lia. reflexivity.
  - replace (now - 60000 * n) with (now + (- (60 * n)) * 1000) by lia.
    rewrite Z.div_add by lia. lia.
Qed.

(** A log entry written no earlier than [n] minutes before [now] passes
    the WHERE clause of [getRecentAlertLogs]. *)
Lemma fresh_log_is_recent (now n ms : Z) :
  now - 60000 * n <= ms ->
  text_geb (toISOString ms) (datetime_now_minus now n) = true.
Proof.
  intro H. unfold datetime_now_minus. apply iso_geb_sql.
  rewrite cutoff_day. apply Z.div_le_mono; lia.
Qed.

Section OrderBy.

Variable A : Type.
Variable key : A -> TimeText.

Hypothesis key_total : forall x y, text_leb (key x) (key y) = false -> text_leb (key y) (key x) = true.
Hypothesis key_trans : forall x y z, after A key x y -> after A key y z -> after A key x z.

Lemma insert_desc_In (x y : A) (l : list A) :
  In y (insert_desc key x l) <-> y = x \/ In y l.
Proof.
  induction l as [|z l IH]; simpl.
  - intuition congruence.
  - destruct (text_leb (key z) (key x)); simpl.
    + intuition congruence.
    + rewrite IH. intuition congruence.
Qed.

Lemma fold_insert_In (y : A) (l : list A) :
  In y (fold_right (insert_desc key) [] l) <-> In y l.
Proof.
  induction l as [|x l IH]; simpl.
  - tauto.
  - rewrite insert_desc_In, IH. intuition congruence.
Qed.

Lemma order_by_desc_In (y : A) (l : list A) :
  In y (order_by_desc key l) <-> In y l.
Proof.
  unfold order_by_desc. rewrite fold_insert_In. symmetry. apply in_rev.
Qed.

Lemma order_by_desc_nil (l : list A) :
  order_by_desc key l = [] <-> l = [].
Proof.
  split; intro H.
  - destruct l as [|x l]; [reflexivity|].
    assert (In x (order_by_desc key (x :: l))) as Hin
      by (apply order_by_desc_In; left; reflexivity).
    rewrite H in Hin. destruct Hin.
  - subst. reflexivity.
Qed.

Lemma insert_desc_sorted (x : A) (l : list A) :
  StronglySorted (after A key) l ->
  StronglySorted (after A key) (insert_desc key x l).
Proof.
  induction 1 as [|z l Hs IH Hall]; simpl.
  - repeat constructor.
  - destruct (text_leb (key z) (key x)) eqn:E.
    + constructor; [constructor; assumption|].
      constructor; [exact E|].
      rewrite Forall_forall in *. intros u Hu.
      apply key_trans with z; [exact E | apply Hall, Hu].
    + constructor; [exact IH|].
      rewrite Forall_forall in *. intros u Hu.
      apply insert_desc_In in Hu. destruct Hu as [->|Hu].
      * apply key_total, E.
      * apply Hall, Hu.
Qed.

Lemma order_by_desc_sorted (l : list A) :
  StronglySorted (after A key) (order_by_desc key l).
Proof.
  unfold order_by_desc. induction (rev l) as [|x r IH]; simpl.
  - constructor.
  - apply insert_desc_sorted, IH.
Qed.

(** The last row of a descending list is not after A key any other. *)
Lemma sorted_last_least (l : list A) (b : A) :
  StronglySorted (after A key) (l ++ [b]) ->
  forall r, In r l -> after A key r b.
Proof.
  induction l as [|x l IH]; simpl; intros Hs r Hr.
  - destruct Hr.
  - inversion Hs as [|? ? Hs' Hall]; subst.
    destruct Hr as [<-|Hr].
    + rewrite Forall_forall in Hall. apply Hall, in_or_app. right. left. reflexivity.
    + apply IH; assumption.
Qed.

End OrderBy.

End SqlTimeFacts.

(* ------------------------------------------------------------------ *)
(** ** Comparisons of binary64 numbers *)

Module JsNumberFacts.

Local Open Scope float_scope.

Lemma SFcompare_antisym (a b : spec_float) :
  SFcompare b a = option_map CompOpp (SFcompare a b).
Proof.
  destruct a as [[]|[]| |[] ma ea], b as [[]|[]| |[] mb eb]; simpl; try reflexivity.
  - rewrite (Z.compare_antisym eb ea).
    destruct (eb ?= ea)%Z; simpl; try reflexivity.
    rewrite Pos.compare_cont_antisym, CompOpp_involutive. reflexivity.
  - rewrite (Z.compare_antisym eb ea).
    destruct (eb ?= ea)%Z; simpl; try reflexivity.
    rewrite Pos.compare_cont_antisym. reflexivity.
Qed.

Lemma leb_not_ltb (x y : float) : (x <=? y) = true -> (y <? x) = false.
Proof.
  rewrite leb_spec, ltb_spec. unfold SFleb, SFltb.
  rewrite (SFcompare_antisym (Prim2SF x) (Prim2SF y)).
  destruct (SFcompare (Prim2SF x) (Prim2SF y)) as [[]|]; simpl; congruence.
Qed.

Lemma ltb_not_leb (x y : float) : (y <? x) = true -> (x <=? y) = false.
Proof.
  intro H. destruct (x <=? y) eqn:E; [|reflexivity].
  apply leb_not_ltb in E. congruence.
Qed.

Lemma eqb_leb (x y : float) : (x =? y) = true -> (x <=? y) = true.
Proof.
  rewrite leb_spec, eqb_spec. unfold SFleb, SFeqb.
  destruct (SFcompare (Prim2SF x) (Prim2SF y)) as [[]|]; simpl; congruence.
Qed.

(** A rise is never at or below the opposite of a threshold that is not
    negative. *)
Lemma rise_no_drop (pct thr : float) :
  (0 <? pct) = true -> (0 <=? thr) = true -> JsNumber.dropReached pct thr = false.
Proof.
  unfold JsNumber.dropReached.
  rewrite ltb_spec, !leb_spec, opp_spec.
  change (Prim2SF 0) with (S754_zero false).
  unfold SFltb, SFleb.
  destruct (Prim2SF pct) as [[]|[]| |[] mp ep], (Prim2SF thr) as [[]|[]| |[] mt et];
    simpl; congruence.
Qed.

Lemma sub_diag (s : bool) (m : positive) (e : Z) :
  SF64sub (S754_finite s m e) (S754_finite s m e) = S754_zero false.
Proof.
  unfold SF64sub, SFsub. rewrite Z.sub_diag. reflexivity.
Qed.

(** A truthy number is finite and not zero, or infinite. *)
Lemma truthy_cases (p : float) :
  JsNumber.falsy p = false ->
  exists s, Prim2SF p = S754_infinity s \/ exists m e, Prim2SF p = S754_finite s m e.
Proof.
  unfold JsNumber.falsy, PrimFloat.is_zero, PrimFloat.is_nan. rewrite !eqb_spec.
  change (Prim2SF zero) with (S754_zero false).
  unfold SFeqb.
  destruct (Prim2SF p) as [[]|[]| |[] mp ep]; simpl; try discriminate; intros _; eauto.
Qed.

(** Against itself as the baseline a price has changed by [0] (or by
    [NaN], when it is infinite): no positive threshold is reached. *)
Lemma flat_no_drop (p thr : float) :
  JsNumber.falsy p = false ->
  (0 <? thr) = true ->
  JsNumber.dropReached (JsNumber.pctChange p p) thr = false.
Proof.
  intros Hp Hthr. unfold JsNumber.dropReached, JsNumber.pctChange.
  rewrite leb_spec, opp_spec, mul_spec, div_spec, sub_spec.
  rewrite ltb_spec in Hthr. change (Prim2SF 0) with (S754_zero false) in Hthr.
  replace (Prim2SF 100) with (S754_finite false 7036874417766400 (-46))
    by (vm_compute; reflexivity).
  destruct (truthy_cases p Hp) as [s [E|[m [e E]]]]; rewrite E.
  - destruct s; simpl; destruct (Prim2SF thr) as [[]|[]| |[] ? ?]; reflexivity.
  - rewrite sub_diag. simpl.
    unfold SFltb in Hthr. unfold SFleb.
    destruct (Prim2SF thr) as [[]|[]| |[] ? ?]; simpl in *;
      try discriminate; destruct s; reflexivity.
Qed.

End JsNumberFacts.

(* ------------------------------------------------------------------ *)
(** ** Running one call *)

Section CallFacts.

Variable env : Env.

Lemma call_returns (A : Type) (op : Op) (action : nat -> DB -> A * DB) (w : World) :
  faults env (calls w) op = false ->
  call env op action w =
  (Ok (fst (action (calls w) (db w))),
   {| db := snd (action (calls w) (db w)); calls := S (calls w);
      trace := trace w ++ [EvCall op true] |}).
Proof.
  intro H. unfold call. rewrite H. destruct (action (calls w) (db w)); reflexivity.
Qed.

Lemma call_throws (A : Type) (op : Op) (action : nat -> DB -> A * DB) (w : World) :
  faults env (calls w) op = true ->
  call env op action w =
  (Throw (CallFailed op),
   {| db := db w; calls := S (calls w); trace := trace w ++ [EvCall op false] |}).
Proof.
  intro H. unfold call. rewrite H. reflexivity.
Qed.

End CallFacts.

(* ------------------------------------------------------------------ *)
(** ** The trigger decision *)

Lemma last_price_of (newer : list PriceHistory) (baseline : PriceHistory) (w : World) :
  last_price (newer ++ [baseline]) w = (Ok (price baseline), w).
Proof.
  unfold last_price.
  rewrite length_app; simpl.
  replace (List.length newer + 1 - 1)%nat with (List.length newer + 0)%nat by lia.
  rewrite nth_error_app2 by lia.
  replace (List.length newer + 0 - List.length newer)%nat with 0%nat by lia.
  reflexivity.
Qed.

Lemma eqb_length_app (A : Type) (l : list A) (x : A) :
  (List.length (l ++ [x]) =? 0)%nat = false.
Proof. rewrite length_app; simpl. apply Nat.eqb_neq. lia. Qed.

(** What [shouldTriggerAlert] returns once both reads have returned, the
    first one empty and the second one ending in [baseline]. *)
Lemma shouldTriggerAlert_decides (env : Env) (w : World) (alertConfig : AlertConfig)
    (currentPrice : float) (newer : list PriceHistory) (baseline : PriceHistory) :
  let k := calls w in
  let cooldown := ALERT_COOLDOWN_MINUTES env in
  faults env k (OpGetRecentAlertLogs (alert_id alertConfig) cooldown) = false ->
  select_recent_alert_logs (clock env k) (alert_id alertConfig) cooldown (db w) = [] ->
  faults env (S k) (OpGetPriceHistory (cryptoId alertConfig) (timeframeMinutes alertConfig)) = false ->
  select_price_history (clock env (S k)) (cryptoId alertConfig)
    (timeframeMinutes alertConfig) (db w) = newer ++ [baseline] ->
  fst (shouldTriggerAlert env alertConfig currentPrice w) =
  Ok (JsNumber.dropReached (JsNumber.pctChange currentPrice (price baseline))
        (thresholdPercentage alertConfig)).
Proof.
  intros k cooldown F1 Q1 F2 Q2.
  unfold shouldTriggerAlert, try_catch, bind, getRecentAlertLogs, getPriceHistory.
  rewrite call_returns by exact F1. cbn [fst snd].
  fold k cooldown. rewrite Q1. cbn [List.length Nat.ltb Nat.leb].
  rewrite call_returns by exact F2. cbn [fst snd db calls].
  fold k. rewrite Q2, eqb_length_app, last_price_of.
  destruct (JsNumber.dropReached _ _); reflexivity.
Qed.

(** C1. An alert that is not in cooldown and has a baseline from the
    in-window history triggers exactly when
    [(currentPrice - baselinePrice) / baselinePrice * 100 <= -threshold],
    the arithmetic being that of JavaScript numbers: a change equal to
    [-threshold] triggers, a change above [-threshold] does not, and no
    rise triggers. *)
Theorem trigger_iff_drop_reaches_threshold (env : Env) (w : World)
    (alertConfig : AlertConfig) (currentPrice : float)
    (newer : list PriceHistory) (baseline : PriceHistory) :
  let k := calls w in
  let cooldown := ALERT_COOLDOWN_MINUTES env in
  let threshold := thresholdPercentage alertConfig in
  let pctChange := ((currentPrice - price baseline) / price baseline * 100)%float in
  let decision := fst (shouldTriggerAlert env alertConfig currentPrice w) in
  faults env k (OpGetRecentAlertLogs (alert_id alertConfig) cooldown) = false ->
  select_recent_alert_logs (clock env k) (alert_id alertConfig) cooldown (db w) = [] ->
  faults env (S k) (OpGetPriceHistory (cryptoId alertConfig) (timeframeMinutes alertConfig)) = false ->
  select_price_history (clock env (S k)) (cryptoId alertConfig)
    (timeframeMinutes alertConfig) (db w) = newer ++ [baseline] ->
  (decision = Ok true <-> (pctChange <=? - threshold)%float = true)
  /\ (decision = Ok false <-> (pctChange <=? - threshold)%float = false)
  /\ ((pctChange =? - threshold)%float = true -> decision = Ok true)
  /\ ((- threshold <? pctChange)%float = true -> decision = Ok false)
  /\ ((0 <? pctChange)%float = true -> (0 <=? threshold)%float = true ->
      decision = Ok false).
Proof.
  intros k cooldown threshold pctChange decision F1 Q1 F2 Q2.
  pose proof (shouldTriggerAlert_decides env w alertConfig currentPrice
                newer baseline F1 Q1 F2 Q2) as D.
  fold decision in D. unfold JsNumber.dropReached, JsNumber.pctChange in D.
  fold threshold pctChange in D. rewrite D.
  repeat split.
  - intro H. congruence.
  - intro H. rewrite H. reflexivity.
  - intro H. congruence.
  - intro H. rewrite H. reflexivity.
  - intro H. rewrite (JsNumberFacts.eqb_leb _ _ H). reflexivity.
  - intro H. rewrite (JsNumberFacts.ltb_not_leb _ _ H). reflexivity.
  - intros H0 Ht. f_equal.
    exact (JsNumberFacts.rise_no_drop pctChange threshold H0 Ht).
Qed.

(** Scenario A: baseline 100, current price 94, threshold 5: a change of
    -6 triggers. *)
Lemma trigger_iff_drop_reaches_threshold_scenarioA :
  fst (shouldTriggerAlert (Scenarios.calm []) Scenarios.btc5 94 Scenarios.worldA) = Ok true.
Proof.
  apply (proj1 (trigger_iff_drop_reaches_threshold (Scenarios.calm []) Scenarios.worldA
                  Scenarios.btc5 94 [] Scenarios.btc100
                  eq_refl eq_refl eq_refl eq_refl)).
  reflexivity.
Defined.

(** The change is the one JavaScript computes. From 100 to 71 it is
    [-28.999999999999996], above [-29]: an alert at 29% does not trigger,
    while from 100 to 95 the change is [-5] and an alert at 5% does. *)
Theorem rounded_change_decides :
  (- 29 <? JsNumber.pctChange 71 100)%float = true
  /\ fst (shouldTriggerAlert (Scenarios.calm []) Scenarios.btc29 71 Scenarios.worldA)
     = Ok false
  /\ (JsNumber.pctChange 95 100 =? - 5)%float = true
  /\ fst (shouldTriggerAlert (Scenarios.calm []) Scenarios.btc5 95 Scenarios.worldA)
     = Ok true.
Proof.
  repeat split; vm_compute; reflexivity.
Qed.

(* ------------------------------------------------------------------ *)
(** ** Cooldown *)

Lemma is_recent_fresh (now configId minutes : Z) (entry : AlertLog) :
  alertConfigId entry = configId ->
  (now - 60000 * minutes <= triggeredAt entry)%Z ->
  is_recent now configId minutes entry = true.
Proof.
  intros Hid Hfresh. unfold is_recent.
  rewrite Hid, Z.eqb_refl. simpl.
  apply SqlTimeFacts.fresh_log_is_recent, Hfresh.
Qed.

Lemma recent_logs_found (now configId minutes : Z) (d : DB) (entry : AlertLog) :
  In entry (alert_logs d) ->
  is_recent now configId minutes entry = true ->
  (0 <? List.length (select_recent_alert_logs now configId minutes d))%nat = true.
Proof.
  intros Hin Hrecent. unfold select_recent_alert_logs.
  assert (In entry (order_by_desc (fun r => toISOString (triggeredAt r))
                      (filter (is_recent now configId minutes) (alert_logs d)))) as H.
  { apply SqlTimeFacts.order_by_desc_In, filter_In. split; assumption. }
  destruct (order_by_desc _ _); [destruct H | reflexivity].
Qed.

(** An entry that passes the WHERE clause of the cooldown query makes
    [shouldTriggerAlert] return false after that one query. *)
Lemma recent_entry_suppresses (env : Env) (w : World) (alertConfig : AlertConfig)
    (currentPrice : float) (entry : AlertLog) :
  let cooldownMinutes := ALERT_COOLDOWN_MINUTES env in
  let out := shouldTriggerAlert env alertConfig currentPrice w in
  In entry (alert_logs (db w)) ->
  is_recent (clock env (calls w)) (alert_id alertConfig) cooldownMinutes entry = true ->
  fst out = Ok false
  /\ db (snd out) = db w
  /\ exists ok lvl line,
       trace (snd out) =
       trace w ++ [EvCall (OpGetRecentAlertLogs (alert_id alertConfig) cooldownMinutes) ok;
                   EvLog lvl line].
Proof.
  intros cooldownMinutes out Hin Hrecent.
  pose proof (recent_logs_found (clock env (calls w)) (alert_id alertConfig)
                cooldownMinutes (db w) entry Hin Hrecent) as Hfound.
  subst out. unfold shouldTriggerAlert, try_catch, bind, getRecentAlertLogs.
  fold cooldownMinutes.
  destruct (faults env (calls w)
              (OpGetRecentAlertLogs (alert_id alertConfig) cooldownMinutes)) eqn:F.
  - rewrite call_throws by exact F. cbn.
    repeat split. exists false, Error, ErrorShouldTrigger.
    rewrite <- app_assoc. reflexivity.
  - rewrite call_returns by exact F. cbn [fst snd].
    rewrite Hfound. cbn.
    repeat split. exists true, Debug, (InCooldown (alert_id alertConfig)).
    rewrite <- app_assoc. reflexivity.
Qed.

(** C2. When the log holds an entry of the alert whose trigger time is not
    before [now - cooldownMinutes], [shouldTriggerAlert] returns false
    whatever the current price and the price history are: it makes one
    call, the cooldown query, and that query is made with the one
    [ALERT_COOLDOWN_MINUTES] of the configuration for every alert. *)
Theorem cooldown_suppresses_trigger (env : Env) (w : World) (alertConfig : AlertConfig)
    (currentPrice : float) (entry : AlertLog) :
  let now := clock env (calls w) in
  let cooldownMinutes := ALERT_COOLDOWN_MINUTES env in
  let out := shouldTriggerAlert env alertConfig currentPrice w in
  In entry (alert_logs (db w)) ->
  alertConfigId entry = alert_id alertConfig ->
  (now - 60000 * cooldownMinutes <= triggeredAt entry)%Z ->
  fst out = Ok false
  /\ db (snd out) = db w
  /\ exists ok lvl line,
       trace (snd out) =
       trace w ++ [EvCall (OpGetRecentAlertLogs (alert_id alertConfig) cooldownMinutes) ok;
                   EvLog lvl line].
Proof.
  intros now cooldownMinutes out Hin Hid Hfresh.
  apply recent_entry_suppresses with entry; [exact Hin|].
  apply is_recent_fresh; assumption.
Qed.

(** Scenario C: ten minutes after a firing, with a cooldown of 30 minutes,
    a price of 50 against a baseline of 100 does not trigger. *)
Lemma cooldown_suppresses_trigger_scenarioC :
  fst (shouldTriggerAlert (Scenarios.calm []) Scenarios.btc5 50 Scenarios.worldC) = Ok false.
Proof.
  refine (proj1 (cooldown_suppresses_trigger (Scenarios.calm []) Scenarios.worldC
                   Scenarios.btc5 50 Scenarios.firedTenMinutesAgo _ _ _)).
  - left. reflexivity.
  - reflexivity.
  - vm_compute. discriminate.
Defined.

(** The WHERE clause of the cooldown query compares the ISO text of
    [triggered_at] with the SQL text of the cut-off, so it holds exactly
    for the entries of the alert written on the UTC day of the cut-off or
    on a later one. *)
Lemma is_recent_iff (now configId minutes : Z) (entry : AlertLog) :
  is_recent now configId minutes entry = true <->
  alertConfigId entry = configId
  /\ ((CURRENT_TIMESTAMP now - 60 * minutes) / 86400 <= triggeredAt entry / 86400000)%Z.
Proof.
  unfold is_recent, datetime_now_minus. rewrite andb_true_iff, Z.eqb_eq.
  split; intros [H1 H2]; (split; [exact H1|]).
  - destruct (Z_le_gt_dec ((CURRENT_TIMESTAMP now - 60 * minutes) / 86400)
                (triggeredAt entry / 86400000)) as [L|G]; [exact L|].
    rewrite SqlTimeFacts.iso_ltb_sql in H2 by lia. discriminate H2.
  - apply SqlTimeFacts.iso_geb_sql, H2.
Qed.

(** An entry of the alert keeps suppressing it for as long as the cut-off
    [now - cooldownMinutes] has not passed the UTC day the entry was
    written on, however long before the cut-off it was written. *)
Theorem cooldown_lasts_to_end_of_day (env : Env) (w : World) (alertConfig : AlertConfig)
    (currentPrice : float) (entry : AlertLog) :
  let now := clock env (calls w) in
  let cooldownMinutes := ALERT_COOLDOWN_MINUTES env in
  In entry (alert_logs (db w)) ->
  alertConfigId entry = alert_id alertConfig ->
  ((CURRENT_TIMESTAMP now - 60 * cooldownMinutes) / 86400
   <= triggeredAt entry / 86400000)%Z ->
  fst (shouldTriggerAlert env alertConfig currentPrice w) = Ok false.
Proof.
  intros now cooldownMinutes Hin Hid Hday.
  apply recent_entry_suppresses with entry; [exact Hin|].
  apply is_recent_iff. split; assumption.
Qed.

(** Scenario C, second half: 31 minutes after a firing, with a cooldown of
    30 minutes, the alert is still suppressed at a price of 50 against a
    baseline of 100. *)
Lemma cooldown_lasts_to_end_of_day_scenarioC :
  (Scenarios.ticking 0 - 60000 * 30 > triggeredAt Scenarios.fired31MinutesAgo)%Z
  /\ fst (shouldTriggerAlert (Scenarios.calm []) Scenarios.btc5 50 Scenarios.worldC31)
     = Ok false.
Proof.
  split; [reflexivity|].
  refine (cooldown_lasts_to_end_of_day (Scenarios.calm []) Scenarios.worldC31
            Scenarios.btc5 50 Scenarios.fired31MinutesAgo _ _ _).
  - left. reflexivity.
  - reflexivity.
  - vm_compute. discriminate.
Defined.

(* ------------------------------------------------------------------ *)
(** ** The baseline *)

Lemma in_timeframe_iff (now : Z) (cryptoId : string) (timeframeMinutes : Z)
    (r : PriceHistory) :
  in_timeframe now cryptoId timeframeMinutes r = true <->
  in_window now cryptoId timeframeMinutes r.
Proof.
  unfold in_timeframe, in_window.
  rewrite andb_true_iff, String.eqb_eq, SqlTimeFacts.sample_in_window. tauto.
Qed.

Lemma select_price_history_In (now : Z) (cryptoId : string) (timeframeMinutes : Z)
    (d : DB) (r : PriceHistory) :
  In r (select_price_history now cryptoId timeframeMinutes d) <->
  In r (price_history d) /\ in_window now cryptoId timeframeMinutes r.
Proof.
  unfold select_price_history.
  rewrite SqlTimeFacts.order_by_desc_In, filter_In, in_timeframe_iff. tauto.
Qed.

Lemma sql_key_total (x y : PriceHistory) :
  text_leb (SqlText (timestamp x)) (SqlText (timestamp y)) = false ->
  text_leb (SqlText (timestamp y)) (SqlText (timestamp x)) = true.
Proof. rewrite !SqlTimeFacts.text_leb_sql, Z.leb_gt, Z.leb_le. lia. Qed.

Lemma sql_key_trans (x y z : PriceHistory) :
  after _ (fun r => SqlText (timestamp r)) x y ->
  after _ (fun r => SqlText (timestamp r)) y z ->
  after _ (fun r => SqlText (timestamp r)) x z.
Proof.
  unfold after. rewrite !SqlTimeFacts.text_leb_sql, !Z.leb_le. lia.
Qed.

(** The last row of the SELECT is a sample in the window, and no sample in
    the window is older. *)
Lemma select_price_history_last (now : Z) (cryptoId : string) (timeframeMinutes : Z)
    (d : DB) (newer : list PriceHistory) (baseline : PriceHistory) :
  select_price_history now cryptoId timeframeMinutes d = newer ++ [baseline] ->
  In baseline (price_history d)
  /\ in_window now cryptoId timeframeMinutes baseline
  /\ forall r, In r (price_history d) -> in_window now cryptoId timeframeMinutes r ->
               (timestamp baseline <= timestamp r)%Z.
Proof.
  intro E.
  assert (In baseline (select_price_history now cryptoId timeframeMinutes d)) as Hb
    by (rewrite E; apply in_or_app; right; left; reflexivity).
  apply select_price_history_In in Hb. destruct Hb as [Hb1 Hb2].
  split; [exact Hb1|]. split; [exact Hb2|].
  intros r Hr Hw.
  assert (In r (newer ++ [baseline])) as Hin
    by (rewrite <- E; apply select_price_history_In; split; assumption).
  apply in_app_or in Hin. destruct Hin as [Hin|[<-|[]]]; [|lia].
  pose proof (SqlTimeFacts.order_by_desc_sorted _ (fun r => SqlText (timestamp r))
                sql_key_total sql_key_trans
                (filter (in_timeframe now cryptoId timeframeMinutes) (price_history d))) as S.
  fold (select_price_history now cryptoId timeframeMinutes d) in S. rewrite E in S.
  pose proof (SqlTimeFacts.sorted_last_least _ _ newer baseline S r Hin) as L.
  unfold after in L. rewrite SqlTimeFacts.text_leb_sql in L.
  apply Z.leb_le, L.
Qed.

Lemma select_price_history_none (now : Z) (cryptoId : string) (timeframeMinutes : Z)
    (d : DB) :
  (forall r, In r (price_history d) -> ~ in_window now cryptoId timeframeMinutes r) ->
  select_price_history now cryptoId timeframeMinutes d = [].
Proof.
  intro H. destruct (select_price_history now cryptoId timeframeMinutes d) as [|r l] eqn:E.
  - reflexivity.
  - assert (In r (select_price_history now cryptoId timeframeMinutes d)) as Hr
      by (rewrite E; left; reflexivity).
    apply select_price_history_In in Hr. destruct Hr as [Hr1 Hr2].
    destruct (H r Hr1 Hr2).
Qed.

Lemma select_price_history_some (now : Z) (cryptoId : string) (timeframeMinutes : Z)
    (d : DB) (r : PriceHistory) :
  In r (price_history d) -> in_window now cryptoId timeframeMinutes r ->
  exists newer baseline,
    select_price_history now cryptoId timeframeMinutes d = newer ++ [baseline].
Proof.
  intros Hr Hw.
  destruct (select_price_history now cryptoId timeframeMinutes d) as [|x l] eqn:E.
  - assert (In r (select_price_history now cryptoId timeframeMinutes d)) as H
      by (apply select_price_history_In; split; assumption).
    rewrite E in H. destruct H.
  - assert (x :: l <> []) as N by discriminate.
    destruct (exists_last N) as (newer & baseline & ->). eauto.
Qed.

(** C3. The baseline of the percentage change is the price of an oldest
    sample among those of the asset stamped at or after
    [now - timeframeMinutes] (never one older than the window); when no
    sample lies in the window the alert is skipped: two reads, a debug
    line, no trigger and no error. *)
Theorem baseline_is_oldest_sample_in_window (env : Env) (w : World)
    (alertConfig : AlertConfig) (currentPrice : float) :
  let k := calls w in
  let cooldown := ALERT_COOLDOWN_MINUTES env in
  let recent := OpGetRecentAlertLogs (alert_id alertConfig) cooldown in
  let history := OpGetPriceHistory (cryptoId alertConfig) (timeframeMinutes alertConfig) in
  let inside :=
    in_window (clock env (S k)) (cryptoId alertConfig) (timeframeMinutes alertConfig) in
  faults env k recent = false ->
  select_recent_alert_logs (clock env k) (alert_id alertConfig) cooldown (db w) = [] ->
  faults env (S k) history = false ->
  ((exists r, In r (price_history (db w)) /\ inside r) ->
   exists baseline,
     In baseline (price_history (db w))
     /\ inside baseline
     /\ (forall r, In r (price_history (db w)) -> inside r ->
                   (timestamp baseline <= timestamp r)%Z)
     /\ fst (shouldTriggerAlert env alertConfig currentPrice w) =
        Ok ((currentPrice - price baseline) / price baseline * 100
            <=? - thresholdPercentage alertConfig)%float)
  /\
  ((forall r, In r (price_history (db w)) -> ~ inside r) ->
   check_alert env currentPrice alertConfig w =
   (Ok tt,
    {| db := db w; calls := S (S k);
       trace := trace w ++ [EvCall recent true; EvCall history true;
                            EvLog Debug (NoPriceHistory (cryptoId alertConfig))] |})).
Proof.
  intros k cooldown recent history inside F1 Q1 F2. split.
  - intros (r & Hr & Hw).
    destruct (select_price_history_some _ _ _ _ r Hr Hw) as (newer & baseline & E).
    destruct (select_price_history_last _ _ _ _ _ _ E) as (B1 & B2 & B3).
    exists baseline. repeat split; try assumption; try apply B2.
    exact (shouldTriggerAlert_decides env w alertConfig currentPrice newer baseline
             F1 Q1 F2 E).
  - intro Hnone.
    pose proof (select_price_history_none _ _ _ _ Hnone) as E.
    unfold check_alert, shouldTriggerAlert, try_catch, bind,
      getRecentAlertLogs, getPriceHistory.
    rewrite call_returns by exact F1. cbn [fst snd].
    fold k cooldown. rewrite Q1. cbn [List.length Nat.ltb Nat.leb].
    rewrite call_returns by exact F2. cbn [fst snd db calls].
    fold k. rewrite E. cbn. unfold record. cbn.
    rewrite <- !app_assoc. reflexivity.
Qed.

(** Scenario D: no sample in the window; the alert is skipped. *)
Lemma baseline_is_oldest_sample_in_window_scenarioD :
  fst (check_alert (Scenarios.calm []) 94 Scenarios.btc5 Scenarios.worldD) = Ok tt
  /\ alert_logs (db (snd (check_alert (Scenarios.calm []) 94 Scenarios.btc5 Scenarios.worldD))) = [].
Proof.
  rewrite (proj2 (baseline_is_oldest_sample_in_window (Scenarios.calm []) Scenarios.worldD
                    Scenarios.btc5 94 eq_refl eq_refl eq_refl)).
  - split; reflexivity.
  - intros r [<-|[]] [_ H]. vm_compute in H. apply H. reflexivity.
Defined.

(* ------------------------------------------------------------------ *)
(** ** Triggering: the log entry, the owner, the delivery *)

(** Case analysis on every call and test that [triggerAlert] meets. *)
Ltac split_run :=
  repeat match goal with
    | _ => progress cbn
    | |- context [faults ?e ?k ?op] => destruct (faults e k op) eqn:?
    | |- context [match ?x with Some _ => _ | None => _ end] => destruct x eqn:?
    | |- context [match ?n with O => _ | S _ => _ end] => destruct n eqn:?
    end.

Ltac unfold_run :=
  unfold triggerAlert, try_catch, bind, new_Date, createAlertLog,
    CryptoService.getCoinInfo, getUserByTelegramId, Bot.sendMessage,
    getRecentAlertLogs, call, logger, record, ret; cbn.

(** The outcome of [triggerAlert]: it returns, its first two events are
    the info line and the INSERT, and a failed INSERT is followed by the
    error line alone. *)
Lemma triggerAlert_shape (env : Env) (w : World) (alertConfig : AlertConfig)
    (priceChange oldPrice newPrice : float) :
  let out := triggerAlert env alertConfig priceChange oldPrice newPrice w in
  let write := write_call env w alertConfig priceChange oldPrice newPrice in
  let entry := written_entry env w alertConfig priceChange oldPrice newPrice in
  fst out = Ok tt
  /\ exists ok rest,
       trace (snd out) =
       trace w ++ EvLog Info (Triggering (alert_id alertConfig) (userId alertConfig))
               :: EvCall write ok :: rest
       /\ ok = negb (faults env (calls w) write)
       /\ (ok = true -> alert_logs (db (snd out)) = alert_logs (db w) ++ [entry])
       /\ (ok = false -> rest = [EvLog Error ErrorTriggering] /\ db (snd out) = db w).
Proof.
  intros out write entry. subst out write entry.
  unfold write_call, written_entry. unfold_run. split_run.
  all: (split; [reflexivity|]); do 2 eexists.
    all: (split; [rewrite <- !app_assoc; cbn; reflexivity|]).
    all: (split; [reflexivity|]); split; intro; try discriminate.
    all: try split; reflexivity.
Qed.

(** The loop body returns whatever happens inside it. *)
Lemma check_alert_returns (env : Env) (currentPrice : float) (alert : AlertConfig)
    (w : World) :
  fst (check_alert env currentPrice alert w) = Ok tt.
Proof.
  unfold check_alert, try_catch.
  match goal with |- context [match ?run with _ => _ end] => destruct run as [[[]|e] w'] end;
    reflexivity.
Qed.

(** A send in the trace of [triggerAlert] comes after the successful
    INSERT, whose row is in the store from then on. *)
Lemma send_after_write (env : Env) (w : World) (alertConfig : AlertConfig)
    (priceChange oldPrice newPrice : float) (before after : list Event) (send : Event) :
  let out := triggerAlert env alertConfig priceChange oldPrice newPrice w in
  let write := write_call env w alertConfig priceChange oldPrice newPrice in
  let entry := written_entry env w alertConfig priceChange oldPrice newPrice in
  trace (snd out) = trace w ++ before ++ send :: after ->
  is_send send ->
  In (EvCall write true) before
  /\ alert_logs (db (snd out)) = alert_logs (db w) ++ [entry].
Proof.
  intros out write entry E Hsend.
  destruct (triggerAlert_shape env w alertConfig priceChange oldPrice newPrice)
    as (R & ok & rest & T & Hok & Hwritten & Hfailed).
  fold out write entry in R, T, Hok, Hwritten, Hfailed.
  rewrite T in E. apply app_inv_head in E.
  destruct before as [|b1 [|b2 before]]; cbn in E.
  - injection E as E1 _. subst send. destruct Hsend.
  - injection E as _ E2 _. subst send. destruct Hsend.
  - injection E as _ E2 E3. subst b2.
    destruct (faults env (calls w) write) eqn:F; cbn in Hok; subst ok.
    + destruct (Hfailed eq_refl) as [Hrest _]. rewrite Hrest in E3.
      destruct before as [|b3 before]; cbn in E3.
      * injection E3 as E4 _. subst send. destruct Hsend.
      * injection E3 as _ E5. destruct before; discriminate E5.
    + split; [right; left; reflexivity | exact (Hwritten eq_refl)].
Qed.

(** C4. [triggerAlert] inserts the log entry (alert id, trigger time,
    percentage change, old price, new price, sent = false) before it
    attempts any delivery: a send in its trace comes after the successful
    INSERT, and the entry is then in the store. When the INSERT fails,
    nothing but the error line follows, so no notification is sent; in
    either case [triggerAlert] and the loop body around it return, and the
    loop goes on to the remaining alerts. *)
Theorem log_entry_precedes_delivery (env : Env) (w : World) (alertConfig : AlertConfig)
    (priceChange oldPrice newPrice : float) :
  let out := triggerAlert env alertConfig priceChange oldPrice newPrice w in
  let write := write_call env w alertConfig priceChange oldPrice newPrice in
  let entry := written_entry env w alertConfig priceChange oldPrice newPrice in
  fst out = Ok tt
  /\ (forall before send after,
        trace (snd out) = trace w ++ before ++ send :: after ->
        is_send send ->
        In (EvCall write true) before
        /\ alert_logs (db (snd out)) = alert_logs (db w) ++ [entry])
  /\ (faults env (calls w) write = true ->
      snd out =
      {| db := db w; calls := S (calls w);
         trace := trace w ++
                  [EvLog Info (Triggering (alert_id alertConfig) (userId alertConfig));
                   EvCall write false;
                   EvLog Error ErrorTriggering] |})
  /\ (forall currentPrice w0, fst (check_alert env currentPrice alertConfig w0) = Ok tt).
Proof.
  intros out write entry.
  split; [apply triggerAlert_shape|]. split; [|split].
  - intros before send after E Hsend.
    exact (send_after_write env w alertConfig priceChange oldPrice newPrice
             before after send E Hsend).
  - intro F. subst out write. unfold write_call in *. unfold_run.
    rewrite F. cbn. rewrite <- !app_assoc. reflexivity.
  - intros currentPrice w0. apply check_alert_returns.
Qed.



(** [triggerAlert] never updates a row of [alert_logs]: after a delivery
    that succeeded the table is the old one followed by the entry written
    before the delivery, still with [sent = false]. *)
Lemma delivery_leaves_entry_unsent (env : Env) (w : World) (alertConfig : AlertConfig)
    (priceChange oldPrice newPrice : float) (before after : list Event)
    (chatId : Z) (message : AlertMessage) :
  let out := triggerAlert env alertConfig priceChange oldPrice newPrice w in
  let entry := written_entry env w alertConfig priceChange oldPrice newPrice in
  trace (snd out) = trace w ++ before ++ EvCall (OpSendMessage chatId message) true :: after ->
  alert_logs (db (snd out)) = alert_logs (db w) ++ [entry]
  /\ sent entry = false
  /\ forall r, In r (alert_logs (db (snd out))) -> sent r = true -> In r (alert_logs (db w)).
Proof.
  intros out entry E.
  destruct (send_after_write env w alertConfig priceChange oldPrice newPrice
              before after _ E I) as [_ L].
  fold out entry in L. split; [exact L|]. split; [reflexivity|].
  intros r Hr Hsent. rewrite L in Hr. apply in_app_or in Hr.
  destruct Hr as [Hr|[<-|[]]]; [exact Hr | discriminate Hsent].
Qed.

(** Delivered to Bob: the table holds the one entry, unsent. *)
Lemma delivery_leaves_entry_unsent_scenarioB :
  alert_logs (db (snd (triggerAlert (Scenarios.calm []) Scenarios.btc5 (-6) 100 94
                         Scenarios.worldB))) =
  [written_entry (Scenarios.calm []) Scenarios.worldB Scenarios.btc5 (-6) 100 94].
Proof.
  refine (proj1 (delivery_leaves_entry_unsent (Scenarios.calm []) Scenarios.worldB
                   Scenarios.btc5 (-6) 100 94
                   [EvLog Info (Triggering 1 1);
                    EvCall (OpCreateAlertLog 1 1000000000000 (-6) 100 94 false) true;
                    EvCall (OpGetCoinInfo "bitcoin") true;
                    EvCall (OpGetUserByTelegramId 1) true]
                   [EvCall (OpGetRecentAlertLogs 1 5) true; EvLog Info (AlertSent 1)]
                   1 _ _)).
  vm_compute. reflexivity.
Defined.

(* ------------------------------------------------------------------ *)
(** ** A logic for whole runs *)

Section RunLogic.

Variable env : Env.
Variable Inv : DB -> nat -> Prop.
Variable P : Event -> Prop.

Lemma sound_ret (A : Type) (a : A) (Q : A -> Prop) :
  Q a -> sound Inv P (ret a) Q.
Proof.
  intros Ha w Hw. cbn. split; [exact Hw|]. split.
  - exists []. rewrite app_nil_r. split; [reflexivity | constructor].
  - intros a' E. injection E as <-. exact Ha.
Qed.

Lemma sound_throw (A : Type) (e : Exn) (Q : A -> Prop) :
  sound Inv P (throw e) Q.
Proof.
  intros w Hw. cbn. split; [exact Hw|]. split.
  - exists []. rewrite app_nil_r. split; [reflexivity | constructor].
  - intros a' E. discriminate E.
Qed.

Lemma sound_weaken (A : Type) (m : M A) (Q R : A -> Prop) :
  sound Inv P m Q -> (forall a, Q a -> R a) -> sound Inv P m R.
Proof.
  intros Hm HQR w Hw. destruct (Hm w Hw) as (H1 & H2 & H3).
  split; [exact H1|]. split; [exact H2|]. intros a E. apply HQR, H3, E.
Qed.

Lemma sound_weaken_events (P' : Event -> Prop) (A : Type) (m : M A) (Q : A -> Prop) :
  sound Inv P m Q -> (forall ev, P ev -> P' ev) -> sound Inv P' m Q.
Proof.
  intros Hm HP w Hw. destruct (Hm w Hw) as (H1 & (evs & T & F) & H3).
  split; [exact H1|]. split; [|exact H3].
  exists evs. split; [exact T|]. apply Forall_impl with (P := P); assumption.
Qed.

Lemma sound_bind (A B : Type) (m : M A) (f : A -> M B) (Q : A -> Prop) (R : B -> Prop) :
  sound Inv P m Q -> (forall a, Q a -> sound Inv P (f a) R) -> sound Inv P (bind m f) R.
Proof.
  intros Hm Hf w Hw. unfold bind.
  destruct (Hm w Hw) as (H1 & (evs & T & F) & H3).
  destruct (m w) as [[a|e] w1]; cbn in *.
  - destruct (Hf a (H3 a eq_refl) w1 H1) as (G1 & (evs' & T' & F') & G3).
    split; [exact G1|]. split; [|exact G3].
    exists (evs ++ evs'). rewrite T', T, app_assoc. split; [reflexivity|].
    apply Forall_app. split; assumption.
  - split; [exact H1|]. split; [eauto|]. intros b E. discriminate E.
Qed.

Lemma sound_try_catch (A : Type) (body : M A) (handler : Exn -> M A) (Q : A -> Prop) :
  sound Inv P body Q -> (forall e, sound Inv P (handler e) Q) ->
  sound Inv P (try_catch body handler) Q.
Proof.
  intros Hm Hh w Hw. unfold try_catch.
  destruct (Hm w Hw) as (H1 & (evs & T & F) & H3).
  destruct (body w) as [[a|e] w1]; cbn in *.
  - split; [exact H1|]. split; [eauto|]. exact H3.
  - destruct (Hh e w1 H1) as (G1 & (evs' & T' & F') & G3).
    split; [exact G1|]. split; [|exact G3].
    exists (evs ++ evs'). rewrite T', T, app_assoc. split; [reflexivity|].
    apply Forall_app. split; assumption.
Qed.

Lemma sound_for_of (A : Type) (xs : list A) (body : A -> M unit) :
  (forall x, In x xs -> sound Inv P (body x) anything) ->
  sound Inv P (for_of xs body) anything.
Proof.
  induction xs as [|x xs IH]; intro H; cbn [for_of].
  - apply sound_ret. exact I.
  - eapply sound_bind.
    + apply H. left. reflexivity.
    + intros _ _. apply IH. intros y Hy. apply H. right. exact Hy.
Qed.

Lemma sound_logger (lvl : Level) (line : LogLine) :
  P (EvLog lvl line) -> sound Inv P (logger lvl line) anything.
Proof.
  intros Hp w Hw. cbn. split; [exact Hw|]. split.
  - exists [EvLog lvl line]. split; [reflexivity|]. constructor; [exact Hp | constructor].
  - intros. exact I.
Qed.

Hypothesis Inv_next : forall d k, Inv d k -> Inv d (S k).

Lemma sound_new_Date : sound Inv P (new_Date env) anything.
Proof.
  intros w Hw. cbn. split; [exact Hw|]. split.
  - exists []. rewrite app_nil_r. split; [reflexivity | constructor].
  - intros. exact I.
Qed.

Lemma sound_call (A : Type) (op : Op) (action : nat -> DB -> A * DB) (Q : A -> Prop) :
  P (EvCall op false) -> P (EvCall op true) ->
  (forall d k, Inv d k -> faults env k op = false ->
               Inv (snd (action k d)) (S k) /\ Q (fst (action k d))) ->
  sound Inv P (call env op action) Q.
Proof.
  intros Pf Pt Hact w Hw.
  destruct (faults env (calls w) op) eqn:F.
  - rewrite call_throws by exact F. cbn. split; [apply Inv_next, Hw|]. split.
    + exists [EvCall op false]. split; [reflexivity|]. constructor; [exact Pf | constructor].
    + intros a E. discriminate E.
  - rewrite call_returns by exact F. cbn.
    destruct (Hact (db w) (calls w) Hw F) as [HI HQ].
    split; [exact HI|]. split.
    + exists [EvCall op true]. split; [reflexivity|]. constructor; [exact Pt | constructor].
    + intros a E. injection E as <-. exact HQ.
Qed.

(** A call that only reads the store. *)
Lemma sound_read (A : Type) (op : Op) (query : nat -> DB -> A) (Q : A -> Prop) :
  P (EvCall op false) -> P (EvCall op true) ->
  (forall d k, Inv d k -> faults env k op = false -> Q (query k d)) ->
  sound Inv P (call env op (fun k d => (query k d, d))) Q.
Proof.
  intros Pf Pt Hq. apply sound_call; try assumption.
  intros d k Hi F. cbn. split; [apply Inv_next, Hi | apply Hq; assumption].
Qed.

End RunLogic.

(* ------------------------------------------------------------------ *)
(** ** Maps and the grouping of alerts *)

Module JsMapFacts.

Section WithValue.

Variable V : Type.

Lemma get_In (m : JsMap.t V) (k : string) (v : V) :
  JsMap.get m k = Some v -> In (k, v) m.
Proof.
  induction m as [|[k' v'] m IH]; cbn; intro H.
  - discriminate H.
  - destruct (String.eqb_spec k' k) as [->|N].
    + injection H as ->. left. reflexivity.
    + right. apply IH, H.
Qed.

Lemma get_set_same (m : JsMap.t V) (k : string) (v : V) :
  JsMap.get (JsMap.set m k v) k = Some v.
Proof.
  induction m as [|[k' v'] m IH]; cbn.
  - rewrite String.eqb_refl. reflexivity.
  - destruct (String.eqb_spec k' k) as [->|N]; cbn.
    + rewrite String.eqb_refl. reflexivity.
    + destruct (String.eqb_spec k' k) as [E|_]; [contradiction | exact IH].
Qed.

Lemma get_set_other (m : JsMap.t V) (k k' : string) (v : V) :
  k <> k' -> JsMap.get (JsMap.set m k v) k' = JsMap.get m k'.
Proof.
  intro N. induction m as [|[k0 v0] m IH]; cbn.
  - destruct (String.eqb_spec k k') as [E|_]; [contradiction | reflexivity].
  - destruct (String.eqb_spec k0 k) as [->|N0]; cbn.
    + destruct (String.eqb_spec k k') as [E|_]; [contradiction | reflexivity].
    + rewrite IH. reflexivity.
Qed.

Lemma set_In (m : JsMap.t V) (k k' : string) (v v' : V) :
  In (k', v') (JsMap.set m k v) -> (k' = k /\ v' = v) \/ In (k', v') m.
Proof.
  induction m as [|[k0 v0] m IH]; cbn; intro H.
  - destruct H as [E|[]]. injection E as <- <-. left. split; reflexivity.
  - destruct (String.eqb_spec k0 k) as [->|N0]; cbn in H.
    + destruct H as [E|H]; [injection E as <- <-; left; split; reflexivity | right; right; exact H].
    + destruct H as [E|H]; [right; left; exact E|].
      destruct (IH H) as [L|R]; [left; exact L | right; right; exact R].
Qed.

Lemma keys_set (m : JsMap.t V) (k k' : string) (v : V) :
  In k' (JsMap.keys (JsMap.set m k v)) -> k' = k \/ In k' (JsMap.keys m).
Proof.
  unfold JsMap.keys. rewrite !in_map_iff.
  intros ([k0 v0] & E & H). cbn in E. subst k0.
  destruct (set_In _ _ _ _ _ H) as [[-> _]|H'].
  - left. reflexivity.
  - right. exists (k', v0). split; [reflexivity | exact H'].
Qed.

(** [set] never repeats a key. *)
Lemma set_NoDup (m : JsMap.t V) (k : string) (v : V) :
  NoDup (JsMap.keys m) -> NoDup (JsMap.keys (JsMap.set m k v)).
Proof.
  induction m as [|[k0 v0] m IH]; cbn; intro H.
  - constructor; [intros [] | constructor].
  - inversion H as [|? ? Hnot Hrest]; subst.
    destruct (String.eqb_spec k0 k) as [->|N0]; cbn.
    + constructor; assumption.
    + constructor; [|apply IH, Hrest].
      intro Hin. apply keys_set in Hin. destruct Hin as [E|Hin]; [congruence | contradiction].
Qed.

(** In a map without repeated keys an entry is what [get] finds. *)
Lemma In_get (m : JsMap.t V) (k : string) (v : V) :
  NoDup (JsMap.keys m) -> In (k, v) m -> JsMap.get m k = Some v.
Proof.
  induction m as [|[k0 v0] m IH]; cbn; intros H Hin.
  - destruct Hin.
  - inversion H as [|? ? Hnot Hrest]; subst.
    destruct Hin as [E|Hin].
    + injection E as -> ->. rewrite String.eqb_refl. reflexivity.
    + destruct (String.eqb_spec k0 k) as [->|N0].
      * exfalso. apply Hnot. unfold JsMap.keys. apply in_map_iff.
        exists (k, v). split; [reflexivity | exact Hin].
      * apply IH; assumption.
Qed.

End WithValue.

Lemma price_map_NoDup (body : list (string * float)) :
  NoDup (JsMap.keys (CryptoService.price_map body)).
Proof.
  unfold CryptoService.price_map.
  assert (forall m : JsMap.t float, NoDup (JsMap.keys m) ->
            NoDup (JsMap.keys (fold_left (fun m kv => JsMap.set m (fst kv) (snd kv)) body m))) as G.
  { induction body as [|kv body IH]; cbn; intros m Hm.
    - exact Hm.
    - apply IH, set_NoDup, Hm. }
  apply G. constructor.
Qed.

End JsMapFacts.

Lemma group_step_grouped (seen : list AlertConfig) (m : JsMap.t (list AlertConfig))
    (alert : AlertConfig) :
  grouped seen m -> grouped (seen ++ [alert]) (group_step m alert).
Proof.
  intros [G1 G2]. unfold group_step.
  set (k := cryptoId alert).
  set (m1 := if JsMap.has m k then m else JsMap.set m k []).
  assert (exists alerts, JsMap.get m1 k = Some alerts
            /\ forall a, In a alerts -> In a seen /\ cryptoId a = k) as (alerts & Eg & Hal).
  { subst m1. unfold JsMap.has. destruct (JsMap.get m k) as [alerts|] eqn:E.
    - exists alerts. split; [exact E|]. intros a Ha.
      exact (G1 k alerts a (JsMapFacts.get_In _ _ _ _ E) Ha).
    - exists []. split; [apply JsMapFacts.get_set_same | intros a []]. }
  assert (forall c l a, In (c, l) m1 -> In a l -> In a seen /\ cryptoId a = c) as G1'.
  { subst m1. destruct (JsMap.has m k); [exact G1|].
    intros c l a Hin Ha. apply JsMapFacts.set_In in Hin.
    destruct Hin as [[_ ->]|Hin]; [destruct Ha | exact (G1 c l a Hin Ha)]. }
  assert (forall a, In a seen -> exists l, JsMap.get m1 (cryptoId a) = Some l /\ In a l) as G2'.
  { subst m1. unfold JsMap.has. destruct (JsMap.get m k) eqn:E; [exact G2|].
    intros a Ha. destruct (G2 a Ha) as (l & El & Hl).
    exists l. split; [|exact Hl].
    rewrite JsMapFacts.get_set_other; [exact El|]. intro N. rewrite <- N in El. congruence. }
  rewrite Eg. split.
  - intros c l a Hin Ha. apply JsMapFacts.set_In in Hin.
    destruct Hin as [[-> ->]|Hin].
    + apply in_app_or in Ha. destruct Ha as [Ha|[<-|[]]].
      * destruct (Hal a Ha) as [S1 S2]. split; [apply in_or_app; left; exact S1 | exact S2].
      * split; [apply in_or_app; right; left; reflexivity | reflexivity].
    + destruct (G1' c l a Hin Ha) as [S1 S2].
      split; [apply in_or_app; left; exact S1 | exact S2].
  - intros a Ha. apply in_app_or in Ha. destruct Ha as [Ha|[<-|[]]].
    + destruct (G2' a Ha) as (l & El & Hl).
      destruct (String.eqb_spec k (cryptoId a)) as [E|N].
      * rewrite <- E in El. rewrite Eg in El. injection El as <-.
        exists (alerts ++ [alert]). rewrite <- E.
        split; [apply JsMapFacts.get_set_same | apply in_or_app; left; exact Hl].
      * exists l. split; [|exact Hl].
        rewrite JsMapFacts.get_set_other by exact N. exact El.
    + exists (alerts ++ [alert]).
      split; [apply JsMapFacts.get_set_same | apply in_or_app; right; left; reflexivity].
Qed.

Lemma group_by_crypto_grouped (activeAlerts : list AlertConfig) :
  grouped activeAlerts (group_by_crypto activeAlerts).
Proof.
  unfold group_by_crypto.
  assert (forall seen m, grouped seen m ->
            grouped (seen ++ activeAlerts) (fold_left group_step activeAlerts m)) as G.
  { induction activeAlerts as [|a l IH]; cbn; intros seen m Hg.
    - rewrite app_nil_r. exact Hg.
    - replace (seen ++ a :: l) with ((seen ++ [a]) ++ l)
        by (rewrite <- app_assoc; reflexivity).
      apply IH, group_step_grouped, Hg. }
  apply (G [] []). split.
  - intros c alerts a [].
  - intros a [].
Qed.

(* ------------------------------------------------------------------ *)
(** ** The phases of a tick *)

(** What a tick that got its prices has loaded. *)
Lemma load_and_fetch_loaded (env : Env) (w0 w1 : World)
    (alertsByCrypto : JsMap.t (list AlertConfig)) (currentPrices : JsMap.t float) :
  load_and_fetch env w0 = (Ok (Some (alertsByCrypto, currentPrices)), w1) ->
  alertsByCrypto = group_by_crypto (select_active_alerts (db w0))
  /\ db w1 = db w0
  /\ (calls w0 <= calls w1)%nat
  /\ NoDup (JsMap.keys currentPrices)
  /\ exists evs, trace w1 = trace w0 ++ evs /\ Forall prologue_event evs.
Proof.
  unfold load_and_fetch, bind, getAllActiveAlerts, CryptoService.getCurrentPrices,
    call, logger, record, ret.
  destruct (faults env (calls w0) OpGetAllActiveAlerts); [discriminate|]. cbn.
  destruct (List.length (select_active_alerts (db w0)) =? 0)%nat; [discriminate|]. cbn.
  destruct (JsMap.keys (group_by_crypto (select_active_alerts (db w0)))) as [|id ids] eqn:K; cbn.
  - intro E. injection E as <- <- <-. cbn.
    repeat split; try lia; [constructor|].
    eexists. rewrite <- app_assoc. split; [reflexivity|]. repeat constructor.
  - destruct (faults env (S (calls w0)) (OpGetCurrentPrices (id :: ids))); [discriminate|]. cbn.
    intro E. injection E as <- <- <-. cbn.
    repeat split; try lia; [apply JsMapFacts.price_map_NoDup|].
    eexists. rewrite <- !app_assoc. split; [reflexivity|]. repeat constructor.
Qed.

(** The rest of the tick once the prices are there. *)
Lemma checkPriceChanges_loaded (env : Env) (w w1 : World)
    (alertsByCrypto : JsMap.t (list AlertConfig)) (currentPrices : JsMap.t float) :
  load_and_fetch env (record (EvLog Info StartingCheck) w)
  = (Ok (Some (alertsByCrypto, currentPrices)), w1) ->
  checkPriceChanges env w =
  match save_prices env currentPrices w1 with
  | (Ok _, w2) =>
      match check_alerts env alertsByCrypto currentPrices w2 with
      | (Ok _, w3) => (Ok tt, record (EvLog Info CheckCompleted) w3)
      | (Throw _, w3) => (Ok tt, record (EvLog Error ErrorDuringCheck) w3)
      end
  | (Throw _, w2) => (Ok tt, record (EvLog Error ErrorDuringCheck) w2)
  end.
Proof.
  intro H. unfold checkPriceChanges, bind, try_catch.
  change (logger Info StartingCheck w) with (Ok tt, record (EvLog Info StartingCheck) w).
  cbn iota. rewrite H. cbn iota.
  destruct (save_prices env currentPrices w1) as [[[]|e] w2]; [|reflexivity].
  destruct (check_alerts env alertsByCrypto currentPrices w2) as [[[]|e] w3]; reflexivity.
Qed.

Lemma for_of_cons_ok (A : Type) (x : A) (xs : list A) (body : A -> M unit) (w w2 : World) :
  body x w = (Ok tt, w2) -> for_of (x :: xs) body w = for_of xs body w2.
Proof. intro H. cbn [for_of]. unfold bind. rewrite H. reflexivity. Qed.

Lemma for_of_cons_throw (A : Type) (x : A) (xs : list A) (body : A -> M unit)
    (w w2 : World) (e : Exn) :
  body x w = (Throw e, w2) -> for_of (x :: xs) body w = (Throw e, w2).
Proof. intro H. cbn [for_of]. unfold bind. rewrite H. reflexivity. Qed.

(** The save loop stops at the first INSERT that fails: the entries before
    it are recorded, the others are not. *)
Lemma save_prices_stops (env : Env) (before after : list (string * float))
    (a : string) (pa : float) (w1 : World) :
  (forall i entry, nth_error before i = Some entry ->
     faults env (calls w1 + i) (OpSavePriceHistory (fst entry) (snd entry)) = false) ->
  faults env (calls w1 + List.length before) (OpSavePriceHistory a pa) = true ->
  let out := save_prices env (before ++ (a, pa) :: after) w1 in
  fst out = Throw (CallFailed (OpSavePriceHistory a pa))
  /\ recorded (db (snd out)) = recorded (db w1) ++ before
  /\ alert_logs (db (snd out)) = alert_logs (db w1)
  /\ trace (snd out) =
     trace w1 ++ map saved before ++ [EvCall (OpSavePriceHistory a pa) false].
Proof.
  unfold save_prices, JsMap.entries.
  revert w1. induction before as [|[b pb] before IH]; intros w1 Hok Hfail; cbn [app].
  - rewrite Nat.add_0_r in Hfail.
    erewrite for_of_cons_throw
      by (unfold savePriceHistory; cbn [fst snd]; apply call_throws; exact Hfail).
    cbn. rewrite app_nil_r. repeat split; reflexivity.
  - pose proof (Hok 0%nat (b, pb) eq_refl) as F0. rewrite Nat.add_0_r in F0. cbn in F0.
    erewrite for_of_cons_ok
      by (unfold savePriceHistory; cbn [fst snd]; apply call_returns; exact F0).
    cbn [fst snd].
    set (w2 := {| db := insert_price_history (clock env (calls w1)) b pb (db w1);
                  calls := S (calls w1);
                  trace := trace w1 ++ [EvCall (OpSavePriceHistory b pb) true] |}).
    destruct (IH w2) as (R1 & R2 & R3 & R4).
    + intros i entry Hi. cbn [calls w2].
      replace (S (calls w1) + i)%nat with (calls w1 + S i)%nat by lia.
      apply Hok. exact Hi.
    + cbn [calls w2].
      replace (S (calls w1) + List.length before)%nat
        with (calls w1 + List.length ((b, pb) :: before))%nat by (cbn; lia).
      exact Hfail.
    + split; [exact R1|]. split; [|split].
      * rewrite R2. unfold recorded. cbn. rewrite map_app, <- app_assoc. reflexivity.
      * rewrite R3. reflexivity.
      * rewrite R4. cbn. rewrite <- app_assoc. reflexivity.
Qed.

(* ------------------------------------------------------------------ *)
(** ** Recording the samples *)




(* ------------------------------------------------------------------ *)
(** ** The evaluation phase *)

Lemma nth_error_last (A : Type) (l : list A) (x : A) :
  nth_error l (List.length l - 1) = Some x -> exists l', l = l' ++ [x].
Proof.
  intro H. destruct l as [|y l]; [discriminate H|].
  assert (y :: l <> []) as N by discriminate.
  destruct (exists_last N) as (l' & z & E). rewrite E in H |- *.
  rewrite length_app in H. cbn in H.
  replace (List.length l' + 1 - 1)%nat with (List.length l' + 0)%nat in H by lia.
  rewrite nth_error_app2 in H by lia.
  replace (List.length l' + 0 - List.length l')%nat with 0%nat in H by lia.
  cbn in H. injection H as ->. exists l'. reflexivity.
Qed.

Section Evaluation.

Variable env : Env.
Variable Inv : DB -> nat -> Prop.
Variable P : Event -> Prop.

Hypothesis Inv_next : forall d k, Inv d k -> Inv d (S k).

Lemma sound_last_price (h : list PriceHistory) (Q : float -> Prop) :
  (forall newer b, h = newer ++ [b] -> Q (price b)) ->
  sound Inv P (last_price h) Q.
Proof.
  intro H. unfold last_price.
  destruct (nth_error h (List.length h - 1)) as [r|] eqn:E.
  - destruct (nth_error_last _ _ _ E) as (newer & ->).
    apply sound_ret. apply (H newer r). reflexivity.
  - apply sound_throw.
Qed.

Section OneAlert.

Variable a : AlertConfig.
Variable currentPrice : float.

(** What is known of the rows the history query returns, and of the
    decision. *)
Variable Qh : list PriceHistory -> Prop.
Variable R : bool -> Prop.

Hypothesis P_decision : forall ev, decision_event env a ev -> P ev.

Hypothesis Qh_query : forall d k, Inv d k ->
  faults env k (OpGetPriceHistory (cryptoId a) (timeframeMinutes a)) = false ->
  Qh (select_price_history (clock env k) (cryptoId a) (timeframeMinutes a) d).

Hypothesis P_empty : Qh [] -> P (EvLog Debug (NoPriceHistory (cryptoId a))).

Hypothesis R_decided : forall newer b, Qh (newer ++ [b]) ->
  R (JsNumber.dropReached (JsNumber.pctChange currentPrice (price b))
       (thresholdPercentage a)).

Hypothesis R_false : R false.

Hypothesis P_should : R true ->
  forall pct, P (EvLog Info (ShouldTrigger (alert_id a) pct)).

Lemma sound_shouldTriggerAlert : sound Inv P (shouldTriggerAlert env a currentPrice) R.
Proof.
  unfold shouldTriggerAlert. apply sound_try_catch.
  - eapply sound_bind.
    + unfold getRecentAlertLogs.
      apply sound_read with (Q := anything); try exact Inv_next;
        try (apply P_decision; cbn; split; reflexivity).
      intros. exact I.
    + intros recentLogs _. destruct (0 <? List.length recentLogs)%nat.
      * eapply sound_bind; [apply sound_logger, P_decision; reflexivity|].
        intros _ _. apply sound_ret, R_false.
      * eapply sound_bind.
        -- unfold getPriceHistory.
           apply sound_read with (Q := Qh); try exact Inv_next;
             try (apply P_decision; cbn; split; reflexivity).
           exact Qh_query.
        -- intros h Hh. destruct h as [|r h]; cbn [List.length Nat.eqb].
           ++ eapply sound_bind; [apply sound_logger, P_empty, Hh|].
              intros _ _. apply sound_ret, R_false.
           ++ eapply sound_bind.
              ** apply sound_last_price with
                   (Q := fun v => R (JsNumber.dropReached
                                       (JsNumber.pctChange currentPrice v)
                                       (thresholdPercentage a))).
                 intros newer b E. apply R_decided with newer. rewrite <- E. exact Hh.
              ** intros v Hv. cbn beta in Hv. eapply sound_bind.
                 --- destruct (JsNumber.dropReached _ _).
                     +++ apply sound_logger, P_should, Hv.
                     +++ apply sound_ret. exact I.
                 --- intros _ _. apply sound_ret, Hv.
  - intros e. eapply sound_bind; [apply sound_logger, P_decision; reflexivity|].
    intros _ _. apply sound_ret, R_false.
Qed.

Hypothesis Inv_log : forall d k id t pc o n s, Inv d k ->
  Inv (snd (insert_alert_log id t pc o n s d)) (S k).

Lemma sound_triggerAlert (priceChange oldPrice newPrice : float) :
  (forall ev, trigger_event a ev -> P ev) ->
  sound Inv P (triggerAlert env a priceChange oldPrice newPrice) anything.
Proof.
  intro P_trigger. unfold triggerAlert. apply sound_try_catch.
  - eapply sound_bind; [apply sound_logger, P_trigger; reflexivity|]. intros _ _.
    eapply sound_bind; [apply sound_new_Date|]. intros now _.
    eapply sound_bind.
    { unfold createAlertLog. apply sound_call with (Q := anything); try exact Inv_next;
        try (apply P_trigger; reflexivity).
      intros d k Hd _. split; [apply Inv_log, Hd | exact I]. }
    intros _ _. eapply sound_bind.
    { unfold CryptoService.getCoinInfo.
      apply sound_read with (Q := anything); try exact Inv_next;
        try (apply P_trigger; reflexivity).
      intros. exact I. }
    intros coinInfo _. eapply sound_bind.
    { unfold getUserByTelegramId.
      apply sound_read with (Q := anything); try exact Inv_next;
        try (apply P_trigger; reflexivity).
      intros. exact I. }
    intros [user|] _.
    + apply sound_try_catch.
      * eapply sound_bind.
        { unfold Bot.sendMessage.
          apply sound_read with (Q := anything) (query := fun _ _ => tt);
            try exact Inv_next; try (apply P_trigger; exact I).
          intros. exact I. }
        intros _ _. eapply sound_bind.
        { unfold getRecentAlertLogs.
          apply sound_read with (Q := anything); try exact Inv_next;
            try (apply P_trigger; cbn; split; reflexivity).
          intros. exact I. }
        intros alertLogs _. destruct (0 <? List.length alertLogs)%nat.
        -- apply sound_logger, P_trigger. exact I.
        -- apply sound_ret. exact I.
      * intros e. apply sound_logger, P_trigger. exact I.
    + apply sound_logger, P_trigger. reflexivity.
  - intros e. apply sound_logger, P_trigger. exact I.
Qed.

Hypothesis P_caught : P (EvLog Error (ErrorCheckingAlert (alert_id a))).

Hypothesis P_trigger : R true -> forall ev, trigger_event a ev -> P ev.

Lemma sound_check_alert : sound Inv P (check_alert env currentPrice a) anything.
Proof.
  unfold check_alert. apply sound_try_catch.
  - eapply sound_bind; [apply sound_shouldTriggerAlert|].
    intros [|] Hfire; [|apply sound_ret; exact I].
    eapply sound_bind.
    { unfold getPriceHistory.
      apply sound_read with (Q := anything); try exact Inv_next;
        try (apply P_decision; cbn; split; reflexivity).
      intros. exact I. }
    intros h _. destruct (0 <? List.length h)%nat; [|apply sound_ret; exact I].
    eapply sound_bind; [apply sound_last_price with (Q := anything); intros; exact I|].
    intros oldPrice _. apply sound_triggerAlert. exact (P_trigger Hfire).
  - intros e. apply sound_logger, P_caught.
Qed.

End OneAlert.

End Evaluation.

Lemma sound_check_crypto (env : Env) (Inv : DB -> nat -> Prop) (P : Event -> Prop)
    (currentPrices : JsMap.t float) (c : string) (alerts : list AlertConfig) :
  (forall a p, In a alerts -> JsMap.get currentPrices c = Some p ->
               JsNumber.falsy p = false ->
               sound Inv P (check_alert env p a) anything) ->
  ((forall p, JsMap.get currentPrices c = Some p -> JsNumber.falsy p = true) ->
   P (EvLog Warn (NoCurrentPrice c))) ->
  sound Inv P (check_crypto env currentPrices (c, alerts)) anything.
Proof.
  intros Halert Hwarn. unfold check_crypto.
  destruct (JsMap.get currentPrices c) as [p|] eqn:G.
  - destruct (JsNumber.falsy p) eqn:F.
    + apply sound_logger, Hwarn. intros p' E. injection E as <-. exact F.
    + apply sound_for_of. intros a Ha. apply Halert; [exact Ha | reflexivity | exact F].
  - apply sound_logger, Hwarn. intros p' E. discriminate E.
Qed.

Lemma sound_check_alerts (env : Env) (Inv : DB -> nat -> Prop) (P : Event -> Prop)
    (alertsByCrypto : JsMap.t (list AlertConfig)) (currentPrices : JsMap.t float) :
  (forall c alerts a p, In (c, alerts) alertsByCrypto -> In a alerts ->
     JsMap.get currentPrices c = Some p -> JsNumber.falsy p = false ->
     sound Inv P (check_alert env p a) anything) ->
  (forall c alerts, In (c, alerts) alertsByCrypto ->
     (forall p, JsMap.get currentPrices c = Some p -> JsNumber.falsy p = true) ->
     P (EvLog Warn (NoCurrentPrice c))) ->
  sound Inv P (check_alerts env alertsByCrypto currentPrices) anything.
Proof.
  intros Halert Hwarn. unfold check_alerts, JsMap.entries.
  apply sound_for_of. intros [c alerts] Hin. apply sound_check_crypto.
  - intros a p Ha. apply (Halert c alerts a p Hin Ha).
  - apply (Hwarn c alerts Hin).
Qed.

(** ** Events that do occur *)

Lemma sound_extends (A : Type) (m : M A) (Q : A -> Prop) :
  sound no_invariant any_event m Q -> extends m.
Proof.
  intros H w. destruct (H w I) as (_ & (evs & T & _) & _). exists evs. exact T.
Qed.

Lemma starts_call_bind (env : Env) (A B : Type) (op : Op) (action : nat -> DB -> A * DB)
    (f : A -> M B) :
  (forall x, extends (f x)) ->
  starts (bind (call env op action) f) (fun ev => exists ok, ev = EvCall op ok).
Proof.
  intros Hf w. unfold bind.
  destruct (faults env (calls w) op) eqn:F.
  - rewrite call_throws by exact F. cbn.
    exists (EvCall op false), []. split; [eauto | reflexivity].
  - rewrite call_returns by exact F.
    match goal with |- context [f ?x ?w'] => destruct (Hf x w') as (evs & T) end.
    exists (EvCall op true), evs. split; [eauto|].
    rewrite T. cbn. rewrite <- app_assoc. reflexivity.
Qed.

Lemma starts_bind (A B : Type) (m : M A) (f : A -> M B) (E : Event -> Prop) :
  starts m E -> (forall x, extends (f x)) -> starts (bind m f) E.
Proof.
  intros Hm Hf w. unfold bind. destruct (Hm w) as (ev & evs & He & T).
  destruct (m w) as [[x|e] w1]; cbn in *.
  - destruct (Hf x w1) as (evs' & T'). exists ev, (evs ++ evs').
    split; [exact He|]. rewrite T', T, <- app_assoc. reflexivity.
  - exists ev, evs. split; assumption.
Qed.

Lemma starts_try_catch (A : Type) (body : M A) (handler : Exn -> M A) (E : Event -> Prop) :
  starts body E -> (forall e, extends (handler e)) -> starts (try_catch body handler) E.
Proof.
  intros Hm Hh w. unfold try_catch. destruct (Hm w) as (ev & evs & He & T).
  destruct (body w) as [[x|e] w1]; cbn in *.
  - exists ev, evs. split; assumption.
  - destruct (Hh e w1) as (evs' & T'). exists ev, (evs ++ evs').
    split; [exact He|]. rewrite T', T, <- app_assoc. reflexivity.
Qed.

Lemma starts_eventually (A : Type) (m : M A) (E : Event -> Prop) :
  starts m E -> eventually m E.
Proof.
  intros H w. destruct (H w) as (ev & evs & He & T).
  exists (ev :: evs). split; [exact T | left; exact He].
Qed.

Lemma for_of_returns (A : Type) (xs : list A) (body : A -> M unit) :
  (forall x, In x xs -> returns (body x)) -> returns (for_of xs body).
Proof.
  induction xs as [|x xs IH]; intros H w; cbn [for_of].
  - reflexivity.
  - unfold bind. pose proof (H x (or_introl eq_refl) w) as Hx.
    destruct (body x w) as [[[]|e] w1]; cbn in Hx; [|discriminate Hx].
    apply IH. intros y Hy. apply H. right. exact Hy.
Qed.

(** A loop whose bodies return and only append reaches each element. *)
Lemma for_of_eventually (A : Type) (xs : list A) (body : A -> M unit)
    (x : A) (E : Event -> Prop) :
  (forall y, In y xs -> returns (body y) /\ extends (body y)) ->
  In x xs -> eventually (body x) E ->
  eventually (for_of xs body) E.
Proof.
  intros Hall Hin Hx. induction xs as [|y xs IH]; [destruct Hin|].
  intros w. cbn [for_of]. unfold bind.
  destruct (Hall y (or_introl eq_refl)) as [Ry Ey].
  pose proof (Ry w) as Ryw. destruct (Ey w) as (evs & T).
  destruct Hin as [->|Hin].
  - destruct (Hx w) as (evs1 & T1 & X1).
    destruct (body x w) as [[[]|e] w1]; cbn in *; [|discriminate Ryw].
    assert (extends (for_of xs body)) as Hrest.
    { clear - Hall. induction xs as [|z xs IH]; intro w0; cbn [for_of].
      - exists []. rewrite app_nil_r. reflexivity.
      - unfold bind. destruct (Hall z (or_intror (or_introl eq_refl))) as [_ Ez].
        destruct (Ez w0) as (e1 & T1).
        destruct (body z w0) as [[[]|e] w2]; cbn in *.
        + destruct IH with (w := w2) as (e2 & T2).
          * intros u [->|Hu]; apply Hall; [left; reflexivity | right; right; exact Hu].
          * exists (e1 ++ e2). rewrite T2, T1, app_assoc. reflexivity.
        + exists e1. exact T1. }
    destruct (Hrest w1) as (evs2 & T2).
    exists (evs1 ++ evs2). rewrite T2, T1, app_assoc. split; [reflexivity|].
    apply Exists_app. left. exact X1.
  - destruct (body y w) as [[[]|e] w1]; cbn in *; [|discriminate Ryw].
    destruct IH with (w := w1) as (evs2 & T2 & X2).
    + intros z Hz. apply Hall. right. exact Hz.
    + exact Hin.
    + exists (evs ++ evs2). rewrite T2, T, app_assoc. split; [reflexivity|].
      apply Exists_app. right. exact X2.
Qed.

Lemma no_invariant_next (d : DB) (k : nat) : no_invariant d k -> no_invariant d (S k).
Proof. intros _. exact I. Qed.

(** Soundness with nothing to maintain, by walking the program. *)
Ltac trivially_sound env :=
  repeat first
    [ apply sound_ret; exact I
    | apply sound_throw
    | apply sound_logger; exact I
    | apply (sound_new_Date env)
    | apply sound_last_price with (Q := anything); intros; exact I
    | apply (sound_read env) with (Q := anything); [exact no_invariant_next | intros; exact I ..]
    | apply (sound_call env) with (Q := anything);
        [exact no_invariant_next | exact I | exact I | intros; split; exact I]
    | apply (sound_triggerAlert env); [exact no_invariant_next | intros; exact I ..]
    | eapply sound_bind with (Q := anything); [|intros ? _]
    | apply sound_try_catch; [|intros ?]
    | match goal with
      | |- sound _ _ (if ?b then _ else _) _ => destruct b
      | |- sound _ _ (match ?x with Some _ => _ | None => _ end) _ => destruct x
      end ].

Lemma shouldTriggerAlert_starts (env : Env) (a : AlertConfig) (currentPrice : float) :
  starts (shouldTriggerAlert env a currentPrice) (cooldown_query env a).
Proof.
  unfold shouldTriggerAlert, cooldown_query. apply starts_try_catch.
  - unfold getRecentAlertLogs. apply starts_call_bind.
    intros recentLogs. apply sound_extends with (Q := anything).
    unfold getPriceHistory. trivially_sound env.
  - intros e. apply sound_extends with (Q := anything). trivially_sound env.
Qed.

Lemma check_alert_starts (env : Env) (a : AlertConfig) (currentPrice : float) :
  starts (check_alert env currentPrice a) (cooldown_query env a).
Proof.
  unfold check_alert. apply starts_try_catch.
  - apply starts_bind; [apply shouldTriggerAlert_starts|].
    intros fire. apply sound_extends with (Q := anything).
    unfold getPriceHistory. trivially_sound env.
  - intros e. apply sound_extends with (Q := anything). trivially_sound env.
Qed.

Lemma check_alert_extends (env : Env) (a : AlertConfig) (currentPrice : float) :
  extends (check_alert env currentPrice a).
Proof.
  intro w. destruct (check_alert_starts env a currentPrice w) as (ev & evs & _ & T).
  exists (ev :: evs). exact T.
Qed.

Lemma check_crypto_returns (env : Env) (currentPrices : JsMap.t float)
    (entry : string * list AlertConfig) :
  returns (check_crypto env currentPrices entry).
Proof.
  destruct entry as [c alerts]. unfold check_crypto.
  destruct (JsMap.get currentPrices c) as [p|]; [|intro w; reflexivity].
  destruct (JsNumber.falsy p); [intro w; reflexivity|].
  apply for_of_returns. intros a _ w. apply check_alert_returns.
Qed.

Lemma check_crypto_extends (env : Env) (currentPrices : JsMap.t float)
    (entry : string * list AlertConfig) :
  extends (check_crypto env currentPrices entry).
Proof.
  destruct entry as [c alerts]. apply sound_extends with (Q := anything).
  apply sound_check_crypto.
  - intros a p _ _ _. unfold check_alert, shouldTriggerAlert, getRecentAlertLogs, getPriceHistory.
    trivially_sound env.
  - intros _. exact I.
Qed.

Lemma check_alerts_returns (env : Env) (alertsByCrypto : JsMap.t (list AlertConfig))
    (currentPrices : JsMap.t float) :
  returns (check_alerts env alertsByCrypto currentPrices).
Proof.
  apply for_of_returns. intros entry _. apply check_crypto_returns.
Qed.

(** Every alert of a group whose asset has a truthy price is evaluated,
    whatever fails along the way. *)
Lemma check_alerts_evaluates (env : Env) (alertsByCrypto : JsMap.t (list AlertConfig))
    (currentPrices : JsMap.t float) (c : string) (alerts : list AlertConfig)
    (a : AlertConfig) (p : float) :
  In (c, alerts) alertsByCrypto -> In a alerts ->
  JsMap.get currentPrices c = Some p -> JsNumber.falsy p = false ->
  eventually (check_alerts env alertsByCrypto currentPrices) (cooldown_query env a).
Proof.
  intros Hc Ha G F. unfold check_alerts, JsMap.entries.
  apply for_of_eventually with (x := (c, alerts)).
  - intros entry _. split; [apply check_crypto_returns | apply check_crypto_extends].
  - exact Hc.
  - unfold check_crypto. rewrite G, F.
    apply for_of_eventually with (x := a).
    + intros a' _. split; [intro w; apply check_alert_returns | apply check_alert_extends].
    + exact Ha.
    + apply starts_eventually, check_alert_starts.
Qed.

(* ------------------------------------------------------------------ *)
(** ** Alerts and their groups *)

(** The active alerts are the members of the groups. *)
Lemma active_alert_grouped (env : Env) (w0 w1 : World)
    (alertsByCrypto : JsMap.t (list AlertConfig)) (currentPrices : JsMap.t float)
    (a : AlertConfig) :
  load_and_fetch env w0 = (Ok (Some (alertsByCrypto, currentPrices)), w1) ->
  In a (alert_configs (db w0)) -> isActive a = true ->
  exists alerts, In (cryptoId a, alerts) alertsByCrypto /\ In a alerts.
Proof.
  intros H0 Hin Hact.
  destruct (load_and_fetch_loaded env w0 w1 _ _ H0) as (-> & _).
  destruct (group_by_crypto_grouped (select_active_alerts (db w0))) as [_ G2].
  destruct (G2 a) as (alerts & G & Ha).
  - unfold select_active_alerts. apply filter_In. split; assumption.
  - exists alerts. split; [apply JsMapFacts.get_In, G | exact Ha].
Qed.

Lemma grouped_alert_active (env : Env) (w0 w1 : World)
    (alertsByCrypto : JsMap.t (list AlertConfig)) (currentPrices : JsMap.t float)
    (c : string) (alerts : list AlertConfig) (a : AlertConfig) :
  load_and_fetch env w0 = (Ok (Some (alertsByCrypto, currentPrices)), w1) ->
  In (c, alerts) alertsByCrypto -> In a alerts ->
  In a (alert_configs (db w0)) /\ isActive a = true /\ cryptoId a = c.
Proof.
  intros H0 Hc Ha.
  destruct (load_and_fetch_loaded env w0 w1 _ _ H0) as (-> & _).
  destruct (group_by_crypto_grouped (select_active_alerts (db w0))) as [G1 _].
  destruct (G1 c alerts a Hc Ha) as [Hin Hk].
  unfold select_active_alerts in Hin. apply filter_In in Hin.
  destruct Hin as [H1 H2]. repeat split; assumption.
Qed.

Lemma NoDup_map_injective (A B : Type) (f : A -> B) (l : list A) (x y : A) :
  NoDup (map f l) -> In x l -> In y l -> f x = f y -> x = y.
Proof.
  induction l as [|z l IH]; cbn; intros N Hx Hy E; [destruct Hx|].
  inversion N as [|? ? Hnot Hrest]; subst.
  destruct Hx as [->|Hx], Hy as [->|Hy].
  - reflexivity.
  - exfalso. apply Hnot. rewrite E. apply in_map, Hy.
  - exfalso. apply Hnot. rewrite <- E. apply in_map, Hx.
  - apply IH; assumption.
Qed.

(* ------------------------------------------------------------------ *)
(** ** What concerns one alert *)

Lemma decision_event_other (env : Env) (a a' : AlertConfig) (ev : Event) :
  alert_id a' <> alert_id a -> decision_event env a' ev -> ~ concerns a ev.
Proof.
  intros N D C. destruct ev as [[]|[] []]; cbn in D, C; try contradiction;
    try (apply proj1 in D); congruence.
Qed.

Lemma trigger_event_other (a a' : AlertConfig) (ev : Event) :
  alert_id a' <> alert_id a -> trigger_event a' ev -> ~ concerns a ev.
Proof.
  intros N D C. destruct ev as [[]|[] []]; cbn in D, C; try contradiction;
    try (apply proj1 in D); congruence.
Qed.

(** The evaluation of another alert never concerns [a]. *)
Lemma check_alert_other (env : Env) (Inv : DB -> nat -> Prop) (a a' : AlertConfig)
    (p : float) :
  (forall d k, Inv d k -> Inv d (S k)) ->
  (forall d k id t pc o n s, Inv d k ->
     Inv (snd (insert_alert_log id t pc o n s d)) (S k)) ->
  alert_id a' <> alert_id a ->
  sound Inv (fun ev => ~ concerns a ev) (check_alert env p a') anything.
Proof.
  intros Inv_next Inv_log N.
  apply (sound_check_alert env Inv (fun ev => ~ concerns a ev) Inv_next
           a' p anything anything).
  - intros ev. apply decision_event_other, N.
  - intros. exact I.
  - intros _ C. exact C.
  - intros. exact I.
  - exact I.
  - intros _ pct. cbn. exact N.
  - exact Inv_log.
  - cbn. exact N.
  - intros _ ev. apply trigger_event_other, N.
Qed.

Lemma check_alerts_warns (env : Env) (alertsByCrypto : JsMap.t (list AlertConfig))
    (currentPrices : JsMap.t float) (c : string) (alerts : list AlertConfig) :
  In (c, alerts) alertsByCrypto ->
  (forall p, JsMap.get currentPrices c = Some p -> JsNumber.falsy p = true) ->
  eventually (check_alerts env alertsByCrypto currentPrices)
    (fun ev => ev = EvLog Warn (NoCurrentPrice c)).
Proof.
  intros Hc Hno. unfold check_alerts, JsMap.entries.
  apply for_of_eventually with (x := (c, alerts)).
  - intros entry _. split; [apply check_crypto_returns | apply check_crypto_extends].
  - exact Hc.
  - intro w. exists [EvLog Warn (NoCurrentPrice c)].
    split; [|left; reflexivity].
    unfold check_crypto. destruct (JsMap.get currentPrices c) as [p|].
    + rewrite (Hno p eq_refl). reflexivity.
    + reflexivity.
Qed.

Lemma check_alerts_extends (env : Env) (alertsByCrypto : JsMap.t (list AlertConfig))
    (currentPrices : JsMap.t float) :
  extends (check_alerts env alertsByCrypto currentPrices).
Proof.
  apply sound_extends with (Q := anything). apply sound_check_alerts.
  - intros c alerts a p _ _ _ _.
    unfold check_alert, shouldTriggerAlert, getRecentAlertLogs, getPriceHistory.
    trivially_sound env.
  - intros. exact I.
Qed.

(** In a tick that does not evaluate [a], nothing concerns [a]. *)
Lemma check_alerts_skips (env : Env) (w0 w1 : World)
    (alertsByCrypto : JsMap.t (list AlertConfig)) (currentPrices : JsMap.t float)
    (a : AlertConfig) :
  load_and_fetch env w0 = (Ok (Some (alertsByCrypto, currentPrices)), w1) ->
  In a (alert_configs (db w0)) ->
  NoDup (map alert_id (alert_configs (db w0))) ->
  (forall p, JsMap.get currentPrices (cryptoId a) = Some p -> JsNumber.falsy p = true) ->
  sound no_invariant (fun ev => ~ concerns a ev)
    (check_alerts env alertsByCrypto currentPrices) anything.
Proof.
  intros H0 Hin Hids Hno. apply sound_check_alerts.
  - intros c alerts a' p Hc Ha' G F.
    apply check_alert_other; [exact no_invariant_next | intros; exact I |].
    intro E.
    destruct (grouped_alert_active env w0 w1 _ _ c alerts a' H0 Hc Ha') as (Hin' & _ & Hk).
    pose proof (NoDup_map_injective _ _ alert_id _ a' a Hids Hin' Hin E) as ->.
    subst c. rewrite (Hno p G) in F. discriminate F.
  - intros c alerts _ _ C. exact C.
Qed.

(* ------------------------------------------------------------------ *)
(** ** Isolation of failures between alerts *)



(* ------------------------------------------------------------------ *)
(** ** Assets without a price *)




(* ------------------------------------------------------------------ *)
(** ** The sample of the current tick *)

(** A successful save loop has recorded every entry of the price map, each
    stamped by the clock of its own call, and has kept the older rows. *)
Lemma save_prices_records (env : Env) (currentPrices : JsMap.t float) (w1 w2 : World) :
  save_prices env currentPrices w1 = (Ok tt, w2) ->
  (calls w1 <= calls w2)%nat
  /\ (forall r, In r (price_history (db w1)) -> In r (price_history (db w2)))
  /\ forall c p, In (c, p) currentPrices ->
       exists r j, In r (price_history (db w2)) /\ ph_cryptoId r = c /\ price r = p
                   /\ (calls w1 <= j)%nat /\ timestamp r = CURRENT_TIMESTAMP (clock env j).
Proof.
  unfold save_prices, JsMap.entries. revert w1.
  induction currentPrices as [|[c0 p0] rest IH]; intros w1 H.
  - cbn in H. injection H as <-. split; [lia|]. split; [auto|]. intros c p [].
  - cbn [for_of] in H. unfold bind in H. unfold savePriceHistory at 1 in H.
    cbn [fst snd] in H.
    destruct (faults env (calls w1) (OpSavePriceHistory c0 p0)) eqn:F.
    + rewrite call_throws in H by exact F. discriminate H.
    + rewrite call_returns in H by exact F. cbn [fst snd] in H.
      destruct (IH _ H) as (K & Hold & Hnew). cbn [calls db] in K, Hold, Hnew.
      split; [lia|]. split.
      * intros r Hr. apply Hold. cbn. apply in_or_app. left. exact Hr.
      * intros c p [E|Hin].
        -- injection E as <- <-.
           exists {| ph_id := seq_price_history (db w1) + 1; ph_cryptoId := c0;
                     price := p0;
                     timestamp := CURRENT_TIMESTAMP (clock env (calls w1)) |}.
           exists (calls w1). cbn. repeat split; try lia.
           apply Hold. cbn. apply in_or_app. right. left. reflexivity.
        -- destruct (Hnew c p Hin) as (r & j & R1 & R2 & R3 & R4 & R5).
           exists r, j. repeat split; try assumption. lia.
Qed.

(** Whatever happens in the save loop, a row of the table is an older row
    or a sample of an entry of the price map. *)
Lemma save_prices_rows (env : Env) (currentPrices : JsMap.t float) (w1 : World) :
  let out := save_prices env currentPrices w1 in
  (exists evs, trace (snd out) = trace w1 ++ evs /\ Forall save_event evs)
  /\ forall r, In r (price_history (db (snd out))) ->
       In r (price_history (db w1)) \/ In (ph_cryptoId r, price r) currentPrices.
Proof.
  set (Inv := fun (d : DB) (_ : nat) =>
         forall r, In r (price_history d) ->
           In r (price_history (db w1)) \/ In (ph_cryptoId r, price r) currentPrices).
  assert (sound Inv save_event (save_prices env currentPrices) anything) as S.
  { unfold save_prices, JsMap.entries. apply sound_for_of. intros [c p] Hin.
    unfold savePriceHistory. cbn [fst snd].
    apply (sound_call env) with (Q := anything).
    - intros d k H. exact H.
    - exact I.
    - exact I.
    - intros d k H _. split; [|exact I]. cbn. intros r Hr.
      apply in_app_or in Hr. destruct Hr as [Hr|[<-|[]]].
      + apply H, Hr.
      + right. exact Hin. }
  destruct (S w1) as (H1 & H2 & _).
  - intros r Hr. left. exact Hr.
  - cbv zeta. split; [exact H2 | exact H1].
Qed.

(** How the events of a tick that got its prices are put together. *)
Lemma tick_events (env : Env) (w w1 : World)
    (alertsByCrypto : JsMap.t (list AlertConfig)) (currentPrices : JsMap.t float)
    (Inv : DB -> nat -> Prop) (P : Event -> Prop) :
  load_and_fetch env (record (EvLog Info StartingCheck) w)
  = (Ok (Some (alertsByCrypto, currentPrices)), w1) ->
  P (EvLog Info StartingCheck) ->
  (forall ev, prologue_event ev -> P ev) ->
  (forall ev, save_event ev -> P ev) ->
  P (EvLog Info CheckCompleted) ->
  P (EvLog Error ErrorDuringCheck) ->
  (forall w2, save_prices env currentPrices w1 = (Ok tt, w2) -> Inv (db w2) (calls w2)) ->
  sound Inv P (check_alerts env alertsByCrypto currentPrices) anything ->
  exists evs, trace (snd (checkPriceChanges env w)) = trace w ++ evs /\ Forall P evs.
Proof.
  intros H0 Pstart Ppro Psave Pdone Perr Hinv Hsound.
  rewrite (checkPriceChanges_loaded env w w1 _ _ H0).
  destruct (load_and_fetch_loaded env _ w1 _ _ H0) as (_ & _ & _ & _ & evs0 & T0 & F0).
  destruct (save_prices_rows env currentPrices w1) as [(evs1 & T1 & F1) _].
  cbn [trace record] in T0.
  destruct (save_prices env currentPrices w1) as [[[]|e] w2] eqn:S; cbn [fst snd] in *.
  - destruct (Hsound w2 (Hinv w2 eq_refl)) as (_ & (evs2 & T2 & F2) & _).
    assert (exists last, P last /\
              trace (snd match check_alerts env alertsByCrypto currentPrices w2 with
                         | (Ok _, w3) => (Ok tt, record (EvLog Info CheckCompleted) w3)
                         | (Throw _, w3) => (Ok tt, record (EvLog Error ErrorDuringCheck) w3)
                         end)
              = trace (snd (check_alerts env alertsByCrypto currentPrices w2)) ++ [last])
      as (last & Plast & Tlast).
    { destruct (check_alerts env alertsByCrypto currentPrices w2) as [[[]|e] w3]; cbn.
      - exists (EvLog Info CheckCompleted). split; [exact Pdone | reflexivity].
      - exists (EvLog Error ErrorDuringCheck). split; [exact Perr | reflexivity]. }
    exists ((EvLog Info StartingCheck :: evs0) ++ evs1 ++ evs2 ++ [last]).
    split.
    + rewrite Tlast, T2, T1, T0, <- !app_assoc. reflexivity.
    + apply Forall_app. split.
      * constructor; [exact Pstart|]. apply Forall_impl with (P := prologue_event); assumption.
      * apply Forall_app. split.
        -- apply Forall_impl with (P := save_event); assumption.
        -- apply Forall_app. split; [exact F2 | constructor; [exact Plast | constructor]].
  - exists ((EvLog Info StartingCheck :: evs0) ++ evs1 ++ [EvLog Error ErrorDuringCheck]).
    split.
    + cbn [trace record]. rewrite T1, T0, <- !app_assoc. reflexivity.
    + apply Forall_app. split.
      * constructor; [exact Pstart|]. apply Forall_impl with (P := prologue_event); assumption.
      * apply Forall_app. split.
        -- apply Forall_impl with (P := save_event); assumption.
        -- constructor; [exact Perr | constructor].
Qed.

Lemma fires_concerns (a : AlertConfig) (ev : Event) : fires a ev -> concerns a ev.
Proof. destruct ev as [[]|lvl []]; cbn; intro H; try exact H; destruct H. Qed.

(** A sample stamped at call [j] is inside a window of [n] minutes seen
    from call [k] when the clock has advanced by at most [n] minutes. *)
Lemma fresh_sample_in_window (env : Env) (k j : nat) (c : string) (n : Z)
    (r : PriceHistory) :
  ph_cryptoId r = c ->
  timestamp r = CURRENT_TIMESTAMP (clock env j) ->
  (clock env k - clock env j <= 60000 * n)%Z ->
  in_window (clock env k) c n r.
Proof.
  intros Hc Ht Hclock. split; [exact Hc|]. rewrite Ht. unfold CURRENT_TIMESTAMP.
  replace (clock env k / 1000 - 60 * n)%Z with ((clock env k - 60000 * n) / 1000)%Z.
  - apply Z.div_le_mono; lia.
  - replace (clock env k - 60000 * n)%Z with (clock env k + (- (60 * n)) * 1000)%Z by lia.
    rewrite Z.div_add by lia. lia.
Qed.

Section CurrentSample.

Variable env : Env.
Variable w w1 : World.
Variable alertsByCrypto : JsMap.t (list AlertConfig).
Variable currentPrices : JsMap.t float.

Hypothesis loaded :
  load_and_fetch env (record (EvLog Info StartingCheck) w)
  = (Ok (Some (alertsByCrypto, currentPrices)), w1).

Lemma all_recorded_after_save (w2 : World) :
  save_prices env currentPrices w1 = (Ok tt, w2) -> (all_recorded env w currentPrices) (db w2) (calls w2).
Proof.
  intro S.
  destruct (load_and_fetch_loaded env _ w1 _ _ loaded) as (_ & _ & K1 & _).
  destruct (save_prices_records env currentPrices w1 w2 S) as (K2 & _ & Hnew).
  cbn [calls record] in K1. split; [lia|].
  intros c p Hin. destruct (Hnew c p Hin) as (r & j & R1 & R2 & _ & R4 & R5).
  exists r, j. repeat split; try assumption. lia.
Qed.

Hypothesis short_tick : forall a i j,
  In a (alert_configs (db w)) -> isActive a = true ->
  (calls w <= i)%nat -> (calls w <= j)%nat ->
  (clock env j - clock env i <= 60000 * timeframeMinutes a)%Z.

Lemma check_alerts_find_history :
  sound (all_recorded env w currentPrices) history_found (check_alerts env alertsByCrypto currentPrices) anything.
Proof.
  assert (forall d k, (all_recorded env w currentPrices) d k -> (all_recorded env w currentPrices) d (S k)) as Inv_next.
  { intros d k [K H]. split; [lia | exact H]. }
  apply sound_check_alerts.
  - intros c alerts a p Hc Ha G F.
    destruct (grouped_alert_active env _ w1 _ _ c alerts a loaded Hc Ha) as (Hin & Hact & Hk).
    cbn [db record] in Hin.
    apply (sound_check_alert env (all_recorded env w currentPrices) history_found Inv_next a p
             (fun h => h <> []) anything).
    + intros [[]|[] []]; cbn; tauto.
    + intros d k [K H] _.
      destruct (H c p (JsMapFacts.get_In _ _ _ _ G)) as (r & j & R1 & R2 & R3 & R4).
      assert (in_window (clock env k) (cryptoId a) (timeframeMinutes a) r) as W.
      { apply fresh_sample_in_window with j.
        - rewrite Hk. exact R2.
        - exact R4.
        - apply short_tick; assumption. }
      destruct (select_price_history_some _ _ _ _ r R1 W) as (newer & b & ->).
      intro E. destruct newer; discriminate E.
    + intro N. destruct (N eq_refl).
    + intros. exact I.
    + exact I.
    + intros. exact I.
    + intros d k id t pc o n s [K H]. split; [lia | exact H].
    + exact I.
    + intros _ [[]|[] []]; cbn; tauto.
  - intros. exact I.
Qed.

Section NoEarlierSample.

Variable a : AlertConfig.
Variable p : float.

Hypothesis a_stored : In a (alert_configs (db w)).
Hypothesis ids_distinct : NoDup (map alert_id (alert_configs (db w))).
Hypothesis a_priced : JsMap.get currentPrices (cryptoId a) = Some p.
Hypothesis threshold_positive : (0 <? thresholdPercentage a)%float = true.

Hypothesis older_outside : forall r j,
  In r (price_history (db w)) -> ph_cryptoId r = cryptoId a -> (calls w <= j)%nat ->
  ~ in_window (clock env j) (cryptoId a) (timeframeMinutes a) r.

Lemma only_current_after_save (w2 : World) :
  save_prices env currentPrices w1 = (Ok tt, w2) -> (only_current env w a p) (db w2) (calls w2).
Proof.
  intro S.
  destruct (load_and_fetch_loaded env _ w1 _ _ loaded) as (_ & Hdb & K1 & Hkeys & _).
  destruct (save_prices_records env currentPrices w1 w2 S) as (K2 & _ & _).
  destruct (save_prices_rows env currentPrices w1) as [_ Hrows].
  rewrite S in Hrows. cbn [snd calls db record] in *.
  split; [lia|]. intros r Hr Hc.
  destruct (Hrows r Hr) as [Hold|Hnew].
  - right. intros j Hj. rewrite Hdb in Hold. apply older_outside; assumption.
  - left. rewrite Hc in Hnew.
    pose proof (JsMapFacts.In_get _ _ _ _ Hkeys Hnew) as G.
    rewrite a_priced in G. injection G as <-. reflexivity.
Qed.

Lemma check_alerts_never_fire :
  sound (only_current env w a p) (fun ev => ~ fires a ev)
    (check_alerts env alertsByCrypto currentPrices) anything.
Proof.
  assert (forall d k, (only_current env w a p) d k -> (only_current env w a p) d (S k)) as Inv_next.
  { intros d k [K H]. split; [lia | exact H]. }
  assert (forall d k id t pc o n s, (only_current env w a p) d k ->
            (only_current env w a p) (snd (insert_alert_log id t pc o n s d)) (S k)) as Inv_log.
  { intros d k id t pc o n s [K H]. split; [lia | exact H]. }
  apply sound_check_alerts.
  - intros c alerts a' p' Hc Ha' G F.
    destruct (grouped_alert_active env _ w1 _ _ c alerts a' loaded Hc Ha') as (Hin & _ & Hk).
    cbn [db record] in Hin.
    destruct (Z.eq_dec (alert_id a') (alert_id a)) as [E|N].
    + pose proof (NoDup_map_injective _ _ alert_id _ a' a ids_distinct Hin a_stored E) as ->.
      subst c. rewrite a_priced in G. injection G as <-.
      apply (sound_check_alert env (only_current env w a p) (fun ev => ~ fires a ev) Inv_next a p
               (fun h => forall r, In r h -> price r = p) (fun fire => fire = false)).
      * intros [[]|[] []]; cbn; tauto.
      * intros d k [K H] _ r Hr. apply select_price_history_In in Hr.
        destruct Hr as [Hr W]. destruct (H r Hr (proj1 W)) as [E1|Hout]; [exact E1|].
        destruct (Hout k K W).
      * intros _ C. exact C.
      * intros newer b Hq. rewrite (Hq b) by (apply in_or_app; right; left; reflexivity).
        apply JsNumberFacts.flat_no_drop; assumption.
      * reflexivity.
      * intro C. discriminate C.
      * exact Inv_log.
      * intro C. exact C.
      * intro C. discriminate C.
    + apply sound_weaken_events with (P := fun ev => ~ concerns a ev).
      * apply check_alert_other; assumption.
      * intros ev Hn Hf. apply Hn, fires_concerns, Hf.
  - intros c alerts _ _ C. exact C.
Qed.

End NoEarlierSample.

End CurrentSample.




(* ================================================================== *)
(** * Further properties *)

(* ------------------------------------------------------------------ *)
(** ** Groups by asset *)

Module GroupFacts.

Section WithValue.

Variable V : Type.

Lemma has_keys (m : JsMap.t V) (k : string) :
  JsMap.has m k = existsb (fun k' => String.eqb k' k) (JsMap.keys m).
Proof.
  unfold JsMap.has. induction m as [|[k0 v0] m IH]; cbn.
  - reflexivity.
  - destruct (String.eqb k0 k); [reflexivity | exact IH].
Qed.

Lemma keys_set_eq (m : JsMap.t V) (k : string) (v : V) :
  JsMap.keys (JsMap.set m k v) =
  if JsMap.has m k then JsMap.keys m else JsMap.keys m ++ [k].
Proof.
  unfold JsMap.has, JsMap.keys. induction m as [|[k0 v0] m IH]; cbn.
  - reflexivity.
  - destruct (String.eqb k0 k) eqn:E; cbn.
    + reflexivity.
    + rewrite IH. destruct (JsMap.get m k); reflexivity.
Qed.

Lemma has_set (m : JsMap.t V) (k : string) (v : V) : JsMap.has (JsMap.set m k v) k = true.
Proof. unfold JsMap.has. rewrite JsMapFacts.get_set_same. reflexivity. Qed.

Lemma keys_get (m : JsMap.t V) (k : string) :
  In k (JsMap.keys m) <-> JsMap.get m k <> None.
Proof.
  induction m as [|[k0 v0] m IH]; cbn.
  - split; [intros [] | intro H; apply H; reflexivity].
  - destruct (String.eqb_spec k0 k) as [->|N].
    + split; [intros _; discriminate | intros _; left; reflexivity].
    + rewrite <- IH. split; [intros [E|H]; [contradiction | exact H] | intro H; right; exact H].
Qed.

End WithValue.

Lemma group_step_get (m : JsMap.t (list AlertConfig)) (a : AlertConfig) (c : string) :
  JsMap.get (group_step m a) c =
  if String.eqb (cryptoId a) c
  then Some (match JsMap.get m c with Some g => g ++ [a] | None => [a] end)
  else JsMap.get m c.
Proof.
  unfold group_step, JsMap.has.
  destruct (JsMap.get m (cryptoId a)) as [g|] eqn:G.
  - rewrite G. destruct (String.eqb_spec (cryptoId a) c) as [<-|N].
    + rewrite JsMapFacts.get_set_same, G. reflexivity.
    + rewrite JsMapFacts.get_set_other by exact N. reflexivity.
  - rewrite JsMapFacts.get_set_same.
    destruct (String.eqb_spec (cryptoId a) c) as [<-|N].
    + rewrite JsMapFacts.get_set_same, G. reflexivity.
    + rewrite !JsMapFacts.get_set_other by exact N. reflexivity.
Qed.

Lemma group_step_keys (m : JsMap.t (list AlertConfig)) (a : AlertConfig) :
  JsMap.keys (group_step m a) =
  if existsb (fun k => String.eqb k (cryptoId a)) (JsMap.keys m)
  then JsMap.keys m else JsMap.keys m ++ [cryptoId a].
Proof.
  unfold group_step. rewrite <- has_keys.
  destruct (JsMap.has m (cryptoId a)) eqn:H.
  - unfold JsMap.has in H. destruct (JsMap.get m (cryptoId a)) as [g|] eqn:G; [|discriminate H].
    rewrite keys_set_eq. unfold JsMap.has. rewrite G. reflexivity.
  - rewrite JsMapFacts.get_set_same, keys_set_eq, has_set, keys_set_eq, H. reflexivity.
Qed.

Lemma fold_group_get (alerts : list AlertConfig) (m : JsMap.t (list AlertConfig)) (c : string) :
  JsMap.get (fold_left group_step alerts m) c =
  match JsMap.get m c, alerts_of c alerts with
  | Some g, more => Some (g ++ more)
  | None, [] => None
  | None, more => Some more
  end.
Proof.
  revert m. induction alerts as [|a alerts IH]; intro m; cbn.
  - destruct (JsMap.get m c); [rewrite app_nil_r|]; reflexivity.
  - rewrite IH, group_step_get.
    destruct (String.eqb (cryptoId a) c).
    + destruct (JsMap.get m c) as [g|]; [rewrite <- app_assoc|]; reflexivity.
    + reflexivity.
Qed.

Lemma fold_group_keys (alerts : list AlertConfig) (m : JsMap.t (list AlertConfig)) :
  JsMap.keys (fold_left group_step alerts m) = assets_in_order (JsMap.keys m) alerts.
Proof.
  revert m. induction alerts as [|a alerts IH]; intro m; cbn [fold_left assets_in_order].
  - reflexivity.
  - rewrite IH, group_step_keys.
    destruct (existsb _ (JsMap.keys m)); reflexivity.
Qed.

Lemma group_by_crypto_get (alerts : list AlertConfig) (c : string) :
  JsMap.get (group_by_crypto alerts) c =
  match alerts_of c alerts with
  | [] => None
  | group => Some group
  end.
Proof. unfold group_by_crypto. rewrite fold_group_get. reflexivity. Qed.

Lemma group_by_crypto_keys (alerts : list AlertConfig) :
  JsMap.keys (group_by_crypto alerts) = assets_in_order [] alerts.
Proof. unfold group_by_crypto. rewrite fold_group_keys. reflexivity. Qed.

Lemma group_keys_NoDup (alerts : list AlertConfig) :
  NoDup (JsMap.keys (group_by_crypto alerts)).
Proof.
  unfold group_by_crypto.
  assert (forall m : JsMap.t (list AlertConfig), NoDup (JsMap.keys m) ->
            NoDup (JsMap.keys (fold_left group_step alerts m))) as G.
  { induction alerts as [|a alerts IH]; cbn; intros m Hm; [exact Hm|].
    apply IH. unfold group_step.
    destruct (JsMap.get _ (cryptoId a)); [apply JsMapFacts.set_NoDup|];
      destruct (JsMap.has m (cryptoId a)); try apply JsMapFacts.set_NoDup; exact Hm. }
  apply G. constructor.
Qed.

Lemma group_keys_In (alerts : list AlertConfig) (c : string) :
  In c (JsMap.keys (group_by_crypto alerts)) <->
  exists a, In a alerts /\ cryptoId a = c.
Proof.
  rewrite keys_get, group_by_crypto_get. unfold alerts_of.
  destruct (filter _ alerts) as [|a g] eqn:F.
  - split; [intro H; exfalso; apply H; reflexivity|].
    intros (a & Hin & <-).
    assert (In a (filter (fun a0 => String.eqb (cryptoId a0) (cryptoId a)) alerts)) as H.
    { apply filter_In. split; [exact Hin | apply String.eqb_refl]. }
    rewrite F in H. destruct H.
  - split; [intros _ | intros _; discriminate].
    assert (In a (filter (fun a0 => String.eqb (cryptoId a0) c) alerts)) as H
      by (rewrite F; left; reflexivity).
    apply filter_In in H. destruct H as [Hin E].
    exists a. split; [exact Hin | apply String.eqb_eq, E].
Qed.

End GroupFacts.

(** X3. The grouping at the head of a tick maps every asset that has an
    active alert to all the alerts of that asset, in the order of the
    list, and has no key for any other asset; its keys, the ids of the
    price request, are the assets in the order of their first alert, each
    once. *)
Theorem groups_are_the_alerts_of_each_asset (activeAlerts : list AlertConfig) :
  (forall c, JsMap.get (group_by_crypto activeAlerts) c =
             match alerts_of c activeAlerts with
             | [] => None
             | group => Some group
             end)
  /\ JsMap.keys (group_by_crypto activeAlerts) = assets_in_order [] activeAlerts.
Proof.
  split; [intro c; apply GroupFacts.group_by_crypto_get | apply GroupFacts.group_by_crypto_keys].
Qed.

(* ------------------------------------------------------------------ *)
(** ** The anatomy of a tick *)

Lemma active_keys_nonempty (alerts : list AlertConfig) :
  (List.length alerts =? 0)%nat = false -> JsMap.keys (group_by_crypto alerts) <> [].
Proof.
  destruct alerts as [|a l]; [discriminate|]. intros _ E.
  assert (In (cryptoId a) (JsMap.keys (group_by_crypto (a :: l)))) as H.
  { apply GroupFacts.group_keys_In. exists a. split; [left|]; reflexivity. }
  rewrite E in H. destruct H.
Qed.

(** The four ways the head of the tick can go. *)
Lemma load_and_fetch_cases (env : Env) (w : World) :
  let k := calls w in
  let active := select_active_alerts (db w) in
  let ids := JsMap.keys (group_by_crypto active) in
  let after (n : nat) (evs : list Event) :=
    {| db := db w; calls := n; trace := trace w ++ evs |} in
  load_and_fetch env w =
  if faults env k OpGetAllActiveAlerts then
    (Throw (CallFailed OpGetAllActiveAlerts),
     after (S k) [EvCall OpGetAllActiveAlerts false])
  else if (List.length active =? 0)%nat then
    (Ok None, after (S k) [EvCall OpGetAllActiveAlerts true; EvLog Debug NoActiveAlerts])
  else if faults env (S k) (OpGetCurrentPrices ids) then
    (Throw (CallFailed (OpGetCurrentPrices ids)),
     after (S (S k)) [EvCall OpGetAllActiveAlerts true;
                      EvLog Debug (CheckingPrices (List.length ids));
                      EvCall (OpGetCurrentPrices ids) false])
  else
    (Ok (Some (group_by_crypto active,
               CryptoService.price_map (simple_price env (S k) ids))),
     after (S (S k)) [EvCall OpGetAllActiveAlerts true;
                      EvLog Debug (CheckingPrices (List.length ids));
                      EvCall (OpGetCurrentPrices ids) true]).
Proof.
  intros k active ids after. subst k active ids after.
  unfold load_and_fetch, bind, getAllActiveAlerts, CryptoService.getCurrentPrices,
    call, logger, record, ret.
  destruct (faults env (calls w) OpGetAllActiveAlerts); [reflexivity|]. cbn.
  destruct (List.length (select_active_alerts (db w)) =? 0)%nat eqn:L; cbn.
  - rewrite <- app_assoc. reflexivity.
  - pose proof (active_keys_nonempty _ L) as N.
    destruct (JsMap.keys (group_by_crypto (select_active_alerts (db w)))) as [|id ids];
      [contradiction N; reflexivity|].
    cbn. destruct (faults env (S (calls w)) (OpGetCurrentPrices (id :: ids))); cbn;
      rewrite <- !app_assoc; reflexivity.
Qed.

(** The save loop: its events are INSERTs of samples, all of which returned
    when the loop returns, and one of which threw when it throws. *)
Lemma save_prices_outcome (env : Env) (currentPrices : JsMap.t float) (w1 : World) :
  let out := save_prices env currentPrices w1 in
  exists evs, trace (snd out) = trace w1 ++ evs /\ Forall save_event evs
    /\ match fst out with
       | Ok _ => Forall (fun ev => ~ tick_call_failed ev) evs
       | Throw _ => Exists tick_call_failed evs
       end.
Proof.
  unfold save_prices, JsMap.entries. revert w1.
  induction currentPrices as [|[c p] rest IH]; intro w1.
  - exists []. cbn. rewrite app_nil_r. repeat split; constructor.
  - destruct (faults env (calls w1) (OpSavePriceHistory c p)) eqn:F.
    + erewrite for_of_cons_throw
        by (unfold savePriceHistory; cbn [fst snd]; apply call_throws; exact F).
      cbn [fst snd trace].
      exists [EvCall (OpSavePriceHistory c p) false]. split; [reflexivity|]. split.
      * constructor; [exact I | constructor].
      * apply Exists_cons_hd. exact I.
    + erewrite for_of_cons_ok
        by (unfold savePriceHistory; cbn [fst snd]; apply call_returns; exact F).
      cbn [fst snd].
      match goal with |- context [for_of rest ?body ?w2] =>
        destruct (IH w2) as (evs & T & S & O) end.
      cbn [trace] in T.
      exists (EvCall (OpSavePriceHistory c p) true :: evs). split; [|split].
      * rewrite T, <- app_assoc. reflexivity.
      * constructor; [exact I | exact S].
      * match goal with |- context [for_of rest ?body ?w2] =>
          destruct (fst (for_of rest body w2)) end.
        -- constructor; [intros [] | exact O].
        -- right. exact O.
Qed.

Lemma evaluation_events (env : Env) (alertsByCrypto : JsMap.t (list AlertConfig))
    (currentPrices : JsMap.t float) :
  sound no_invariant evaluation_event (check_alerts env alertsByCrypto currentPrices) anything.
Proof.
  apply sound_check_alerts.
  - intros c alerts a p _ _ _ _.
    apply (sound_check_alert env no_invariant evaluation_event no_invariant_next
             a p anything anything).
    + intros [[]|[] []]; cbn; intro H; try exact I; try contradiction.
    + intros. exact I.
    + intros _. exact I.
    + intros. exact I.
    + exact I.
    + intros _ pct. exact I.
    + intros. exact I.
    + exact I.
    + intros _ [[]|[] []]; cbn; intro H; try exact I; try contradiction.
  - intros. exact I.
Qed.

(** How the events of any tick are put together. *)
Lemma tick_anatomy (env : Env) (w : World) :
  let out := checkPriceChanges env w in
  let active := select_active_alerts (db w) in
  let ids := JsMap.keys (group_by_crypto active) in
  let fetched ok :=
    [EvCall OpGetAllActiveAlerts true; EvLog Debug (CheckingPrices (List.length ids));
     EvCall (OpGetCurrentPrices ids) ok] in
  fst out = Ok tt
  /\ exists evs, trace (snd out) = trace w ++ EvLog Info StartingCheck :: evs
     /\ (evs = [EvCall OpGetAllActiveAlerts false; EvLog Error ErrorDuringCheck]
         \/ evs = [EvCall OpGetAllActiveAlerts true; EvLog Debug NoActiveAlerts]
         \/ evs = fetched false ++ [EvLog Error ErrorDuringCheck]
         \/ exists saves evals,
              Forall save_event saves /\ Forall evaluation_event evals
              /\ ((evs = fetched true ++ saves ++ evals ++ [EvLog Info CheckCompleted]
                   /\ Forall (fun ev => ~ tick_call_failed ev) saves)
                  \/ (evs = fetched true ++ saves ++ [EvLog Error ErrorDuringCheck]
                      /\ Exists tick_call_failed saves))).
Proof.
  intros out active ids fetched. subst out.
  pose proof (load_and_fetch_cases env (record (EvLog Info StartingCheck) w)) as L.
  cbv zeta in L. cbn [db calls trace record] in L. fold active ids in L.
  destruct (faults env (calls w) OpGetAllActiveAlerts).
  { unfold checkPriceChanges, bind, try_catch.
    change (logger Info StartingCheck w) with (Ok tt, record (EvLog Info StartingCheck) w).
    cbn iota. rewrite L. cbn. split; [reflexivity|].
    eexists. split; [rewrite <- !app_assoc; cbn; reflexivity|]. left. reflexivity. }
  destruct (List.length active =? 0)%nat.
  { unfold checkPriceChanges, bind, try_catch.
    change (logger Info StartingCheck w) with (Ok tt, record (EvLog Info StartingCheck) w).
    cbn iota. rewrite L. cbn. split; [reflexivity|].
    eexists. split; [rewrite <- !app_assoc; cbn; reflexivity|]. right. left. reflexivity. }
  destruct (faults env (S (calls w)) (OpGetCurrentPrices ids)).
  { unfold checkPriceChanges, bind, try_catch.
    change (logger Info StartingCheck w) with (Ok tt, record (EvLog Info StartingCheck) w).
    cbn iota. rewrite L. cbn. split; [reflexivity|].
    eexists. split; [rewrite <- !app_assoc; cbn; reflexivity|].
    right. right. left. reflexivity. }
  rewrite (checkPriceChanges_loaded env w _ _ _ L).
  match type of L with _ = (_, ?w1') => set (w1 := w1') in * end.
  set (prices := CryptoService.price_map _) in *.
  destruct (save_prices_outcome env prices w1) as (saves & T1 & S1 & O1).
  destruct (save_prices env prices w1) as [[[]|e] w2]; cbn [fst snd] in *.
  - destruct (evaluation_events env (group_by_crypto active) prices w2 I)
      as (_ & (evals & T2 & S2) & _).
    pose proof (check_alerts_returns env (group_by_crypto active) prices w2) as R.
    destruct (check_alerts env (group_by_crypto active) prices w2) as [[[]|e] w3];
      cbn [fst snd] in *; [|discriminate R].
    split; [reflexivity|]. eexists. split.
    + cbn [trace record]. rewrite T2, T1. subst w1. cbn [trace].
      rewrite <- !app_assoc. cbn. reflexivity.
    + right. right. right. exists saves, evals. split; [exact S1|]. split; [exact S2|].
      left. split; [reflexivity | exact O1].
  - split; [reflexivity|]. eexists. split.
    + cbn [trace record]. rewrite T1. subst w1. cbn [trace].
      rewrite <- !app_assoc. cbn. reflexivity.
    + right. right. right. exists saves, []. split; [exact S1|]. split; [constructor|].
      right. split; [reflexivity | exact O1].
Qed.

Lemma save_event_not_request (l : list Event) :
  Forall save_event l -> filter is_price_request l = [].
Proof.
  induction 1 as [|ev l H _ IH]; [reflexivity|]. cbn.
  destruct ev as [[]|]; cbn in H; try contradiction. exact IH.
Qed.

Lemma evaluation_event_not_request (l : list Event) :
  Forall evaluation_event l -> filter is_price_request l = [].
Proof.
  induction 1 as [|ev l H _ IH]; [reflexivity|]. cbn.
  destruct ev as [[]|[] []]; cbn in H; try contradiction; exact IH.
Qed.

Lemma save_event_no_abort (l : list Event) :
  Forall save_event l -> ~ In (EvLog Error ErrorDuringCheck) l.
Proof.
  intros F Hin. rewrite Forall_forall in F. exact (F _ Hin).
Qed.

Lemma evaluation_event_no_abort (l : list Event) :
  Forall evaluation_event l -> ~ In (EvLog Error ErrorDuringCheck) l.
Proof.
  intros F Hin. rewrite Forall_forall in F. exact (F _ Hin).
Qed.

Lemma evaluation_event_no_failure (l : list Event) :
  Forall evaluation_event l -> ~ Exists tick_call_failed l.
Proof.
  intros F X. apply Exists_exists in X. destruct X as (ev & Hin & Hf).
  rewrite Forall_forall in F. specialize (F _ Hin).
  destruct ev as [[] []|[] []]; cbn in F, Hf; contradiction.
Qed.

Lemma Forall_not_Exists (A : Type) (P : A -> Prop) (l : list A) :
  Forall (fun x => ~ P x) l -> ~ Exists P l.
Proof.
  intros F X. apply Exists_exists in X. destruct X as (x & Hin & Hp).
  rewrite Forall_forall in F. exact (F x Hin Hp).
Qed.

(** X4. [checkPriceChanges] never throws. It logs
    [Error during price change check] exactly when the load of the active
    alerts, the price request or the INSERT of a sample threw: nothing
    that fails while the alerts are evaluated aborts the tick. *)
Theorem tick_aborts_exactly_on_failed_load_or_save (env : Env) (w : World) :
  let out := checkPriceChanges env w in
  fst out = Ok tt
  /\ exists evs, trace (snd out) = trace w ++ evs
       /\ (In (EvLog Error ErrorDuringCheck) evs <-> Exists tick_call_failed evs).
Proof.
  intro out. destruct (tick_anatomy env w) as (R & evs & T & Shape).
  fold out in R, T. split; [exact R|].
  exists (EvLog Info StartingCheck :: evs). split; [exact T|].
  destruct Shape as [->|[->|[->|(saves & evals & S1 & S2 & Shape)]]].
  - split; intros _; [right; left; exact I | right; right; left; reflexivity].
  - split.
    + intros [E|[E|[E|[]]]]; discriminate E.
    + intro X. inversion X as [? ? H|? ? X1]; subst; [destruct H|].
      inversion X1 as [? ? H|? ? X2]; subst; [destruct H|].
      inversion X2 as [? ? H|? ? X3]; subst; [destruct H | inversion X3].
  - split; intros _.
    + right. right. right. left. exact I.
    + right. cbn. do 3 right. left. reflexivity.
  - destruct Shape as [[-> Hok]|[-> Hfail]].
    + split.
      * intros [E|Hin]; [discriminate E|]. exfalso.
        cbn in Hin. destruct Hin as [E|[E|[E|Hin]]]; try discriminate E.
        apply in_app_or in Hin. destruct Hin as [Hin|Hin].
        { exact (save_event_no_abort _ S1 Hin). }
        apply in_app_or in Hin. destruct Hin as [Hin|[E|[]]]; [|discriminate E].
        exact (evaluation_event_no_abort _ S2 Hin).
      * intro X. exfalso.
        inversion X as [? ? H|? ? X1]; subst; [destruct H|].
        cbn in X1.
        inversion X1 as [? ? H|? ? X2]; subst; [destruct H|].
        inversion X2 as [? ? H|? ? X3]; subst; [destruct H|].
        inversion X3 as [? ? H|? ? X4]; subst; [destruct H|].
        apply Exists_app in X4. destruct X4 as [X4|X4].
        { exact (Forall_not_Exists _ _ _ Hok X4). }
        apply Exists_app in X4. destruct X4 as [X4|X4].
        { exact (evaluation_event_no_failure _ S2 X4). }
        inversion X4 as [? ? H|? ? X5]; subst; [destruct H | inversion X5].
    + split; intros _.
      * right. cbn. do 3 right. apply Exists_app. left. exact Hfail.
      * right. cbn. do 3 right. apply in_or_app. right. left. reflexivity.
Qed.

Lemma tick_price_requests (env : Env) (w : World) :
  let ids := JsMap.keys (group_by_crypto (select_active_alerts (db w))) in
  exists evs, trace (snd (checkPriceChanges env w)) = trace w ++ evs
    /\ (filter is_price_request evs = []
        \/ exists ok, filter is_price_request evs = [EvCall (OpGetCurrentPrices ids) ok]).
Proof.
  intro ids. destruct (tick_anatomy env w) as (_ & evs & T & Shape).
  fold ids in Shape.
  exists (EvLog Info StartingCheck :: evs). split; [exact T|].
  destruct Shape as [->|[->|[->|(saves & evals & S1 & S2 & [[-> _]|[-> _]])]]].
  - left. reflexivity.
  - left. reflexivity.
  - right. exists false. reflexivity.
  - right. exists true. cbn. rewrite !filter_app.
    rewrite (save_event_not_request _ S1), (evaluation_event_not_request _ S2). reflexivity.
  - right. exists true. cbn. rewrite !filter_app.
    rewrite (save_event_not_request _ S1). reflexivity.
Qed.

(** X5. A tick makes at most one price request, and the ids it asks
    for are the assets of the active alerts of the store, each once. *)
Theorem one_price_request_per_tick (env : Env) (w : World) :
  exists evs, trace (snd (checkPriceChanges env w)) = trace w ++ evs
    /\ (List.length (filter is_price_request evs) <= 1)%nat
    /\ forall ids ok, In (EvCall (OpGetCurrentPrices ids) ok) evs ->
         NoDup ids
         /\ forall c, In c ids <->
              exists a, In a (alert_configs (db w)) /\ isActive a = true /\ cryptoId a = c.
Proof.
  destruct (tick_price_requests env w) as (evs & T & Hreq).
  exists evs. split; [exact T|]. split.
  - destruct Hreq as [->|[ok ->]]; cbn; lia.
  - intros ids ok Hin.
    assert (In (EvCall (OpGetCurrentPrices ids) ok) (filter is_price_request evs)) as Hf
      by (apply filter_In; split; [exact Hin | reflexivity]).
    destruct Hreq as [E|[ok' E]]; rewrite E in Hf; [destruct Hf|].
    destruct Hf as [E'|[]]. injection E' as <- _.
    split; [apply GroupFacts.group_keys_NoDup|].
    intro c. rewrite GroupFacts.group_keys_In. unfold select_active_alerts.
    split; intros (a & Ha & Hc).
    + apply filter_In in Ha. destruct Ha as [Ha Hact]. exists a. repeat split; assumption.
    + destruct Hc as [Hact Hc]. exists a. split; [|exact Hc].
      apply filter_In. split; assumption.
Qed.

(* ------------------------------------------------------------------ *)
(** ** What a tick does to the store *)

Lemma sound_checkPriceChanges (env : Env) (Inv : DB -> nat -> Prop) :
  (forall d k, Inv d k -> Inv d (S k)) ->
  (forall d k now c p, Inv d k -> Inv (insert_price_history now c p d) (S k)) ->
  (forall d k id t pc o n s, Inv d k -> Inv (snd (insert_alert_log id t pc o n s d)) (S k)) ->
  sound Inv any_event (checkPriceChanges env) anything.
Proof.
  intros Inv_next Inv_sample Inv_log. unfold checkPriceChanges.
  eapply sound_bind with (Q := anything); [apply sound_logger; exact I|]. intros _ _.
  apply sound_try_catch; [|intros e; apply sound_logger; exact I].
  eapply sound_bind with (Q := anything).
  - unfold load_and_fetch.
    eapply sound_bind with (Q := anything).
    { unfold getAllActiveAlerts.
      apply (sound_read env) with (Q := anything); [exact Inv_next | exact I | exact I |].
      intros. exact I. }
    intros activeAlerts _. destruct (List.length activeAlerts =? 0)%nat.
    + eapply sound_bind with (Q := anything); [apply sound_logger; exact I|].
      intros _ _. apply sound_ret. exact I.
    + eapply sound_bind with (Q := anything); [apply sound_logger; exact I|]. intros _ _.
      eapply sound_bind with (Q := anything); [|intros ? _; apply sound_ret; exact I].
      unfold CryptoService.getCurrentPrices.
      destruct (JsMap.keys (group_by_crypto activeAlerts)); [apply sound_ret; exact I|].
      apply (sound_read env) with (Q := anything); [exact Inv_next | exact I | exact I |].
      intros. exact I.
  - intros [[alertsByCrypto currentPrices]|] _; [|apply sound_ret; exact I].
    eapply sound_bind with (Q := anything).
    { unfold save_prices, JsMap.entries. apply sound_for_of. intros [c p] _.
      unfold savePriceHistory. cbn [fst snd].
      apply (sound_call env) with (Q := anything); [exact Inv_next | exact I | exact I |].
      intros d k Hd _. split; [apply Inv_sample, Hd | exact I]. }
    intros _ _. eapply sound_bind with (Q := anything); [|intros _ _; apply sound_logger; exact I].
    apply sound_check_alerts; [|intros; exact I].
    intros c alerts a p _ _ _ _.
    apply (sound_check_alert env Inv any_event Inv_next a p anything anything);
      try (intros; exact I); try exact I.
    exact Inv_log.
Qed.

(** X6. A tick leaves [users] and [alert_configs] as they were and
    only appends rows to [price_history] and [alert_logs]: whatever fails,
    it deletes and rewrites nothing. *)
Theorem tick_only_appends_samples_and_entries (env : Env) (w : World) :
  grown_from (db w) (db (snd (checkPriceChanges env w))).
Proof.
  destruct (sound_checkPriceChanges env (fun d _ => grown_from (db w) d)) with (w := w)
    as (H & _).
  - intros d k H. exact H.
  - intros d k now c p (H1 & H2 & (samples & H3) & H4).
    unfold grown_from, insert_price_history. cbn.
    split; [exact H1|]. split; [exact H2|]. split; [|exact H4].
    eexists. rewrite H3, <- app_assoc. reflexivity.
  - intros d k id t pc o n s (H1 & H2 & H3 & (entries & H4)).
    unfold grown_from, insert_alert_log. cbn.
    split; [exact H1|]. split; [exact H2|]. split; [exact H3|].
    eexists. rewrite H4, <- app_assoc. reflexivity.
  - split; [reflexivity|]. split; [reflexivity|].
    split; exists []; rewrite app_nil_r; reflexivity.
  - exact H.
Qed.

Lemma save_prices_all (env : Env) (currentPrices : JsMap.t float) (w1 : World) :
  (forall i entry, nth_error currentPrices i = Some entry ->
     faults env (calls w1 + i) (OpSavePriceHistory (fst entry) (snd entry)) = false) ->
  let out := save_prices env currentPrices w1 in
  fst out = Ok tt
  /\ price_history (db (snd out)) =
     price_history (db w1)
     ++ samples_of env (seq_price_history (db w1)) (calls w1) currentPrices
  /\ calls (snd out) = (calls w1 + List.length currentPrices)%nat
  /\ trace (snd out) = trace w1 ++ map saved currentPrices.
Proof.
  unfold save_prices, JsMap.entries. revert w1.
  induction currentPrices as [|[c p] rest IH]; intros w1 Hok.
  - cbn. rewrite !app_nil_r. repeat split. lia.
  - pose proof (Hok 0%nat (c, p) eq_refl) as F0. rewrite Nat.add_0_r in F0. cbn in F0.
    erewrite for_of_cons_ok
      by (unfold savePriceHistory; cbn [fst snd]; apply call_returns; exact F0).
    cbn [fst snd].
    set (w2 := {| db := insert_price_history (clock env (calls w1)) c p (db w1);
                  calls := S (calls w1);
                  trace := trace w1 ++ [EvCall (OpSavePriceHistory c p) true] |}).
    destruct (IH w2) as (R1 & R2 & R3 & R4).
    + intros i entry Hi. cbn [calls w2].
      replace (S (calls w1) + i)%nat with (calls w1 + S i)%nat by lia.
      apply Hok. exact Hi.
    + split; [exact R1|]. split; [|split].
      * rewrite R2. cbn. rewrite <- app_assoc. reflexivity.
      * rewrite R3. cbn. lia.
      * rewrite R4. cbn. rewrite <- app_assoc. reflexivity.
Qed.

Lemma check_alerts_keeps_samples (env : Env) (alertsByCrypto : JsMap.t (list AlertConfig))
    (currentPrices : JsMap.t float) (w2 : World) :
  price_history (db (snd (check_alerts env alertsByCrypto currentPrices w2)))
  = price_history (db w2).
Proof.
  set (Inv := fun (d : DB) (_ : nat) => price_history d = price_history (db w2)).
  assert (sound Inv any_event (check_alerts env alertsByCrypto currentPrices) anything) as S.
  { apply sound_check_alerts; [|intros; exact I].
    intros c alerts a p _ _ _ _.
    apply (sound_check_alert env Inv any_event (fun d k H => H) a p anything anything);
      try (intros; exact I); try exact I.
    intros d k id t pc o n s H. exact H. }
  destruct (S w2 eq_refl) as (H & _). exact H.
Qed.

(** X7. When the load and the price request succeed and no INSERT of
    a sample throws, the tick appends one sample for each entry of the
    price map, in the order of the map, with the next ids, the price of the
    entry and the time of its own INSERT; the evaluation that follows adds
    no sample. *)
Theorem every_entry_of_the_response_is_recorded (env : Env) (w w1 : World)
    (alertsByCrypto : JsMap.t (list AlertConfig)) (currentPrices : JsMap.t float) :
  load_and_fetch env (record (EvLog Info StartingCheck) w)
  = (Ok (Some (alertsByCrypto, currentPrices)), w1) ->
  (forall i entry, nth_error currentPrices i = Some entry ->
     faults env (calls w1 + i) (OpSavePriceHistory (fst entry) (snd entry)) = false) ->
  price_history (db (snd (checkPriceChanges env w))) =
  price_history (db w)
  ++ samples_of env (seq_price_history (db w)) (calls w1) currentPrices.
Proof.
  intros H0 Hok.
  rewrite (checkPriceChanges_loaded env w w1 _ _ H0).
  destruct (load_and_fetch_loaded env _ w1 _ _ H0) as (_ & Hdb & _).
  cbn [db record] in Hdb.
  destruct (save_prices_all env currentPrices w1 Hok) as (R1 & R2 & _).
  destruct (save_prices env currentPrices w1) as [[[]|e] w2];
    cbn [fst snd] in *; [|discriminate R1].
  pose proof (check_alerts_keeps_samples env alertsByCrypto currentPrices w2) as K.
  destruct (check_alerts env alertsByCrypto currentPrices w2) as [[[]|e] w3];
    cbn [fst snd db record] in *; rewrite K, R2, Hdb; reflexivity.
Qed.

Lemma every_entry_of_the_response_is_recorded_scenarioA :
  price_history (db (snd (checkPriceChanges (Scenarios.calm Scenarios.bothPriced)
                            Scenarios.worldA)))
  = [Scenarios.btc100;
     {| ph_id := 2; ph_cryptoId := "bitcoin"; price := 94; timestamp := 1000000000 |};
     {| ph_id := 3; ph_cryptoId := "ethereum"; price := 1900; timestamp := 1000000000 |}].
Proof.
  refine (every_entry_of_the_response_is_recorded (Scenarios.calm Scenarios.bothPriced)
            Scenarios.worldA
            (snd (load_and_fetch (Scenarios.calm Scenarios.bothPriced)
                    (record (EvLog Info StartingCheck) Scenarios.worldA)))
            (group_by_crypto [Scenarios.btc5]) Scenarios.bothPriced _ _).
  - vm_compute. reflexivity.
  - intros i entry _. reflexivity.
Defined.

(* ------------------------------------------------------------------ *)
(** ** The decision never writes *)

Lemma shouldTriggerAlert_reads (env : Env) (alertConfig : AlertConfig) (currentPrice : float)
    (w : World) :
  exists decision w',
    shouldTriggerAlert env alertConfig currentPrice w = (Ok decision, w')
    /\ db w' = db w
    /\ (calls w < calls w' <= calls w + 2)%nat
    /\ exists evs, trace w' = trace w ++ evs /\ Forall reads_only evs.
Proof.
  unfold shouldTriggerAlert, try_catch, bind, getRecentAlertLogs, getPriceHistory,
    call, logger, record, ret, last_price, throw.
  repeat (match goal with
          | |- context [if ?b then _ else _] => destruct b
          | |- context [match nth_error ?l ?n with _ => _ end] => destruct (nth_error l n)
          end; cbn).
  all: do 2 eexists; split; [reflexivity|]; cbn; split; [reflexivity|]; split; [lia|].
  all: eexists; split; [rewrite <- ?app_assoc; reflexivity|]; repeat constructor.
Qed.

(** X8. [shouldTriggerAlert] returns a decision whatever fails, leaves
    the store as it was, and makes one or two calls, each of them the
    cooldown query of the alert or the history query of its asset. *)
Theorem decision_only_reads (env : Env) (alertConfig : AlertConfig) (currentPrice : float)
    (w : World) :
  let out := shouldTriggerAlert env alertConfig currentPrice w in
  (exists decision, fst out = Ok decision)
  /\ db (snd out) = db w
  /\ (calls w < calls (snd out) <= calls w + 2)%nat
  /\ Forall (fun ev => forall op ok, ev = EvCall op ok ->
               exists minutes,
                 op = OpGetRecentAlertLogs (alert_id alertConfig) minutes
                 \/ op = OpGetPriceHistory (cryptoId alertConfig) minutes)
       (skipn (List.length (trace w)) (trace (snd out))).
Proof.
  intro out. subst out.
  unfold shouldTriggerAlert, try_catch, bind, getRecentAlertLogs, getPriceHistory,
    call, logger, record, ret, last_price, throw.
  assert (forall evs, skipn (List.length (trace w)) (trace w ++ evs) = evs) as Sk.
  { intro evs. rewrite skipn_app, skipn_all, Nat.sub_diag. reflexivity. }
  repeat (match goal with
          | |- context [if ?b then _ else _] => destruct b
          | |- context [match nth_error ?l ?n with _ => _ end] => destruct (nth_error l n)
          end; cbn).
  all: rewrite <- ?app_assoc, Sk; cbn [app]; repeat split; eauto; try lia.
  all: repeat constructor; intros op ok E; try discriminate E;
    injection E as <- _; eauto.
Qed.

(* ------------------------------------------------------------------ *)
(** ** The cooldown after a firing *)



(* ------------------------------------------------------------------ *)
(** ** A baseline of zero *)

(** X10. A baseline of 0 makes the change of a positive price
    [Infinity], which reaches no threshold that is not negative: the
    division by zero is silent and the alert does not trigger. *)
Theorem zero_baseline_never_triggers (currentPrice thresholdPercentage : float) :
  (0 <? currentPrice)%float = true ->
  (0 <=? thresholdPercentage)%float = true ->
  JsNumber.pctChange currentPrice 0 = infinity
  /\ JsNumber.dropReached (JsNumber.pctChange currentPrice 0) thresholdPercentage = false.
Proof.
  intros Hp Hthr.
  assert (Prim2SF (JsNumber.pctChange currentPrice 0) = S754_infinity false) as E.
  { unfold JsNumber.pctChange. rewrite mul_spec, div_spec, sub_spec.
    rewrite ltb_spec in Hp. change (Prim2SF 0) with (S754_zero false) in *.
    replace (Prim2SF 100) with (S754_finite false 7036874417766400 (-46))
      by (vm_compute; reflexivity).
    unfold SFltb in Hp.
    destruct (Prim2SF currentPrice) as [[]|[]| |[] m e]; cbn in Hp; try discriminate Hp;
      reflexivity. }
  split.
  - rewrite <- (SF2Prim_Prim2SF (JsNumber.pctChange currentPrice 0)), E. reflexivity.
  - unfold JsNumber.dropReached. rewrite leb_spec, opp_spec, E.
    rewrite leb_spec in Hthr. change (Prim2SF 0) with (S754_zero false) in Hthr.
    unfold SFleb in *.
    destruct (Prim2SF thresholdPercentage) as [[]|[]| |[] m e]; cbn in *;
      try discriminate Hthr; reflexivity.
Qed.

Lemma zero_baseline_never_triggers_at_94 :
  JsNumber.dropReached (JsNumber.pctChange 94 0) 5 = false.
Proof.
  apply (proj2 (zero_baseline_never_triggers 94 5 eq_refl eq_refl)).
Defined.

(* ------------------------------------------------------------------ *)
(** ** To whom a notification goes *)

(** X11. [triggerAlert] sends at most one message, and the chat it
    sends it to is [alertConfig.userId]: the recipient is the user whose
    Telegram id is that number. *)
Theorem notification_is_addressed_to_userId (env : Env) (w : World)
    (alertConfig : AlertConfig) (priceChange oldPrice newPrice : float) :
  let out := triggerAlert env alertConfig priceChange oldPrice newPrice w in
  exists evs, trace (snd out) = trace w ++ evs
    /\ (List.length (filter sends evs) <= 1)%nat
    /\ forall chatId message ok, In (EvCall (OpSendMessage chatId message) ok) evs ->
         chatId = userId alertConfig
         /\ exists user, In user (users (db w)) /\ telegramId user = userId alertConfig.
Proof.
  intro out. subst out. unfold_run. split_run.
  all: eexists; (split; [rewrite <- !app_assoc; cbn; reflexivity|]); cbn.
  all: split; [lia|].
  all: intros c m ok H; repeat (destruct H as [E|H]; [try discriminate E|]); try destruct H.
  all: injection E as <- _ _.
  all: match goal with
       | Found : find _ _ = Some ?user |- _ =>
           apply find_some in Found; destruct Found as [Hin Htg]; apply Z.eqb_eq in Htg;
           split; [exact Htg | exists user; split; assumption]
       end.
Qed.

(* ------------------------------------------------------------------ *)
(** ** The wording of a timeframe *)

(** X12. From 60 minutes on [formatTimeframe] words a timeframe in
    whole hours, and from 1440 minutes on in whole days, rounded down: it
    reads as the largest multiple of the unit below it does (119 minutes
    read as 1 hour). *)
Theorem timeframe_is_worded_in_whole_units (minutes : Z) :
  (60 <= minutes)%Z ->
  let unit := if (minutes <? 1440)%Z then 60%Z else 1440%Z in
  AlertInspection.formatTimeframe minutes
  = AlertInspection.formatTimeframe (unit * (minutes / unit)).
Proof.
  intros H unit. subst unit. unfold AlertInspection.formatTimeframe.
  destruct (Z.ltb_spec minutes 60) as [L|_]; [lia|].
  destruct (Z.ltb_spec minutes 1440) as [L|G].
  - assert (1 <= minutes / 60)%Z as B1 by (apply Z.div_le_lower_bound; lia).
    assert (minutes / 60 < 24)%Z as B2 by (apply Z.div_lt_upper_bound; lia).
    destruct (Z.ltb_spec (60 * (minutes / 60)) 60) as [L'|_]; [lia|].
    destruct (Z.ltb_spec (60 * (minutes / 60)) 1440) as [_|G']; [|lia].
    rewrite (Z.mul_comm 60), Z.div_mul by lia. reflexivity.
  - assert (1 <= minutes / 1440)%Z as B by (apply Z.div_le_lower_bound; lia).
    destruct (Z.ltb_spec (1440 * (minutes / 1440)) 60) as [L'|_]; [lia|].
    destruct (Z.ltb_spec (1440 * (minutes / 1440)) 1440) as [L'|_]; [lia|].
    rewrite (Z.mul_comm 1440), Z.div_mul by lia. reflexivity.
Qed.

Lemma timeframe_is_worded_in_whole_units_at_119 :
  AlertInspection.formatTimeframe 119 = "1 hour"%string.
Proof.
  rewrite (timeframe_is_worded_in_whole_units 119 ltac:(lia)). reflexivity.
Defined.

(* ------------------------------------------------------------------ *)
(** ** Keys and columns *)

Lemma lower_not_upper (c : ascii) :
  Store.is_upper c = true -> Store.is_upper (Store.lower c) = false.
Proof.
  destruct c as [[] [] [] [] [] [] [] []]; vm_compute; congruence.
Qed.

Lemma camelToSnake_lower (str : string) :
  forallb (fun c => negb (Store.is_upper c)) (list_ascii_of_string (Store.camelToSnake str))
  = true.
Proof.
  induction str as [|c rest IH]; [reflexivity|].
  cbn [Store.camelToSnake]. destruct (Store.is_upper c) eqn:U; cbn.
  - rewrite (lower_not_upper c U), IH. reflexivity.
  - rewrite U, IH. reflexivity.
Qed.

Lemma camelToSnake_fixes_lower (str : string) :
  forallb (fun c => negb (Store.is_upper c)) (list_ascii_of_string str) = true ->
  Store.camelToSnake str = str.
Proof.
  induction str as [|c rest IH]; [reflexivity|]. cbn. intro H.
  apply andb_true_iff in H. destruct H as [H1 H2].
  apply negb_true_iff in H1. rewrite H1, (IH H2). reflexivity.
Qed.

(** X13. [camelToSnake] gives a name without capital letters, changes
    nothing in such a name, and turns each key of [AlertConfig] and [User]
    that [updateAlert] and [updateUser] may be given into the name of its
    column. *)
Theorem camelToSnake_names_the_columns :
  (forall str,
     forallb (fun c => negb (Store.is_upper c))
       (list_ascii_of_string (Store.camelToSnake str)) = true)
  /\ (forall str, Store.camelToSnake (Store.camelToSnake str) = Store.camelToSnake str)
  /\ map (fun field => Store.camelToSnake (fst field)) updatable_fields
     = map snd updatable_fields.
Proof.
  split; [exact camelToSnake_lower|]. split; [|reflexivity].
  intro str. apply camelToSnake_fixes_lower, camelToSnake_lower.
Qed.

(* ------------------------------------------------------------------ *)
(** ** The rate limit *)

Module NumberMapFacts.

Section WithValue.

Variable V : Type.

Lemma number_get_set_same (m : NumberMap.t V) (k : Z) (v : V) :
  NumberMap.get (NumberMap.set m k v) k = Some v.
Proof.
  induction m as [|[k' v'] m IH]; cbn.
  - rewrite Z.eqb_refl. reflexivity.
  - destruct (Z.eqb_spec k' k) as [->|N]; cbn.
    + rewrite Z.eqb_refl. reflexivity.
    + destruct (Z.eqb_spec k' k) as [E|_]; [contradiction | exact IH].
Qed.

Lemma number_get_set_other (m : NumberMap.t V) (k k' : Z) (v : V) :
  k <> k' -> NumberMap.get (NumberMap.set m k v) k' = NumberMap.get m k'.
Proof.
  intro N. induction m as [|[k0 v0] m IH]; cbn.
  - destruct (Z.eqb_spec k k') as [E|_]; [contradiction | reflexivity].
  - destruct (Z.eqb_spec k0 k) as [->|N0]; cbn.
    + destruct (Z.eqb_spec k k') as [E|_]; [contradiction | reflexivity].
    + rewrite IH. reflexivity.
Qed.

End WithValue.

End NumberMapFacts.

(** Inside an open window the calls pass until the count reaches the
    maximum. *)
Lemma answers_in_window (max userId : Z) (times : list Z)
    (counts : NumberMap.t CommandCount) (userLimits : CommandCount) :
  NumberMap.get counts userId = Some userLimits ->
  Forall (fun now => (now < resetTime userLimits)%Z) times ->
  forall i allowed, nth_error (answers max userId times counts) i = Some allowed ->
    allowed = (count userLimits + Z.of_nat i <? max)%Z.
Proof.
  revert counts userLimits.
  induction times as [|now rest IH]; intros counts userLimits G F i allowed Hi.
  - destruct i; discriminate Hi.
  - inversion F as [|? ? Hnow Hrest]; subst.
    cbn [answers] in Hi. unfold Handlers.rate_limit in Hi. rewrite G in Hi.
    destruct (Z.leb_spec (resetTime userLimits) now) as [L|_]; [lia|].
    destruct (Z.leb_spec max (count userLimits)) as [Full|Room].
    + destruct i as [|i]; cbn in Hi.
      * injection Hi as <-. symmetry. apply Z.ltb_ge. lia.
      * rewrite (IH counts userLimits G Hrest i allowed Hi).
        destruct (Z.ltb_spec (count userLimits + Z.of_nat i) max),
                 (Z.ltb_spec (count userLimits + Z.of_nat (S i)) max); try reflexivity; lia.
    + destruct i as [|i]; cbn in Hi.
      * injection Hi as <-. symmetry. apply Z.ltb_lt. lia.
      * rewrite (IH _ {| count := count userLimits + 1; resetTime := resetTime userLimits |}
                   (NumberMapFacts.number_get_set_same _ _ _ _) Hrest i allowed Hi).
        cbn [count]. f_equal. lia.
Qed.

(** X14. A user who is outside a window of the rate limit sends a
    command, and more within the minute that follows: the first passes
    whatever the limit is, and of the others those pass that are among the
    first [MAX_COMMANDS_PER_MINUTE] of the minute. *)
Theorem first_commands_of_a_minute_pass (max userId first : Z) (later : list Z)
    (counts : NumberMap.t CommandCount) :
  ~ in_window_of counts userId first ->
  Forall (fun now => (now < first + 60000)%Z) later ->
  forall i allowed,
    nth_error (answers max userId (first :: later) counts) i = Some allowed ->
    allowed = (i =? 0)%nat || (Z.of_nat i <? max)%Z.
Proof.
  intros Hclosed Hlater i allowed Hi.
  cbn [answers] in Hi. unfold Handlers.rate_limit in Hi.
  set (fresh := {| count := 1; resetTime := first + 60000 |}) in Hi.
  assert (exists m', (let (allowed0, counts') :=
                        match NumberMap.get counts userId with
                        | Some userLimits =>
                            if (resetTime userLimits <=? first)%Z
                            then (true, NumberMap.set counts userId fresh)
                            else if (max <=? count userLimits)%Z then (false, counts)
                            else (true, NumberMap.set counts userId
                                          {| count := count userLimits + 1;
                                             resetTime := resetTime userLimits |})
                        | None => (true, NumberMap.set counts userId fresh)
                        end in allowed0 :: answers max userId later counts')
                     = true :: answers max userId later m'
                     /\ NumberMap.get m' userId = Some fresh) as (m' & E & G).
  { destruct (NumberMap.get counts userId) as [userLimits|] eqn:G0.
    - destruct (Z.leb_spec (resetTime userLimits) first) as [L|Open].
      + eexists. split; [reflexivity | apply NumberMapFacts.number_get_set_same].
      + exfalso. apply Hclosed. exists userLimits. split; [exact G0 | exact Open].
    - eexists. split; [reflexivity | apply NumberMapFacts.number_get_set_same]. }
  rewrite E in Hi. destruct i as [|i]; cbn in Hi.
  - injection Hi as <-. reflexivity.
  - rewrite (answers_in_window max userId later m' fresh G Hlater i allowed Hi).
    subst fresh. cbn [count Nat.eqb orb]. f_equal. lia.
Qed.

Lemma first_commands_of_a_minute_pass_with_max_2 :
  answers 2 7 [1000; 1001; 1002]%Z [] = [true; true; false]
  /\ false = (2 =? 0)%nat || (Z.of_nat 2 <? 2)%Z.
Proof.
  split; [reflexivity|].
  refine (first_commands_of_a_minute_pass 2 7 1000 [1001; 1002]%Z [] _ _ 2%nat false eq_refl).
  - intros (l & G & _). discriminate G.
  - repeat constructor.
Defined.

(** X15. What [checkRateLimit] answers a user depends on the count of
    that user alone, it changes the count of no other user, and a refused
    command changes nothing. *)
Theorem users_are_limited_apart (max now userId other : Z)
    (counts counts' : NumberMap.t CommandCount) :
  userId <> other ->
  NumberMap.get counts userId = NumberMap.get counts' userId ->
  fst (Handlers.rate_limit max now userId counts)
  = fst (Handlers.rate_limit max now userId counts')
  /\ NumberMap.get (snd (Handlers.rate_limit max now userId counts)) other
     = NumberMap.get counts other
  /\ (fst (Handlers.rate_limit max now userId counts) = false ->
      snd (Handlers.rate_limit max now userId counts) = counts).
Proof.
  intros N G. unfold Handlers.rate_limit. rewrite <- G.
  destruct (NumberMap.get counts userId) as [userLimits|]; cbn.
  - destruct (resetTime userLimits <=? now)%Z; cbn.
    + rewrite NumberMapFacts.number_get_set_other by exact N. repeat split. discriminate.
    + destruct (max <=? count userLimits)%Z; cbn.
      * repeat split.
      * rewrite NumberMapFacts.number_get_set_other by exact N. repeat split. discriminate.
  - rewrite NumberMapFacts.number_get_set_other by exact N. repeat split. discriminate.
Qed.

Lemma users_are_limited_apart_7_and_8 :
  fst (Handlers.rate_limit 2 1000 7 []) = fst (Handlers.rate_limit 2 1000 7 [])
  /\ NumberMap.get (snd (Handlers.rate_limit 2 1000 7 [])) 8 = NumberMap.get [] 8
  /\ (fst (Handlers.rate_limit 2 1000 7 []) = false ->
      snd (Handlers.rate_limit 2 1000 7 []) = []).
Proof.
  apply (users_are_limited_apart 2 1000 7 8 [] []); [discriminate | reflexivity].
Defined.

(* ------------------------------------------------------------------ *)
(** ** The search for a coin *)

Lemma find_first (test : CoinGeckoCoin -> bool) (coins : list CoinGeckoCoin) :
  match find test coins with
  | Some coin => first_match test coins coin
  | None => forall c, In c coins -> test c = false
  end.
Proof.
  induction coins as [|c coins IH]; cbn.
  - intros c [].
  - destruct (test c) eqn:T.
    + exists [], coins. repeat split; [exact T | intros c' []].
    + destruct (find test coins) as [coin|].
      * destruct IH as (before & after & -> & Ht & Hb).
        exists (c :: before), after. repeat split; [exact Ht|].
        intros c' [<-|H]; [exact T | apply Hb, H].
      * intros c' [<-|H]; [exact T | apply IH, H].
Qed.

(** X16. [findCoinBySymbol] answers the first coin of the list whose
    symbol is the query, case apart; when there is none, the first coin
    whose name or id contains the query; and null only when no coin matches
    in either way. *)
Theorem symbol_match_comes_before_name_match (host : Host) (coins : list CoinGeckoCoin)
    (symbol : string) :
  let query := toLowerCase host symbol in
  let by_symbol c := String.eqb (toLowerCase host (coin_symbol c)) query in
  let by_name c :=
    Catalogue.includes (toLowerCase host (coin_name c)) query
    || Catalogue.includes (toLowerCase host (coin_id c)) query in
  match Catalogue.match_coin host coins symbol with
  | Some coin =>
      first_match by_symbol coins coin
      \/ ((forall c, In c coins -> by_symbol c = false) /\ first_match by_name coins coin)
  | None => forall c, In c coins -> by_symbol c = false /\ by_name c = false
  end.
Proof.
  intros query by_symbol by_name. unfold Catalogue.match_coin. fold query.
  pose proof (find_first by_symbol coins) as H1.
  pose proof (find_first by_name coins) as H2.
  fold by_symbol. destruct (find by_symbol coins) as [coin|].
  - left. exact H1.
  - fold by_name. destruct (find by_name coins) as [coin|].
    + right. split; [exact H1 | exact H2].
    + intros c Hc. split; [apply H1, Hc | apply H2, Hc].
Qed.

Lemma includes_empty (s : string) : Catalogue.includes s "" = true.
Proof. destruct s; reflexivity. Qed.

(** X17. Every name contains the empty text: for the empty query, when
    no coin has an empty symbol, [findCoinBySymbol] answers the first coin
    of the list. *)
Theorem empty_query_finds_a_coin (host : Host) (first : CoinGeckoCoin)
    (others : list CoinGeckoCoin) :
  toLowerCase host "" = ""%string ->
  (forall c, In c (first :: others) -> toLowerCase host (coin_symbol c) <> ""%string) ->
  Catalogue.match_coin host (first :: others) "" = Some first.
Proof.
  intros Hempty Hsymbols. unfold Catalogue.match_coin. rewrite Hempty.
  assert (find (fun c => String.eqb (toLowerCase host (coin_symbol c)) "") (first :: others)
          = None) as ->.
  { pose proof (find_first (fun c => String.eqb (toLowerCase host (coin_symbol c)) "")
                  (first :: others)) as H.
    destruct (find _ (first :: others)) as [coin|]; [exfalso | reflexivity].
    destruct H as (before & after & E & Ht & _).
    apply String.eqb_eq in Ht. apply (Hsymbols coin); [|exact Ht].
    rewrite E. apply in_or_app. right. left. reflexivity. }
  cbn [find]. rewrite includes_empty. reflexivity.
Qed.

Lemma empty_query_finds_a_coin_bitcoin :
  Catalogue.match_coin Dialogues.quiet [Dialogues.bitcoin; Dialogues.ethereum] ""
  = Some Dialogues.bitcoin.
Proof.
  apply (empty_query_finds_a_coin Dialogues.quiet Dialogues.bitcoin [Dialogues.ethereum]).
  - reflexivity.
  - intros c [<-|[<-|[]]]; discriminate.
Defined.

(* ------------------------------------------------------------------ *)
(** ** The list of coins and its cache *)

(** X18. A request of the coin list that succeeds with a list that is
    not empty is answered with that list, which is kept for an hour from
    the time after the request: until then [getSupportedCoins] answers it
    from the cache, without a request, a log line or a change of
    state. *)
Theorem fetched_coins_are_served_for_an_hour (host : Host) (s s2 : Process) :
  let k := calls (world s) in
  let time := clock (evaluator host) in
  let data := coins_response host k in
  let out := Catalogue.getSupportedCoins host s in
  (coinsCache s = [] \/ (cacheExpiry s <= time k)%Z) ->
  bot_faults host k OpCoinsList = false ->
  data <> [] ->
  fst out = Returned data
  /\ coinsCache (snd out) = data
  /\ cacheExpiry (snd out) = (time (S k) + 3600000)%Z
  /\ (coinsCache s2 = data -> cacheExpiry s2 = (time (S k) + 3600000)%Z ->
      (time (calls (world s2)) < time (S k) + 3600000)%Z ->
      Catalogue.getSupportedCoins host s2 = (Returned data, s2)).
Proof.
  intros k time data out Miss F Hdata. subst out.
  unfold Catalogue.getSupportedCoins, Proc.bind, Proc.try_catch, Proc.new_Date, Proc.read,
    Proc.log, Proc.invoke, Proc.assign, Proc.ret.
  cbn [fst snd].
  assert ((0 <? List.length (coinsCache s))%nat
          && (clock (evaluator host) (calls (world s)) <? cacheExpiry s)%Z = false) as ->.
  { destruct Miss as [->|Late]; [reflexivity|].
    apply andb_false_iff. right. apply Z.ltb_ge. exact Late. }
  cbn [world note calls with_world]. fold k. rewrite F. cbn.
  repeat split.
  intros C2 E2 Fresh. rewrite C2, E2.
  apply Z.ltb_lt in Fresh. subst time. rewrite Fresh.
  subst data. destruct (coins_response host k); [contradiction Hdata|]; reflexivity.
Qed.

Lemma fetched_coins_are_served_for_an_hour_first_fetch :
  fst (Catalogue.getSupportedCoins Dialogues.quiet Dialogues.empty)
  = Returned [Dialogues.bitcoin; Dialogues.ethereum]
  /\ Catalogue.getSupportedCoins Dialogues.quiet
       (snd (Catalogue.getSupportedCoins Dialogues.quiet Dialogues.empty))
     = (Returned [Dialogues.bitcoin; Dialogues.ethereum],
        snd (Catalogue.getSupportedCoins Dialogues.quiet Dialogues.empty)).
Proof.
  destruct (fetched_coins_are_served_for_an_hour Dialogues.quiet Dialogues.empty
              (snd (Catalogue.getSupportedCoins Dialogues.quiet Dialogues.empty)))
    as (H1 & H2 & H3 & H4).
  - left. reflexivity.
  - reflexivity.
  - discriminate.
  - split; [exact H1|]. apply H4; [exact H2 | exact H3 | vm_compute; reflexivity].
Defined.

(** X19. When the cache does not serve and the request of the coin
    list throws, [getSupportedCoins] logs the failure and throws
    [Failed to fetch supported cryptocurrencies]; the cache and its expiry
    stay as they were, and a list that has expired is not served. *)
Theorem failed_request_serves_nothing (host : Host) (s : Process) :
  let k := calls (world s) in
  let out := Catalogue.getSupportedCoins host s in
  (coinsCache s = [] \/ (cacheExpiry s <= clock (evaluator host) k)%Z) ->
  bot_faults host k OpCoinsList = true ->
  fst out = Raise (NewError "Failed to fetch supported cryptocurrencies")
  /\ coinsCache (snd out) = coinsCache s
  /\ cacheExpiry (snd out) = cacheExpiry s
  /\ map snd (journal (snd out))
     = map snd (journal s)
       ++ [BotLog Info FetchingSupportedCoins; BotCall OpCoinsList false;
           BotLog Error FailedToFetchSupportedCoins].
Proof.
  intros k out Miss F. subst out.
  unfold Catalogue.getSupportedCoins, Proc.bind, Proc.try_catch, Proc.new_Date, Proc.read,
    Proc.log, Proc.invoke, Proc.assign, Proc.ret, Proc.raise.
  cbn [fst snd].
  assert ((0 <? List.length (coinsCache s))%nat
          && (clock (evaluator host) (calls (world s)) <? cacheExpiry s)%Z = false) as ->.
  { destruct Miss as [->|Late]; [reflexivity|].
    apply andb_false_iff. right. apply Z.ltb_ge. exact Late. }
  cbn [world note calls with_world]. fold k. rewrite F. cbn.
  repeat split. rewrite !map_app. cbn. rewrite <- !app_assoc. reflexivity.
Qed.

Lemma failed_request_serves_nothing_offline :
  fst (Catalogue.getSupportedCoins Dialogues.offline Dialogues.empty)
  = Raise (NewError "Failed to fetch supported cryptocurrencies")
  /\ coinsCache (snd (Catalogue.getSupportedCoins Dialogues.offline Dialogues.empty)) = [].
Proof.
  destruct (failed_request_serves_nothing Dialogues.offline Dialogues.empty)
    as (H1 & H2 & _).
  - left. reflexivity.
  - reflexivity.
  - split; [exact H1 | exact H2].
Defined.

(* ------------------------------------------------------------------ *)
(** ** The price of one coin *)

(** X20. [getPrice] never answers 0 or [NaN]: a price it answers is the
    one of the response, and it answers null exactly when the request
    succeeds and the response lacks the coin or prices it at 0 or
    [NaN]. *)
Theorem price_of_zero_is_no_price (host : Host) (coinId : string) (s : Process) :
  let k := calls (world s) in
  let prices := CryptoService.price_map (simple_price (evaluator host) k [coinId]) in
  let answer := fst (Catalogue.getPrice host coinId s) in
  (forall price, answer = Returned (Some price) ->
     JsNumber.falsy price = false /\ JsMap.get prices coinId = Some price)
  /\ (answer = Returned None <->
      faults (evaluator host) k (OpGetCurrentPrices [coinId]) = false
      /\ (JsMap.get prices coinId = None
          \/ exists price, JsMap.get prices coinId = Some price
                           /\ JsNumber.falsy price = true)).
Proof.
  intros k prices answer. subst answer.
  unfold Catalogue.getPrice, Proc.bind, Proc.lift, CryptoService.getCurrentPrices, call.
  fold k. destruct (faults (evaluator host) k (OpGetCurrentPrices [coinId])); cbn.
  { split; [intros p E; discriminate E|]. split; [intro E; discriminate E|].
    intros [E _]. discriminate E. }
  fold prices. destruct (JsMap.get prices coinId) as [price|]; cbn.
  - destruct (JsNumber.falsy price) eqn:F; cbn.
    + split; [intros p E; discriminate E|]. split; [|reflexivity].
      intros _. split; [reflexivity|]. right. exists price. split; [reflexivity | exact F].
    + split; [intros p E; injection E as <-; split; [exact F | reflexivity]|].
      split; [intro E; discriminate E|].
      intros [_ [E|(p & E & Fp)]]; [discriminate E|].
      injection E as <-. congruence.
  - split; [intros p E; discriminate E|]. split; [|reflexivity].
    intros _. split; [reflexivity|]. left. reflexivity.
Qed.

(* ------------------------------------------------------------------ *)
(** ** The check of one alert *)

(** X21. [checkSpecificAlert] always returns a boolean, leaves the
    store as it was and makes reading calls only; for an id that no active
    alert has it returns false after the one load of the alerts. *)
Theorem checking_one_alert_only_reads (host : Host) (alertId : Z) (s : Process) :
  let out := AlertInspection.checkSpecificAlert host alertId s in
  (exists answer, fst out = Returned answer)
  /\ db (world (snd out)) = db (world s)
  /\ (exists evs, trace (world (snd out)) = trace (world s) ++ evs /\ Forall reads_only evs)
  /\ (faults (evaluator host) (calls (world s)) OpGetAllActiveAlerts = false ->
      (forall a, In a (alert_configs (db (world s))) -> isActive a = true ->
                 alert_id a <> alertId) ->
      fst out = Returned false /\ calls (world (snd out)) = S (calls (world s))).
Proof.
  intro out. subst out.
  unfold AlertInspection.checkSpecificAlert, Proc.try_catch, Proc.bind, Proc.lift,
    getAllActiveAlerts, call.
  destruct (faults (evaluator host) (calls (world s)) OpGetAllActiveAlerts) eqn:F0; cbn.
  { split; [eauto|]. split; [reflexivity|]. split; [|intro H; discriminate H].
    eexists. split; [reflexivity|]. repeat constructor. }
  destruct (find (fun a => (alert_id a =? alertId)%Z) (select_active_alerts (db (world s))))
    as [alert|] eqn:Found; cbn.
  2:{ split; [eauto|]. split; [reflexivity|]. split.
      - eexists. split; [reflexivity|]. repeat constructor.
      - intros _ _. split; reflexivity. }
  assert ((forall a, In a (alert_configs (db (world s))) -> isActive a = true ->
                     alert_id a <> alertId) -> False) as Absurd.
  { intro H. apply find_some in Found. destruct Found as [Hin Hid].
    unfold select_active_alerts in Hin. apply filter_In in Hin. destruct Hin as [Hin Hact].
    apply (H alert Hin Hact). apply Z.eqb_eq, Hid. }
  unfold Catalogue.getPrice, Proc.bind, Proc.lift, CryptoService.getCurrentPrices, call.
  cbn [calls world with_world].
  destruct (faults (evaluator host) (S (calls (world s))) _) eqn:F1; cbn.
  { split; [eauto|]. split; [reflexivity|]. split; [|intros _ H; destruct (Absurd H)].
    eexists. split; [rewrite <- app_assoc; reflexivity|]. repeat constructor. }
  destruct (JsMap.get _ (cryptoId alert)) as [price|]; cbn.
  2:{ split; [eauto|]. split; [reflexivity|]. split; [|intros _ H; destruct (Absurd H)].
      eexists. split; [rewrite <- !app_assoc; reflexivity|]. repeat constructor. }
  destruct (JsNumber.falsy price) eqn:Falsy; cbn.
  { split; [eauto|]. split; [reflexivity|]. split; [|intros _ H; destruct (Absurd H)].
    eexists. split; [rewrite <- !app_assoc; reflexivity|]. repeat constructor. }
  rewrite Falsy. cbn.
  match goal with |- context [shouldTriggerAlert ?e ?a ?p ?w] =>
    destruct (shouldTriggerAlert_reads e a p w) as (b & w' & E & Hdb & _ & evs & T & R);
    rewrite E end.
  cbn. split; [eauto|]. split; [exact Hdb|]. split; [|intros _ H; destruct (Absurd H)].
  eexists. rewrite T. cbn. split; [rewrite <- !app_assoc; reflexivity|].
  constructor; [exact I|]. constructor; [exact I|]. exact R.
Qed.

(* ------------------------------------------------------------------ *)
(** ** Toggling and deleting an alert *)

Lemma update_alert_deactivates (id : Z) (alert a : AlertConfig) (d : DB) :
  isActive alert = true ->
  In a (alert_configs (Store.update_alert id (toggled alert) d)) ->
  isActive a = true ->
  In a (alert_configs d).
Proof.
  intros Hact Hin Ha. cbn in Hin. apply in_map_iff in Hin.
  destruct Hin as (a0 & E & Hin0).
  destruct (alert_id a0 =? id)%Z; [|subst a; exact Hin0].
  subst a. cbn in Ha. rewrite Hact in Ha. discriminate Ha.
Qed.

(** X22. [handleToggleAlert] looks the alert up among the active ones,
    so that it can only deactivate: an alert that is active afterwards was
    in the store before, the text [activated] is never sent, and for an id
    that only inactive alerts have, or none, nothing is changed and nothing
    is answered. *)
Theorem toggle_never_activates (host : Host) (alertId : Z) (s : Process) :
  let out := Handlers.handleToggleAlert host alertId s in
  (forall a, In a (alert_configs (db (world (snd out)))) -> isActive a = true ->
             In a (alert_configs (db (world s))))
  /\ (exists entries, noted_since s (snd out) entries
        /\ ~ In (BotCall (OpEditMessageText (AlertToggled false)) true) entries)
  /\ (faults (evaluator host) (calls (world s)) OpGetAllActiveAlerts = false ->
      (forall a, In a (alert_configs (db (world s))) -> alert_id a = alertId ->
                 isActive a = false) ->
      fst out = Returned tt
      /\ db (world (snd out)) = db (world s)
      /\ journal (snd out) = journal s).
Proof.
  intro out. subst out.
  unfold Handlers.handleToggleAlert, Proc.try_catch, Proc.bind, Proc.lift,
    getAllActiveAlerts, call, Handlers.editMessageText, Proc.invoke, Proc.log, noted_since.
  destruct (faults (evaluator host) (calls (world s)) OpGetAllActiveAlerts) eqn:F0; cbn.
  { destruct (bot_faults host _ _); cbn.
    all: split; [intros a H _; exact H|]; split; [|intro H; discriminate H].
    all: eexists; split; [rewrite !map_app; cbn; rewrite <- ?app_assoc; reflexivity|].
    all: cbn; intuition discriminate. }
  destruct (find (fun a => (alert_id a =? alertId)%Z) (select_active_alerts (db (world s))))
    as [alert|] eqn:Found; cbn.
  2:{ split; [intros a H _; exact H|]. split.
      - exists []. rewrite app_nil_r. split; [reflexivity | intros []].
      - intros _ _. repeat split. }
  apply find_some in Found. destruct Found as [Hin Hid].
  unfold select_active_alerts in Hin. apply filter_In in Hin. destruct Hin as [Hin Hact].
  apply Z.eqb_eq in Hid.
  unfold Store.updateAlert. cbn [Store.no_fields new_userId new_cryptoId
    new_thresholdPercentage new_timeframeMinutes new_isActive].
  unfold Proc.invoke. cbn [world with_world calls].
  fold (toggled alert). rewrite Hact.
  destruct (bot_faults host (S (calls (world s))) (OpUpdateAlert alertId (toggled alert)));
    cbn.
  { destruct (bot_faults host _ _); cbn.
    all: split; [intros a H _; exact H|]; split;
      [|intros _ H; rewrite (H alert Hin Hid) in Hact; discriminate Hact].
    all: eexists; split; [rewrite !map_app; cbn; rewrite <- ?app_assoc; reflexivity|].
    all: cbn; intuition discriminate. }
  destruct (bot_faults host (S (S (calls (world s)))) (OpEditMessageText (AlertToggled true)));
    cbn.
  { destruct (bot_faults host _ _); cbn.
    all: split; [intros a; apply (update_alert_deactivates alertId alert a _ Hact)|]; split;
      [|intros _ H; rewrite (H alert Hin Hid) in Hact; discriminate Hact].
    all: eexists; split; [rewrite !map_app; cbn; rewrite <- ?app_assoc; reflexivity|].
    all: cbn; intuition discriminate. }
  split; [intros a; apply (update_alert_deactivates alertId alert a _ Hact)|]. split;
    [|intros _ H; rewrite (H alert Hin Hid) in Hact; discriminate Hact].
  eexists. split; [rewrite !map_app; cbn; rewrite <- ?app_assoc; reflexivity|].
  cbn. intuition discriminate.
Qed.

(** X23. When the DELETE and the edit of the message go through,
    [handleDeleteAlert] answers that the alert is deleted, the active
    alerts are those of before without the one of that id, and the users
    and the samples are as before. *)
Theorem deleted_alert_is_gone (host : Host) (alertId : Z) (s : Process) :
  let k := calls (world s) in
  let out := Handlers.handleDeleteAlert host alertId s in
  bot_faults host k (OpDeleteAlert alertId) = false ->
  bot_faults host (S k) (OpEditMessageText AlertDeleted) = false ->
  fst out = Returned tt
  /\ noted_since s (snd out)
       [BotCall (OpDeleteAlert alertId) true; BotCall (OpEditMessageText AlertDeleted) true]
  /\ select_active_alerts (db (world (snd out)))
     = filter (fun a => negb (alert_id a =? alertId)%Z) (select_active_alerts (db (world s)))
  /\ users (db (world (snd out))) = users (db (world s))
  /\ price_history (db (world (snd out))) = price_history (db (world s)).
Proof.
  intros k out F1 F2. subst out.
  unfold Handlers.handleDeleteAlert, Proc.try_catch, Proc.bind, Store.deleteAlert,
    Handlers.editMessageText, Proc.invoke, noted_since.
  fold k. rewrite F1. cbn. fold k. rewrite F2. cbn.
  split; [reflexivity|]. split; [rewrite !map_app, <- app_assoc; reflexivity|].
  split; [|split; reflexivity].
  unfold select_active_alerts. induction (alert_configs (db (world s))) as [|a l IH]; cbn.
  - reflexivity.
  - destruct (alert_id a =? alertId)%Z eqn:E, (isActive a) eqn:A; cbn;
      rewrite ?E, ?A; cbn; rewrite IH; reflexivity.
Qed.

Lemma deleted_alert_is_gone_for_alice :
  fst (Handlers.handleDeleteAlert Dialogues.quiet 1 Dialogues.watching) = Returned tt
  /\ select_active_alerts
       (db (world (snd (Handlers.handleDeleteAlert Dialogues.quiet 1 Dialogues.watching))))
     = [].
Proof.
  destruct (deleted_alert_is_gone Dialogues.quiet 1 Dialogues.watching)
    as (H1 & _ & H3 & _).
  - reflexivity.
  - reflexivity.
  - split; [exact H1 | exact H3].
Defined.

(* ------------------------------------------------------------------ *)
(** ** Registering a user *)

Lemma find_app_none (A : Type) (f : A -> bool) (l : list A) (x : A) :
  find f l = None -> find f (l ++ [x]) = if f x then Some x else None.
Proof.
  induction l as [|y l IH]; cbn; [reflexivity|].
  destruct (f y); [discriminate | exact IH].
Qed.

Lemma insert_user_found (seq tgId : Z) (name : option string) (d : DB) :
  select_user_by_telegram_id tgId d = None ->
  exists d', Store.insert_user seq tgId name d
             = Some ({| user_id := seq + 1; telegramId := tgId; username := name;
                        user_isActive := true |}, d')
    /\ users d' = users d ++ [{| user_id := seq + 1; telegramId := tgId; username := name;
                                 user_isActive := true |}]
    /\ alert_configs d' = alert_configs d
    /\ price_history d' = price_history d
    /\ alert_logs d' = alert_logs d
    /\ select_user_by_telegram_id tgId d'
       = Some {| user_id := seq + 1; telegramId := tgId; username := name;
                 user_isActive := true |}.
Proof.
  intro H. unfold Store.insert_user. rewrite H. eexists. split; [reflexivity|].
  cbn. repeat split. unfold select_user_by_telegram_id in *. cbn.
  rewrite find_app_none by exact H. cbn. rewrite Z.eqb_refl. reflexivity.
Qed.

(** X24. [createUser] for a Telegram id that [users] does not hold
    appends the row and returns it; [getUserByTelegramId] then finds that
    row, and another [createUser] for the same id throws and leaves the
    store as it is, [telegram_id] being UNIQUE. *)
Theorem created_user_is_found (host : Host) (id : Z) (name : option string) (s : Process) :
  let k := calls (world s) in
  let created := Store.createUser host id name s in
  let user := {| user_id := seq_users s + 1; telegramId := id; username := name;
                 user_isActive := true |} in
  bot_faults host k (OpCreateUser id name) = false ->
  select_user_by_telegram_id id (db (world s)) = None ->
  fst created = Returned user
  /\ users (db (world (snd created))) = users (db (world s)) ++ [user]
  /\ (faults (evaluator host) (S k) (OpGetUserByTelegramId id) = false ->
      fst (Proc.lift (getUserByTelegramId (evaluator host) id) (snd created))
      = Returned (Some user))
  /\ (forall name', fst (Store.createUser host id name' (snd created))
                    = Raise (CallRaised (OpCreateUser id name'))
                    /\ db (world (snd (Store.createUser host id name' (snd created))))
                       = db (world (snd created))).
Proof.
  intros k created user F Hnew. subst created.
  destruct (insert_user_found (seq_users s) id name (db (world s)) Hnew)
    as (d' & E & Husers & _ & _ & _ & Hfound).
  unfold Store.createUser, Proc.invoke. fold k. rewrite F, E. cbn.
  split; [reflexivity|]. split; [exact Husers|]. split.
  - intro F2. unfold Proc.lift, getUserByTelegramId, call. cbn. fold k. rewrite F2. cbn.
    rewrite Hfound. reflexivity.
  - intro name'. unfold Store.insert_user. cbn. rewrite Hfound.
    destruct (bot_faults host (S k) (OpCreateUser id name')); cbn; split; reflexivity.
Qed.

Lemma created_user_is_found_alice :
  fst (Store.createUser Dialogues.quiet 123456 (Some "alice"%string) Dialogues.empty)
  = Returned Scenarios.alice.
Proof.
  apply (created_user_is_found Dialogues.quiet 123456 (Some "alice"%string) Dialogues.empty).
  - reflexivity.
  - reflexivity.
Defined.

(** The state in which the middleware hands over. *)
Ltac pick_state :=
  match goal with
  | |- exists s1, _ /\ forall next, (let (_, _) := ?run ?x in _) = _ => exists x
  end.

(** X25. When the middleware hands over to the handler, or answers
    that the commands come too quickly, the sender is in [users]; in every
    other case it has caught an error, which it logs and apologises
    for. *)
Theorem handler_runs_for_a_registered_sender (host : Host) (id : Z) (name : option string)
    (s : Process) :
  (exists s1, is_registered id s1
     /\ forall next, Handlers.middleware host (Some (id, name)) next s
                     = Proc.try_catch next (middleware_catch host id) s1)
  \/ (exists s1, is_registered id s1
        /\ forall next, Handlers.middleware host (Some (id, name)) next s
                        = Proc.try_catch (Handlers.reply host id TooQuickly)
                            (middleware_catch host id) s1)
  \/ (exists r s1, forall next, Handlers.middleware host (Some (id, name)) next s
                                = middleware_catch host id r s1).
Proof.
  unfold Handlers.middleware, Proc.try_catch, Proc.bind, Proc.lift,
    getUserByTelegramId, call.
  destruct (faults (evaluator host) (calls (world s)) (OpGetUserByTelegramId id)) eqn:F0;
    cbn [fst snd].
  { right. right. exists (FromEvaluator (CallFailed (OpGetUserByTelegramId id))).
    eexists. intro next. reflexivity. }
  destruct (select_user_by_telegram_id id (db (world s))) as [user|] eqn:Found.
  - cbn. unfold Handlers.checkRateLimit, Proc.bind, Proc.new_Date, Proc.read, Proc.assign,
      Proc.ret. cbn.
    destruct (Handlers.rate_limit _ _ id (userCommandCounts s)) as [[|] counts'] eqn:R; cbn.
    + left. pick_state. split; [|intro next; reflexivity].
      unfold is_registered. exists user. cbn. exact Found.
    + right. left. pick_state. split; [|intro next; reflexivity].
      unfold is_registered. exists user. cbn. exact Found.
  - unfold Store.createUser, Proc.invoke. cbn [world with_world calls db].
    destruct (bot_faults host (S (calls (world s))) (OpCreateUser id name)) eqn:F1; cbn.
    { right. right. exists (CallRaised (OpCreateUser id name)).
      eexists. intro next. reflexivity. }
    destruct (insert_user_found (seq_users s) id name (db (world s)) Found)
      as (d' & E & _ & _ & _ & _ & Hfound).
    rewrite E. cbn.
    unfold Handlers.checkRateLimit, Proc.bind, Proc.new_Date, Proc.read, Proc.assign,
      Proc.ret, Proc.log. cbn.
    destruct (Handlers.rate_limit _ _ id (userCommandCounts s)) as [[|] counts'] eqn:R; cbn.
    + left. pick_state. split; [|intro next; reflexivity].
      unfold is_registered. eexists. cbn. exact Hfound.
    + right. left. pick_state. split; [|intro next; reflexivity].
      unfold is_registered. eexists. cbn. exact Hfound.
Qed.

(* ------------------------------------------------------------------ *)
(** ** What leaves the session and the store alone *)

Lemma unchanged_bind (A B : Type) (m : P A) (f : A -> P B) :
  unchanged m -> (forall a, unchanged (f a)) -> unchanged (Proc.bind m f).
Proof.
  intros Hm Hf s. unfold Proc.bind. destruct (Hm s) as [H1 H2].
  destruct (m s) as [[a|r] s1]; cbn in *.
  - destruct (Hf a s1) as [G1 G2]. split; congruence.
  - split; assumption.
Qed.

Lemma unchanged_try_catch (A : Type) (body : P A) (handler : Raised -> P A) :
  unchanged body -> (forall r, unchanged (handler r)) ->
  unchanged (Proc.try_catch body handler).
Proof.
  intros Hm Hh s. unfold Proc.try_catch. destruct (Hm s) as [H1 H2].
  destruct (body s) as [[a|r] s1]; cbn in *.
  - split; assumption.
  - destruct (Hh r s1) as [G1 G2]. split; congruence.
Qed.

Lemma unchanged_ret (A : Type) (a : A) : unchanged (Proc.ret a).
Proof. intro s. split; reflexivity. Qed.

Lemma unchanged_raise (A : Type) (r : Raised) : unchanged (@Proc.raise A r).
Proof. intro s. split; reflexivity. Qed.

Lemma unchanged_read (A : Type) (field : Process -> A) : unchanged (Proc.read field).
Proof. intro s. split; reflexivity. Qed.

Lemma unchanged_log (lvl : Level) (line : BotLine) : unchanged (Proc.log lvl line).
Proof. intro s. split; reflexivity. Qed.

Lemma unchanged_new_Date (host : Host) : unchanged (Proc.new_Date host).
Proof. intro s. split; reflexivity. Qed.

Lemma unchanged_invoke (host : Host) (A : Type) (op : BotOp) (result : nat -> Process -> A) :
  unchanged (Proc.invoke host op (fun k s => Some (result k s, s))).
Proof.
  intro s. unfold Proc.invoke. destruct (bot_faults host _ op); split; reflexivity.
Qed.

Lemma unchanged_reply (host : Host) (chatId : Z) (text : Reply) :
  unchanged (Handlers.reply host chatId text).
Proof. apply (unchanged_invoke host) with (result := fun _ _ => tt). Qed.

Lemma unchanged_getSupportedCoins (host : Host) : unchanged (Catalogue.getSupportedCoins host).
Proof.
  unfold Catalogue.getSupportedCoins.
  apply unchanged_bind; [apply unchanged_new_Date|]. intro now.
  apply unchanged_bind; [apply unchanged_read|]. intro cached.
  apply unchanged_bind; [apply unchanged_read|]. intro expiry.
  destruct (_ && _); [apply unchanged_ret|].
  apply unchanged_try_catch.
  - apply unchanged_bind; [apply unchanged_log|]. intros _.
    apply unchanged_bind;
      [apply (unchanged_invoke host) with (result := fun k _ => coins_response host k)|].
    intro data.
    apply unchanged_bind; [apply unchanged_new_Date|]. intro now'.
    apply unchanged_bind; [intro s; split; reflexivity|]. intros _.
    apply unchanged_bind; [apply unchanged_log|]. intros _.
    apply unchanged_read.
  - intros r. apply unchanged_bind; [apply unchanged_log|]. intros _. apply unchanged_raise.
Qed.

Lemma unchanged_findCoinBySymbol (host : Host) (symbol : string) :
  unchanged (Catalogue.findCoinBySymbol host symbol).
Proof.
  unfold Catalogue.findCoinBySymbol.
  apply unchanged_bind; [apply unchanged_getSupportedCoins|]. intro coins.
  apply unchanged_ret.
Qed.

Lemma lift_world (A : Type) (m : M A) (s : Process) :
  world (snd (Proc.lift m s)) = snd (m (world s))
  /\ session (snd (Proc.lift m s)) = session s.
Proof.
  unfold Proc.lift. destruct (m (world s)) as [[a|e] w]; split; reflexivity.
Qed.

Lemma createAlert_inserts (env : Env) (from : Z) (c : string) (th : float) (tf : Z)
    (w : World) :
  let d' := db (snd (TelegramBotService.createAlert env from c th tf w)) in
  users d' = users (db w)
  /\ (alert_configs d' = alert_configs (db w)
      \/ exists user,
           select_user_by_telegram_id from (db w) = Some user
           /\ alert_configs d' =
              alert_configs (db w)
              ++ [{| alert_id := seq_alert_configs (db w) + 1; userId := user_id user;
                     cryptoId := c; thresholdPercentage := th; timeframeMinutes := tf;
                     isActive := true |}]).
Proof.
  unfold TelegramBotService.createAlert, try_catch, bind, getUserByTelegramId,
    DatabaseService.createAlert, CryptoService.getCoinInfo, Bot.reply, call, logger,
    record, ret.
  destruct (faults env (calls w) _); cbn.
  { destruct (faults env _ _); cbn; split; auto. }
  destruct (select_user_by_telegram_id from (db w)) as [user|] eqn:Found; cbn;
    [|split; auto].
  destruct (faults env (S (calls w)) _); cbn.
  { destruct (faults env _ _); cbn; split; auto. }
  destruct (faults env (S (S (calls w))) _); cbn.
  { destruct (faults env _ _); cbn; (split; [reflexivity|]); right; exists user;
      split; reflexivity. }
  destruct (faults env (S (S (S (calls w)))) _); cbn.
  { destruct (faults env _ _); cbn; (split; [reflexivity|]); right; exists user;
      split; reflexivity. }
  split; [reflexivity|]. right. exists user. split; reflexivity.
Qed.

(* ------------------------------------------------------------------ *)
(** ** The dialogue of [/create] *)

Section Dialogue.

Variable host : Host.
Variable from : Z.
Variable d0 : DB.

Lemma dialogue_inv_unchanged (A : Type) (m : P A) (s : Process) :
  unchanged m -> dialogue_inv from d0 s -> dialogue_inv from d0 (snd (m s)).
Proof.
  intros Hm (H1 & H2 & H3). destruct (Hm s) as [E1 E2].
  unfold dialogue_inv. rewrite E1, E2. repeat split; assumption.
Qed.

Lemma dialogue_inv_session (x : SessionData) (s : Process) :
  awaits_valid x -> dialogue_inv from d0 s -> dialogue_inv from d0 (with_session x s).
Proof. intros Hx (_ & H2 & H3). split; [exact Hx | split; assumption]. Qed.

Lemma flow_apology_keeps (r : Raised) (s : Process) :
  dialogue_inv from d0 s ->
  dialogue_inv from d0
    (snd (Proc.bind (Proc.log Error ErrorInAlertConfigFlow)
            (fun _ => Proc.bind (Handlers.reply host from FlowApology)
                        (fun _ => Handlers.set_awaitingAlertConfig None)) s)).
Proof.
  intro H. unfold Proc.bind at 1. cbn [Proc.log fst snd].
  unfold Proc.bind.
  pose proof (dialogue_inv_unchanged _ (Handlers.reply host from FlowApology)
                (note (BotLog Error ErrorInAlertConfigFlow) s)
                (unchanged_reply host from FlowApology)) as K.
  destruct (Handlers.reply host from FlowApology _) as [[[]|r'] s1]; cbn in *.
  - apply dialogue_inv_session; [exact I|]. apply K. exact H.
  - apply K. exact H.
Qed.

Lemma createAlert_keeps (config : AwaitingAlertConfig) (timeframe : Z) (s : Process) :
  (exists cryptoId, cfg_crypto config = Some cryptoId) ->
  (exists threshold, cfg_threshold config = Some threshold
                     /\ Handlers.invalid_threshold threshold = false) ->
  Handlers.invalid_timeframe timeframe = false ->
  dialogue_inv from d0 s ->
  dialogue_inv from d0
    (snd (Handlers.createAlert host from (cfg_crypto config) (cfg_threshold config)
            timeframe s)).
Proof.
  intros (c & Ec) (th & Eth & Hth) Htf (H1 & H2 & H3).
  unfold Handlers.createAlert. rewrite Ec, Eth.
  destruct (lift_world _ (TelegramBotService.createAlert (evaluator host) from c th timeframe) s)
    as [Ew Es].
  unfold dialogue_inv. rewrite Ew, Es.
  destruct (createAlert_inserts (evaluator host) from c th timeframe (world s))
    as (Hu & Ha).
  cbv zeta in Hu, Ha.
  split; [exact H1|]. split; [congruence|].
  intros a Hin. destruct Ha as [Ha|(user & Found & Ha)]; rewrite Ha in Hin;
    [apply H3, Hin|].
  apply in_app_or in Hin. destruct Hin as [Hin|[<-|[]]]; [apply H3, Hin|].
  right. unfold within_limits. cbn. split; [exact Hth|].
  unfold Handlers.invalid_timeframe in Htf. apply orb_false_iff in Htf.
  destruct Htf as [T1 T2]. apply Z.ltb_ge in T1, T2.
  split; [lia|]. split; [reflexivity|].
  exists user. split; [|reflexivity].
  unfold select_user_by_telegram_id in *. rewrite <- H2. exact Found.
Qed.

Lemma flow_body_keeps (text : string) (config : AwaitingAlertConfig) (s : Process) :
  awaitingAlertConfig (session s) = Some config ->
  dialogue_inv from d0 s ->
  dialogue_inv from d0
    (snd (match cfg_step config with
          | StepCrypto =>
              Proc.bind (Catalogue.findCoinBySymbol host text)
                (fun coin =>
                   match coin with
                   | None => Handlers.reply host from (CoinNotFound text)
                   | Some coin =>
                       Proc.bind
                         (Handlers.set_awaitingAlertConfig
                            (Some {| cfg_step := StepThreshold;
                                     cfg_crypto := Some (coin_id coin);
                                     cfg_threshold := cfg_threshold config |}))
                         (fun _ => Handlers.reply host from (CoinSelected coin))
                   end)
          | StepThreshold =>
              if Handlers.invalid_threshold (parseFloat host text)
              then Handlers.reply host from InvalidThreshold
              else
                Proc.bind
                  (Handlers.set_awaitingAlertConfig
                     (Some {| cfg_step := StepTimeframe;
                              cfg_crypto := cfg_crypto config;
                              cfg_threshold := Some (parseFloat host text) |}))
                  (fun _ => Handlers.reply host from (ThresholdSet (parseFloat host text)))
          | StepTimeframe =>
              match parseInt host text with
              | None => Handlers.reply host from InvalidTimeframe
              | Some timeframe =>
                  if Handlers.invalid_timeframe timeframe
                  then Handlers.reply host from InvalidTimeframe
                  else
                    Proc.bind
                      (Handlers.createAlert host from (cfg_crypto config)
                         (cfg_threshold config) timeframe)
                      (fun _ => Handlers.set_awaitingAlertConfig None)
              end
          end s)).
Proof.
  intros Hcfg Hinv. pose proof Hinv as (Hvalid & _).
  unfold awaits_valid in Hvalid. rewrite Hcfg in Hvalid.
  destruct (cfg_step config).
  - unfold Proc.bind.
    pose proof (dialogue_inv_unchanged _ _ s (unchanged_findCoinBySymbol host text) Hinv) as K.
    destruct (Catalogue.findCoinBySymbol host text s) as [[[coin|]|r] s1]; cbn [fst snd] in *.
    + cbn [Handlers.set_awaitingAlertConfig Proc.assign].
      apply dialogue_inv_unchanged; [apply unchanged_reply|].
      apply dialogue_inv_session; [|exact K].
      cbn. eauto.
    + apply dialogue_inv_unchanged; [apply unchanged_reply | exact K].
    + exact K.
  - destruct (Handlers.invalid_threshold (parseFloat host text)) eqn:V.
    + apply dialogue_inv_unchanged; [apply unchanged_reply | exact Hinv].
    + unfold Proc.bind. cbn [Handlers.set_awaitingAlertConfig Proc.assign].
      apply dialogue_inv_unchanged; [apply unchanged_reply|].
      apply dialogue_inv_session; [|exact Hinv].
      cbn. split; [exact Hvalid | eauto].
  - destruct (parseInt host text) as [timeframe|].
    2:{ apply dialogue_inv_unchanged; [apply unchanged_reply | exact Hinv]. }
    destruct (Handlers.invalid_timeframe timeframe) eqn:V.
    { apply dialogue_inv_unchanged; [apply unchanged_reply | exact Hinv]. }
    destruct Hvalid as [Hc Hth].
    pose proof (createAlert_keeps config timeframe s Hc Hth V Hinv) as K.
    unfold Proc.bind.
    destruct (Handlers.createAlert host from _ _ timeframe s) as [[[]|r] s1];
      cbn [fst snd] in *.
    + cbn [Handlers.set_awaitingAlertConfig Proc.assign].
      apply dialogue_inv_session; [exact I | exact K].
    + exact K.
Qed.

Lemma handleAlertConfigFlow_keeps (text : string) (s : Process) :
  dialogue_inv from d0 s -> dialogue_inv from d0 (snd (Handlers.handleAlertConfigFlow host from text s)).
Proof.
  intro Hinv. unfold Handlers.handleAlertConfigFlow, Proc.try_catch.
  unfold Proc.bind at 1. cbn [Proc.read fst snd].
  destruct (awaitingAlertConfig (session s)) as [config|] eqn:Hcfg.
  - pose proof (flow_body_keeps text config s Hcfg Hinv) as K.
    match goal with |- context [match ?run with _ => _ end] =>
      destruct run as [[[]|r] s1] end; cbn [fst snd] in *.
    + exact K.
    + apply (flow_apology_keeps r). exact K.
  - cbn. apply (flow_apology_keeps (FromEvaluator TypeError)). exact Hinv.
Qed.

Lemma handleTextMessage_keeps (text : option string) (s : Process) :
  dialogue_inv from d0 s -> dialogue_inv from d0 (snd (Handlers.handleTextMessage host from text s)).
Proof.
  intro Hinv. unfold Handlers.handleTextMessage.
  destruct text as [[|c text]|]; [exact Hinv | | exact Hinv].
  unfold Proc.bind at 1. cbn [Proc.read fst snd].
  destruct (awaitingAlertConfig (session s)).
  - apply handleAlertConfigFlow_keeps, Hinv.
  - unfold Proc.bind. cbn [Proc.read fst snd].
    destruct (awaitingUpdateConfig (session s));
      (apply dialogue_inv_unchanged; [apply unchanged_reply | exact Hinv]).
Qed.

End Dialogue.

(** X26. Whatever text arrives, in a session whose answers so far fit
    its step, [handleTextMessage] keeps the session such and [users] as it
    is, and an alert it adds has a threshold between 0.1 and 100 and a
    timeframe between 5 and 1440, is active, and is owned by the row of the
    sender. *)
Theorem dialogue_creates_alerts_within_limits (host : Host) (from : Z)
    (text : option string) (s : Process) :
  awaits_valid (session s) ->
  let s' := snd (Handlers.handleTextMessage host from text s) in
  awaits_valid (session s')
  /\ users (db (world s')) = users (db (world s))
  /\ forall a, In a (alert_configs (db (world s'))) ->
       In a (alert_configs (db (world s))) \/ within_limits (db (world s)) from a.
Proof.
  intros Hvalid s'. subst s'.
  apply (handleTextMessage_keeps host from (db (world s)) text s).
  split; [exact Hvalid|]. split; [reflexivity|]. intros a Ha. left. exact Ha.
Qed.

Lemma dialogue_creates_alerts_within_limits_last_answer :
  let s' :=
    snd (Handlers.handleTextMessage Dialogues.quiet 123456 (Some "60"%string)
           Dialogues.asked_timeframe) in
  awaits_valid (session s')
  /\ users (db (world s')) = [Scenarios.alice]
  /\ forall a, In a (alert_configs (db (world s'))) ->
       In a [] \/ within_limits (db (world Dialogues.asked_timeframe)) 123456 a.
Proof.
  apply (dialogue_creates_alerts_within_limits Dialogues.quiet 123456 (Some "60"%string)
           Dialogues.asked_timeframe).
  split.
  - exists "bitcoin"%string. reflexivity.
  - exists 5%float. split; reflexivity.
Defined.

Lemma cache_hit (host : Host) (s : Process) :
  coinsCache s <> [] ->
  (clock (evaluator host) (calls (world s)) < cacheExpiry s)%Z ->
  Catalogue.getSupportedCoins host s = (Returned (coinsCache s), s).
Proof.
  intros Hc Hfresh.
  unfold Catalogue.getSupportedCoins, Proc.bind, Proc.new_Date, Proc.read, Proc.ret.
  cbn [fst snd]. apply Z.ltb_lt in Hfresh. rewrite Hfresh.
  destruct (coinsCache s); [contradiction Hc|]; reflexivity.
Qed.



(** X28. After [/cancel] the session awaits nothing, wherever the
    dialogue stood: the text that follows is answered as a command that
    was not understood, and the store is as before. *)
Theorem cancel_ends_the_dialogue (host : Host) (from : Z) (text : string) (s : Process) :
  let k := calls (world s) in
  let out :=
    Proc.bind (Handlers.cancel host from)
      (fun _ => Handlers.handleTextMessage host from (Some text)) s in
  bot_faults host k (OpReplyText from OperationCancelled) = false ->
  bot_faults host (S k) (OpReplyText from NotUnderstood) = false ->
  text <> ""%string ->
  fst out = Returned tt
  /\ session (snd out) = {| awaitingAlertConfig := None; awaitingUpdateConfig := None |}
  /\ db (world (snd out)) = db (world s)
  /\ noted_since s (snd out)
       [BotCall (OpReplyText from OperationCancelled) true;
        BotCall (OpReplyText from NotUnderstood) true].
Proof.
  intros k out F1 F2 N. subst out.
  destruct text as [|c rest]; [contradiction N; reflexivity|].
  unfold Handlers.cancel, Handlers.handleTextMessage, Proc.bind, Handlers.reply,
    Proc.invoke, Handlers.set_awaitingAlertConfig, Handlers.set_awaitingUpdateConfig,
    Proc.assign, Proc.read, noted_since.
  cbn. fold k. rewrite F1. cbn. fold k. rewrite F2. cbn.
  repeat split. rewrite !map_app, <- app_assoc. reflexivity.
Qed.

Lemma cancel_ends_the_dialogue_under_way :
  session
    (snd (Proc.bind (Handlers.cancel Dialogues.quiet 123456)
            (fun _ => Handlers.handleTextMessage Dialogues.quiet 123456 (Some "5"%string))
            Dialogues.asked_threshold))
  = Dialogues.idle.
Proof.
  apply (cancel_ends_the_dialogue Dialogues.quiet 123456 "5" Dialogues.asked_threshold).
  - reflexivity.
  - reflexivity.
  - discriminate.
Defined.

(** X29. A threshold that is not a number between 0.1 and 100, and a
    timeframe that is not an integer between 5 and 1440, get the refusal
    of their step and leave the session and the store as they were: the
    question stands. *)
Theorem refused_answer_keeps_the_step (host : Host) (from : Z) (text : string)
    (config : AwaitingAlertConfig) (s : Process) :
  let out := Handlers.handleTextMessage host from (Some text) s in
  let answer := refusal (cfg_step config) in
  awaitingAlertConfig (session s) = Some config ->
  text <> ""%string ->
  refused host (cfg_step config) text ->
  bot_faults host (calls (world s)) (OpReplyText from answer) = false ->
  fst out = Returned tt
  /\ session (snd out) = session s
  /\ db (world (snd out)) = db (world s)
  /\ noted_since s (snd out) [BotCall (OpReplyText from answer) true].
Proof.
  intros out answer Hcfg N Hrefused F. subst out answer.
  destruct text as [|c rest]; [contradiction N; reflexivity|].
  unfold Handlers.handleTextMessage, Handlers.handleAlertConfigFlow, Proc.try_catch,
    Proc.bind, Proc.read, noted_since.
  cbn [fst snd]. rewrite Hcfg. cbn beta iota. rewrite Hcfg.
  destruct (cfg_step config); cbn in Hrefused, F |- *.
  - destruct Hrefused.
  - rewrite Hrefused. unfold Handlers.reply, Proc.invoke. rewrite F. cbn.
    repeat split. rewrite map_app. reflexivity.
  - destruct (parseInt host (String c rest)) as [timeframe|].
    + rewrite Hrefused. unfold Handlers.reply, Proc.invoke. rewrite F. cbn.
      repeat split. rewrite map_app. reflexivity.
    + unfold Handlers.reply, Proc.invoke. rewrite F. cbn.
      repeat split. rewrite map_app. reflexivity.
Qed.

Lemma refused_answer_keeps_the_step_at_200 :
  session
    (snd (Handlers.handleTextMessage Dialogues.quiet 123456 (Some "200"%string)
            Dialogues.asked_threshold))
  = session Dialogues.asked_threshold.
Proof.
  apply (refused_answer_keeps_the_step Dialogues.quiet 123456 "200"
           {| cfg_step := StepThreshold; cfg_crypto := Some "bitcoin"%string;
              cfg_threshold := None |}
           Dialogues.asked_threshold).
  - reflexivity.
  - discriminate.
  - vm_compute. reflexivity.
  - reflexivity.
Defined.
